(** * co2_forecaster: data preparation and prediction service

    A shallow embedding of [src/data_prep.py], [src/main.py] and
    [src/model_train.py], read against pandas 2 and later.

    Conventions used throughout:
    - a nanosecond [Timestamp] is a signed 64-bit count of nanoseconds since
      1970-01-01 (type [Z], with the int64 bounds checked where pandas
      checks them); a timestamp that has been rounded to the day is carried
      as its day number (days since 1970-01-01);
    - a finite binary64 value is the rational it denotes (type [Q]); [NaN]
      in a float column is [None];
    - an operation that raises returns [None] or an explicit error value;
    - what depends on the version of a library, and is not pinned by the
      source, is a variable of the section that uses it. *)

From Stdlib Require Import ZArith QArith Qround Qpower Lia Lqa List Bool String Ascii.
From stdpp Require Import base option list strings gmap.

Local Open Scope Z_scope.

(** ** Proleptic Gregorian calendar on day numbers *)

Module Calendar.

Record date := mkdate { year : Z; month : Z; day : Z }.

Definition date_eqb (a b : date) : bool :=
  (year a =? year b) && (month a =? month b) && (day a =? day b).

(** Day number (days since 1970-01-01) of a civil date. *)
Definition days_from_civil (y m d : Z) : Z :=
  let y' := if m <=? 2 then y - 1 else y in
  let era := y' / 400 in
  let yoe := y' - era * 400 in
  let mp := if m >? 2 then m - 3 else m + 9 in
  let doy := (153 * mp + 2) / 5 + d - 1 in
  let doe := yoe * 365 + yoe / 4 - yoe / 100 + doy in
  era * 146097 + doe - 719468.

(** Civil date of day [doe] (0..146096) of the 400-year era [era]. *)
Definition civil_of_era (era doe : Z) : date :=
  let yoe := (doe - doe / 1460 + doe / 36524 - doe / 146096) / 365 in
  let y := yoe + era * 400 in
  let doy := doe - (365 * yoe + yoe / 4 - yoe / 100) in
  let mp := (5 * doy + 2) / 153 in
  let d := doy - (153 * mp + 2) / 5 + 1 in
  let m := if mp <? 10 then mp + 3 else mp - 9 in
  mkdate (if m <=? 2 then y + 1 else y) m d.

(** Civil date of a day number. *)
Definition civil_from_days (z : Z) : date :=
  let z' := z + 719468 in
  civil_of_era (z' / 146097) (z' mod 146097).

(** Months counted from year 0: [month_index] of (y, m) is [12*y + m - 1]. *)
Definition month_index (c : date) : Z := 12 * year c + (month c - 1).

(** Day number of the first day of the month with a given index. *)
Definition month_start (k : Z) : Z :=
  days_from_civil (k / 12) (k mod 12 + 1) 1.

Definition is_month_start (z : Z) : bool := day (civil_from_days z) =? 1.

End Calendar.

(** ** Exceptions *)

Inductive error : Type :=
  | ParserError                         (* pandas.read_csv cannot read the table *)
  | IndexError                          (* iloc: positional indexer out of bounds *)
  | DateError                           (* raised inside decimal_year_to_date *)
  | TypeError                           (* asfreq on an index that holds no dates *)
  | ValueError (msg : string).

Inductive result (A : Type) : Type :=
  | Ok (a : A)
  | Raise (e : error).
Arguments Ok {A} a.
Arguments Raise {A} e.

(** ** src/data_prep.py *)

Module DataPrep.
Import Calendar.

(** Nanoseconds in a day, and the int64 range of a nanosecond [Timestamp]
    (the least int64 is reserved for [NaT]). *)
Definition DAY_NS : Z := 86400000000000.
Definition TS_MIN : Z := -9223372036854775807.
Definition TS_MAX : Z := 9223372036854775807.

Definition in_bounds (t : Z) : bool := (TS_MIN <=? t) && (t <=? TS_MAX).

(** [int(x)] on a float: truncation toward zero. *)
Definition Qtrunc (q : Q) : Z := Z.quot (Qnum q) (Z.pos (Qden q)).

(** Nearest integer, ties to the even one (Python's [round]). *)
Definition Qround_half_even (q : Q) : Z :=
  let f := Qfloor q in
  match Qcompare (q - inject_Z f) (1 # 2) with
  | Lt => f
  | Gt => f + 1
  | Eq => if Z.even f then f else f + 1
  end.

(** pandas [round_nsint64] with [NEAREST_HALF_EVEN] for an even [unit]:
    the quotient of [divmod(v, unit)], plus one when the remainder is above
    half a unit, or equal to it with an odd quotient. *)
Definition round_nearest_half_even (v unit : Z) : Z :=
  let q := v / unit in
  let r := v mod unit in
  if (unit / 2 <? r) || ((r =? unit / 2) && Z.odd q) then q + 1 else q.

(** *** Binary64 values

    A finite float is the rational it denotes, and an operation on floats is
    the exact operation followed by rounding to the nearest binary64 value,
    ties to the even significand. Overflow to infinity is left out: no
    value computed here comes near the binary64 range. *)

(** The binary exponent of a positive rational: [2^e <= q < 2^(e+1)]. *)
Definition ilog2 (q : Q) : Z :=
  let e0 := Z.log2 (Qnum q) - Z.log2 (Z.pos (Qden q)) in
  if Qle_bool (2 ^ e0) q then e0 else e0 - 1.

(** A positive rational rounded to 53 significant bits, or to a multiple of
    [2^-1074] below the normal range. *)
Definition round_to_precision (q : Q) : Q :=
  let s := Z.max (ilog2 q) (-1022) - 52 in
  inject_Z (Qround_half_even (q * 2 ^ (- s))) * 2 ^ s.

Definition binary64 (q : Q) : Q :=
  match Qnum q with
  | Z0 => 0
  | Zpos _ => round_to_precision q
  | Zneg _ => - round_to_precision (- q)
  end.

(** [pd.to_datetime(f'{year}-01-01')] as a nanosecond timestamp: the
    string is an ISO date when the year prints with four digits, and the
    date has a nanosecond timestamp when it fits the int64 range. [None]
    says that there is no such timestamp, not that the call raises: see
    [decimal_year_to_date]. *)
Definition to_datetime_jan1 (year : Z) : option Z :=
  if (1000 <=? year) && (year <=? 9999) then
    let t := days_from_civil year 1 1 * DAY_NS in
    if in_bounds t then Some t else None
  else None.

(** [cast_from_unit] keeps [p = int(log10(m))] digits of the fraction, for
    the multiplier [m = 86400e9] of days to nanoseconds: [p = 13]. This is
    [10^p]. *)
Definition FRAC_DIGITS : Z := 10000000000000.

(** [round(frac, 13)] on a float: the multiple of [1e-13] nearest to its
    exact value, the even multiple on a tie, as the float nearest to it. *)
Definition round_13 (frac : Q) : Q :=
  binary64 (inject_Z (Qround_half_even (frac * inject_Z FRAC_DIGITS))
            / inject_Z FRAC_DIGITS).

(** pandas [cast_from_unit(x, 'D')] on a float: whole days and the
    fraction are scaled apart, the fraction after [round(frac, 13)]. *)
Definition cast_from_unit_D (x : Q) : Z :=
  let base := Qtrunc x in
  let frac := binary64 (x - inject_Z base) in
  base * DAY_NS + Qtrunc (binary64 (round_13 frac * inject_Z DAY_NS)).

(** [pd.to_timedelta(x, unit='D')]. *)
Definition to_timedelta_D (x : Q) : option Z :=
  let n := cast_from_unit_D x in
  if in_bounds n then Some n else None.

(** [Timestamp.round('D')], as the day number of the rounded timestamp. *)
Definition round_D (t : Z) : option Z :=
  let n := round_nearest_half_even t DAY_NS in
  if in_bounds (n * DAY_NS) then Some n else None.

(** Lines 10-13 carried out on nanosecond timestamps: the day number of
    the rounded date, when January 1, the sum and the rounded date all fit
    the nanosecond range. *)
Definition nanosecond_date (year_decimal : Q) : option Z :=
  let year := Qtrunc year_decimal in
  let rem := binary64 (year_decimal - inject_Z year) in
  t0 ← to_datetime_jan1 year;
  dt ← to_timedelta_D (binary64 (rem * 365.25));
  if in_bounds (t0 + dt) then round_D (t0 + dt) else None.

Section Normalizer.

(** What the function does with an input that [nanosecond_date] has no
    date for and whose year is below 10000: the date it returns, or [None]
    when it raises. This depends on the pandas at hand, and the source pins
    none: a year below 1000 does not print as an ISO date and is read by
    other rules, and where pandas 2 raises on a four-digit year outside the
    nanosecond range, pandas 3 keeps a string date at a coarser unit. *)
Variable other_years : Q -> option Z.

(** [decimal_year_to_date], lines 7-13. The result is the day number of
    the returned midnight timestamp, [None] when the call raises. Where
    every step fits a nanosecond timestamp the date is that of
    [nanosecond_date]; a year of five digits or more is no date that
    [pd.to_datetime] reads; the rest is [other_years]. *)
Definition decimal_year_to_date (year_decimal : Q) : option Z :=
  match nanosecond_date year_decimal with
  | Some date => Some date
  | None =>
      if 10000 <=? Qtrunc year_decimal then None else other_years year_decimal
  end.

End Normalizer.

(** *** Missing-value repair *)

(** [Series.ffill()]: a missing entry takes the last valid value before it. *)
Fixpoint ffill_from {A : Type} (last : option A) (l : list (option A))
  : list (option A) :=
  match l with
  | [] => []
  | x :: r =>
      let v := match x with Some _ => x | None => last end in
      v :: ffill_from v r
  end.

Definition ffill {A : Type} (l : list (option A)) : list (option A) :=
  ffill_from None l.

(** [Series.bfill()]: a missing entry takes the next valid value after it. *)
Fixpoint bfill {A : Type} (l : list (option A)) : list (option A) :=
  match l with
  | [] => []
  | x :: r =>
      let r' := bfill r in
      match x with
      | Some _ => x :: r'
      | None => mjoin (head r') :: r'
      end
  end.

(** Line 39: [co2_raw.ffill().bfill()]. *)
Definition fill_co2 {A : Type} (co2_raw : list (option A)) : list (option A) :=
  bfill (ffill co2_raw).

(** *** The monthly index *)

(** [MonthBegin] applied to a date: the first day of the next month. *)
Definition next_month_start (d : Z) : Z :=
  month_start (month_index (civil_from_days d) + 1).

(** [MonthBegin.rollforward]. *)
Definition rollforward (d : Z) : Z :=
  if is_month_start d then d else next_month_start d.

(** The loop of pandas [generate_range]: yield [cur] while it is not past
    [stop]. Each round moves [cur] forward by a month, so a round per day
    of the range is fuel enough ([generate_range_fuel] below). *)
Fixpoint generate_range (fuel : nat) (cur stop : Z) : list Z :=
  match fuel with
  | O => []
  | S n =>
      if cur <=? stop
      then cur :: generate_range n (next_month_start cur) stop
      else []
  end.

(** The month starts numbered [k], [k+1], ..., [n] of them. *)
Definition month_starts (k : Z) (n : nat) : list Z :=
  map (fun i => month_start (k + Z.of_nat i)) (seq 0 n).

(** [pd.date_range(start, stop, freq='MS')] on midnight timestamps. *)
Definition date_range_MS (start stop : Z) : list Z :=
  let first := rollforward start in
  generate_range (Z.to_nat (stop - first + 1)) first stop.

Definition index_min (l : list Z) : Z := foldr Z.min (hd 0 l) l.
Definition index_max (l : list Z) : Z := foldr Z.max (hd 0 l) l.

(** A series: its index labels with their values, [None] for NaN. *)
Definition Series : Type := list (Z * option Q).

Definition series_get (s : Series) (d : Z) : option Q :=
  match find (fun p => fst p =? d) s with
  | Some p => snd p
  | None => None
  end.

(** [Series.asfreq('MS')]: [reindex] onto the month starts between the
    least and the greatest label; a label absent from the series gets NaN.
    [reindex] refuses an index with duplicate labels; an empty index here
    holds no dates and is refused as well. *)
Definition asfreq_MS (s : Series) : result Series :=
  let idx := map fst s in
  match idx with
  | [] => Raise TypeError
  | _ =>
      if bool_decide (NoDup idx) then
        Ok (map (fun d => (d, series_get s d))
              (date_range_MS (index_min idx) (index_max idx)))
      else Raise (ValueError "cannot reindex on an axis with duplicate labels")
  end.

(** *** The loader *)

(** A row of the returned frame. *)
Record Row := mkRow {
  Date_Decimal : Q;
  CO2_Raw_ppm : option Q;
  CO2_ppm : Q;
  Date : Z
}.

(** The frame that [read_csv] returns: the number of named columns, the
    number of leading fields of each record that are index and not column,
    and the records. *)
Record RawFrame := mkRaw {
  columns : nat;
  leading_cols : nat;
  raw_records : list (list string)
}.

(** The number of fields the parser expects of each record: that of the
    header, or of the first data record when it has more. *)
Definition table_width (header : list string) (data : list (list string)) : nat :=
  match data with
  | [] => length header
  | first :: _ => Nat.max (length header) (length first)
  end.

(** [pd.read_csv(file_path, header=1)] on the table's records: the first
    record is skipped, the second names the columns. The fields that the
    first data record has beyond the header make its leading fields the
    index of the frame; a shorter record is padded with missing cells, and
    a record with more fields than expected stops the parser. *)
Definition read_csv (records : list (list string)) : result RawFrame :=
  match records with
  | _ :: header :: data =>
      let width := table_width header data in
      if forallb (fun r => (length r <=? width)%nat) data
      then Ok (mkRaw (length header) (width - length header) data)
      else Raise ParserError
  | _ => Raise ParserError
  end.

(** [df_raw.iloc[:, [3, 4]]]: the cells of the columns at positions 3 and
    4, which follow the index fields in each record. *)
Definition iloc_3_4 (df_raw : RawFrame)
  : result (list (option string * option string)) :=
  if (5 <=? columns df_raw)%nat
  then Ok (map (fun r => (r !! (leading_cols df_raw + 3)%nat,
                          r !! (leading_cols df_raw + 4)%nat))
               (raw_records df_raw))
  else Raise IndexError.

Section Loader.

(** [pd.to_numeric(..., errors='coerce')] on one string: its float, or
    [None] (NaN) when the string is not a number. *)
Variable to_numeric : string -> option Q.

(** [decimal_year_to_date] outside the nanosecond range, see [Normalizer]. *)
Variable other_years : Q -> option Z.

Definition coerce (c : option string) : option Q := c ≫= to_numeric.

(** Lines 34-39: the two coerced columns and the filled column. *)
Definition filled_columns (sel : list (option string * option string))
  : list (option Q * option Q * option Q) :=
  let date_decimal := map (fun c => coerce (fst c)) sel in
  let co2_raw := map (fun c => coerce (snd c)) sel in
  let co2 := fill_co2 co2_raw in
  zip (zip date_decimal co2_raw) co2.

(** Line 43: [dropna(subset=['Date_Decimal', 'CO2_ppm'])]. *)
Definition dropna (rows : list (option Q * option Q * option Q))
  : list (Q * option Q * Q) :=
  omap (fun r =>
          match r with
          | (Some d, raw, Some c) => Some (d, raw, c)
          | _ => None
          end) rows.

(** Line 47: the [Date] column; one failing conversion fails the load. *)
Definition add_dates (rows : list (Q * option Q * Q)) : result (list Row) :=
  match mapM (fun r : Q * option Q * Q =>
                let '(d, raw, c) := r in
                date ← decimal_year_to_date other_years d;
                Some (mkRow d raw c date)) rows with
  | Some df => Ok df
  | None => Raise DateError
  end.

(** The cleaned frame, lines 22-47. *)
Definition cleaned_frame (records : list (list string)) : result (list Row) :=
  match read_csv records with
  | Raise e => Raise e
  | Ok df_raw =>
      match iloc_3_4 df_raw with
      | Raise e => Raise e
      | Ok sel => add_dates (dropna (filled_columns sel))
      end
  end.

(** [load_and_prep_data], lines 15-53. The message printed at line 52
    formats the least and the greatest label of the series; on an empty
    index they are [NaT], which refuses [strftime]. *)
Definition load_and_prep_data (records : list (list string))
  : result (Series * list Row) :=
  match cleaned_frame records with
  | Raise e => Raise e
  | Ok df =>
      match asfreq_MS (map (fun r => (Date r, Some (CO2_ppm r))) df) with
      | Raise e => Raise e
      | Ok ts =>
          match ts with
          | [] => Raise (ValueError "NaTType does not support strftime")
          | _ => Ok (ts, df)
          end
      end
  end.

End Loader.

(** Number of distinct calendar months among the dates of a frame. *)
Definition distinct_months (df : list Row) : nat :=
  length (remove_dups (map (fun r => month_index (civil_from_days (Date r))) df)).

(** *** Reading decimal literals *)

Definition digit_of (c : ascii) : option Z :=
  let n := Z.of_nat (nat_of_ascii c) in
  if (48 <=? n) && (n <=? 57) then Some (n - 48) else None.

(** Digits read left to right into [acc]; [None] on any other character. *)
Fixpoint read_digits (s : string) (acc : Z) : option Z :=
  match s with
  | EmptyString => Some acc
  | String c r => d ← digit_of c; read_digits r (10 * acc + d)
  end.

Fixpoint split_dot (s : string) : string * option string :=
  match s with
  | EmptyString => (EmptyString, None)
  | String c r =>
      if Ascii.eqb c "." then (EmptyString, Some r)
      else let '(a, b) := split_dot r in (String c a, b)
  end.

(** The value of digits with at most one point, such as ["1960.042"]. *)
Definition parse_unsigned (s : string) : option Q :=
  let '(ip, fp) := split_dot s in
  match fp with
  | None =>
      if String.eqb ip "" then None else n ← read_digits ip 0; Some (inject_Z n)
  | Some f =>
      if String.eqb ip "" && String.eqb f "" then None
      else
        n ← read_digits (ip ++ f) 0;
        Some (Qmake n (Z.to_pos (10 ^ Z.of_nat (String.length f))))
  end.

(** A leading sign, and what follows it. *)
Definition parse_sign (s : string) : bool * string :=
  match s with
  | String "-" r => (true, r)
  | String "+" r => (false, r)
  | _ => (false, s)
  end.

(** The part before the first [e] or [E], and the part after it. *)
Fixpoint split_exponent (s : string) : string * option string :=
  match s with
  | EmptyString => (EmptyString, None)
  | String c r =>
      if Ascii.eqb c "e" || Ascii.eqb c "E" then (EmptyString, Some r)
      else let '(a, b) := split_exponent r in (String c a, b)
  end.

Definition parse_exponent (s : string) : option Z :=
  let '(neg, ds) := parse_sign s in
  if String.eqb ds "" then None
  else n ← read_digits ds 0; Some (if neg then - n else n).

(** Blanks, as C's [isspace] has them. *)
Definition is_blank (c : ascii) : bool :=
  let n := nat_of_ascii c in
  (n =? 32)%nat || ((9 <=? n)%nat && (n <=? 13)%nat).

Fixpoint skip_blanks (s : string) : string :=
  match s with
  | String c r => if is_blank c then skip_blanks r else s
  | EmptyString => EmptyString
  end.

Fixpoint drop_trailing_blanks (s : string) : string :=
  match s with
  | EmptyString => EmptyString
  | String c r =>
      let r' := drop_trailing_blanks r in
      if is_blank c && String.eqb r' "" then EmptyString else String c r'
  end.

(** The value of a decimal literal: an optional sign, digits with at most
    one point, and an optional power of ten, such as ["1960.042"],
    ["-99.99"] or ["1e3"], with or without blanks around it. A string that
    holds anything else is not a number (the spellings of infinity, which
    has no rational value, are left out). *)
Definition parse_decimal (s : string) : option Q :=
  let '(neg, body) := parse_sign (drop_trailing_blanks (skip_blanks s)) in
  let '(mantissa, ex) := split_exponent body in
  m ← parse_unsigned mantissa;
  e ← match ex with
      | None => Some 0
      | Some x => parse_exponent x
      end;
  Some ((if neg then - m else m) * 10 ^ e)%Q.

(** [pd.to_numeric] on such a literal: the binary64 value nearest to it. *)
Definition to_numeric_decimal (s : string) : option Q :=
  binary64 <$> parse_decimal s.

End DataPrep.

(** ** src/main.py *)

Module Service.
Import Calendar.

Local Open Scope string_scope.

(** *** Date formatting *)

Definition digit (n : Z) : ascii := ascii_of_nat (Z.to_nat (48 + n mod 10)).

Definition pad2 (n : Z) : string :=
  String (digit (n / 10)) (String (digit n) "").

Definition pad4 (n : Z) : string :=
  String (digit (n / 1000)) (String (digit (n / 100)) (pad2 n)).

(** The decimal digits of [n >= 0] before [acc], without leading zeros;
    the fuel is the number of digits after the first. *)
Fixpoint digits_before (fuel : nat) (n : Z) (acc : string) : string :=
  let acc' := String (digit n) acc in
  match fuel with
  | O => acc'
  | S f => if (n <? 10)%Z then acc' else digits_before f (n / 10) acc'
  end.

(** [%Y]: the year in decimal, as many digits as it has. *)
Definition format_year (y : Z) : string :=
  if (y <? 0)%Z then String "-" (digits_before (Z.to_nat (Z.log2 (- y))) (- y) "")
  else digits_before (Z.to_nat (Z.log2 y)) y "".

(** [Timestamp.strftime] formats through Python's [datetime], which holds
    the years 1 to 9999; on another year it raises. *)
Definition strftime_supported (d : Z) : bool :=
  let y := year (civil_from_days d) in (1 <=? y)%Z && (y <=? 9999)%Z.

Definition STRFTIME_UNSUPPORTED : string :=
  "strftime not yet supported on Timestamps which are outside the range of Python's standard library. For now, please call the components you need (such as `.year` and `.month`) and construct your string from there.".

(** [Timestamp.strftime('%Y-%m-%d')] on a supported date: month and day
    have two digits, the year is not padded. *)
Definition strftime_ymd (d : Z) : string :=
  let c := civil_from_days d in
  format_year (year c) ++ "-" ++ pad2 (month c) ++ "-" ++ pad2 (day c).

(** *** Schemas *)

(** The JSON body of [POST /forecast], as far as [ForecastQuery] reads it:
    the integer under ["steps"], when the field is there. *)
Record ForecastBody := mkBody { body_steps : option Z }.

Record ForecastQuery := mkQuery { steps : Z }.

(** [steps: int = 12]: the field's value, 12 without the field. *)
Definition ForecastQuery_validate (b : ForecastBody) : ForecastQuery :=
  mkQuery (default 12 (body_steps b)).

Record ForecastResult := mkResult {
  forecast_start_date : string;
  forecast_end_date : string;
  predictions : gmap string Q
}.

(** *** The model and the application state *)

(** The fitted model, seen through the one call the service makes:
    [get_forecast(steps=n).predicted_mean] yields the items of the
    predicted series (day number of the date, value), or raises an
    exception with a message. *)
Record FittedModel := mkModel {
  predicted_mean : Z -> string + list (Z * Q)
}.

Record App := mkApp { model_fit : option FittedModel }.

(** [model_fit = None] at import. *)
Definition app_init : App := mkApp None.

(** Startup, lines 33-43: [joblib.load] yields the model or raises. *)
Definition load_model (joblib_load : string + FittedModel) (a : App)
  : string + App :=
  match joblib_load with
  | inr m => inr (mkApp (Some m))
  | inl _ => inl "Failed to load model on startup."
  end.

(** [GET /], lines 47-50. *)
Definition read_root (a : App) : string * bool :=
  ("Model service running", bool_decide (is_Some (model_fit a))).

Inductive response : Type :=
  | Success (r : ForecastResult)
  | HTTPException (status_code : Z) (detail : string).

(** [round(value, 2)] on a Python float, which [Series.items] yields: the
    multiple of 1/100 nearest to the exact value of the float, the even
    multiple on a tie, as the float nearest to it. *)
Definition round2 (value : Q) : Q :=
  DataPrep.binary64 (inject_Z (DataPrep.Qround_half_even (value * 100)) / 100).

(** One item of the dict comprehension of lines 66-69: the formatted date
    keys the rounded value; a later item replaces an earlier one under the
    same key. *)
Definition put_prediction (acc : gmap string Q) (p : Z * Q) : gmap string Q :=
  <[strftime_ymd (fst p) := round2 (snd p)]> acc.

Definition predictions_dict (items : list (Z * Q)) : gmap string Q :=
  foldl put_prediction ∅ items.

(** Lines 62-75, once the model has answered. A date that [strftime]
    does not support stops the dict comprehension; the least and greatest
    label of an empty index are [NaT], which refuses [strftime]. *)
Definition format_forecast (items : list (Z * Q)) : string + ForecastResult :=
  match items with
  | [] => inl "NaTType does not support strftime"
  | _ =>
      if forallb (fun p => strftime_supported (fst p)) items then
        let idx := map fst items in
        inr (mkResult (strftime_ymd (DataPrep.index_min idx))
                      (strftime_ymd (DataPrep.index_max idx))
                      (predictions_dict items))
      else inl STRFTIME_UNSUPPORTED
  end.

(** [POST /forecast], lines 52-78. The first component lists the calls
    made to the model, each by its [steps] argument. *)
Definition get_forecast (a : App) (query : ForecastQuery) : list Z * response :=
  match model_fit a with
  | None => ([], HTTPException 503 "Model is not loaded or ready.")
  | Some m =>
      ([steps query],
       match predicted_mean m (steps query) with
       | inl e => HTTPException 500 ("Prediction error: " ++ e)
       | inr items =>
           match format_forecast items with
           | inl e => HTTPException 500 ("Prediction error: " ++ e)
           | inr r => Success r
           end
       end)
  end.

End Service.

(** ** Inputs used in the examples below *)

Module Samples.
Import DataPrep Service.

Local Open Scope string_scope.

(** An instance of what [decimal_year_to_date] does outside the nanosecond
    range: it raises. The tables below hold years inside the range, where
    the instance is not consulted. *)
Definition raises_elsewhere : Q -> option Z := fun _ => None.

Definition title_row : list string := ["Monthly flask CO2 at Mauna Loa"].
Definition header_row : list string := ["Yr"; "Mn"; "Date"; "Date"; "CO2"].

(** One data row, dated mid-January 1960. *)
Definition table_single : list (list string) :=
  [title_row; header_row; ["1960"; "01"; "21930"; "1960.042"; "316.97"]].

(** Two rows whose dates fall on 1960-01-01 and 1960-04-01. *)
Definition table_quarter : list (list string) :=
  [title_row; header_row;
   ["1960"; "01"; "21915"; "1960.0"; "316.97"];
   ["1960"; "04"; "22006"; "1960.25"; "317.5"]].

(** Three rows dated mid-month, as the data file has them. *)
Definition table_mid_month : list (list string) :=
  [title_row; header_row;
   ["1960"; "01"; "21930"; "1960.042"; "316.97"];
   ["1960"; "02"; "21961"; "1960.126"; "317.75"];
   ["1960"; "03"; "21990"; "1960.205"; "318.32"]].

Definition items_two_months : list (Z * Q) :=
  [(Calendar.days_from_civil 2023 1 1, binary64 421.236);
   (Calendar.days_from_civil 2023 2 1, binary64 422.004)].

(** A model that forecasts two months from 2023-01-01 and rejects a horizon
    below one. *)
Definition model_two_months : FittedModel :=
  mkModel (fun n =>
             if (n <? 1)%Z
             then inl "Prediction must have `end` after `start`."
             else inr items_two_months).

Definition forecast_two_months : ForecastResult :=
  mkResult "2023-01-01" "2023-02-01" (predictions_dict items_two_months).

(** The frame and the series that [table_quarter] loads to. *)
Definition frame_quarter : list Row :=
  [mkRow (binary64 1960.0) (Some (binary64 316.97)) (binary64 316.97)
         (Calendar.days_from_civil 1960 1 1);
   mkRow (binary64 1960.25) (Some (binary64 317.5)) (binary64 317.5)
         (Calendar.days_from_civil 1960 4 1)].

Definition series_quarter : Series :=
  [(Calendar.days_from_civil 1960 1 1, Some (binary64 316.97));
   (Calendar.days_from_civil 1960 2 1, None);
   (Calendar.days_from_civil 1960 3 1, None);
   (Calendar.days_from_civil 1960 4 1, Some (binary64 317.5))].

End Samples.

(** ** src/model_train.py, and the startup of src/main.py on the same disk *)

Module Training.
Import DataPrep Service.

Local Open Scope string_scope.

Definition MODEL_PATH : string := "sarima_model.joblib".
Definition DATA_FILE : string := "monthly_flask_co2_mlo.csv".

(** What [joblib.load] finds at a path: a model that [joblib.dump] wrote,
    or content that it cannot read, with the message of the exception. *)
Inductive artifact : Type :=
  | Dumped (model : FittedModel)
  | Unreadable (msg : string).

(** The files the two programs touch, by path: tables in CSV form and
    [joblib] artifacts. *)
Record Disk := mkDisk {
  tables : gmap string (list (list string));
  artifacts : gmap string artifact
}.

(** The keyword arguments of [SARIMAX(...)], lines 18-25. *)
Record SARIMAX_args := mkArgs {
  order : Z * Z * Z;
  seasonal_order : Z * Z * Z * Z;
  enforce_stationarity : bool;
  enforce_invertibility : bool;
  initialization : string
}.

Definition sarimax_args : SARIMAX_args :=
  mkArgs (0, 1, 1)%Z (0, 1, 1, 12)%Z false false "approximate_diffuse".

Inductive train_error : Type :=
  | FileNotFoundError (path : string)
  | DataError (e : error)
  | FitError (msg : string).

Section Train.

Variable to_numeric : string -> option Q.
Variable other_years : Q -> option Z.

(** [SARIMAX(ts, ...).fit(disp=False)]: the fitted model, or the message of
    the exception raised. *)
Variable sarimax_fit : SARIMAX_args -> Series -> string + FittedModel.

(** [train_and_save_model], lines 9-31: load, fit, dump. *)
Definition train_and_save_model (disk : Disk) : train_error + Disk :=
  match tables disk !! DATA_FILE with
  | None => inl (FileNotFoundError DATA_FILE)
  | Some records =>
      match load_and_prep_data to_numeric other_years records with
      | Raise e => inl (DataError e)
      | Ok (ts, _) =>
          match sarimax_fit sarimax_args ts with
          | inl msg => inl (FitError msg)
          | inr model_fit =>
              inr (mkDisk (tables disk)
                          (<[MODEL_PATH := Dumped model_fit]> (artifacts disk)))
          end
      end
  end.

End Train.

(** [MODEL_PATH] of src/main.py, line 9. *)
Definition SERVICE_MODEL_PATH : string := "sarima_model.joblib".

(** [joblib.load(path)]. *)
Definition joblib_load (disk : Disk) (path : string) : string + FittedModel :=
  match artifacts disk !! path with
  | Some (Dumped m) => inr m
  | Some (Unreadable msg) => inl msg
  | None => inl ("[Errno 2] No such file or directory: " ++ path)
  end.

(** The startup event of src/main.py, lines 33-43, on a disk. *)
Definition startup (disk : Disk) (a : App) : string + App :=
  load_model (joblib_load disk SERVICE_MODEL_PATH) a.

End Training.

(** ** More inputs for the examples *)

Module MoreSamples.
Import DataPrep Service Training.

Local Open Scope string_scope.

(** A table of three columns. *)
Definition table_narrow : list (list string) :=
  [Samples.title_row; ["Yr"; "Mn"; "CO2"]; ["1960"; "01"; "316.97"]].


(** A table with a year of five digits in a record without a reading. *)
Definition table_year_10000 : list (list string) :=
  [Samples.title_row; Samples.header_row;
   ["1960"; "01"; "21930"; "1960.042"; "316.97"];
   ["10000"; "07"; "0"; "10000.5"; ""]].

(** A record with a reading and no usable date, then a dated record
    without a reading. *)
Definition record_bad_date : list string :=
  ["1960"; "01"; "21930"; "n/a"; "316.97"].
Definition record_no_reading : list string :=
  ["1960"; "02"; "21961"; "1960.125"; ""].

Definition table_bad_date : list (list string) :=
  [Samples.title_row; Samples.header_row; record_bad_date; record_no_reading].

Definition frame_bad_date : list Row :=
  [mkRow (binary64 1960.125) None (binary64 316.97)
         (Calendar.days_from_civil 1960 2 16)].

(** The quarter table with a station code before the five named fields of
    each record: the code is the index of the frame. *)
Definition table_indexed : list (list string) :=
  [Samples.title_row; Samples.header_row;
   ["MLO"; "1960"; "01"; "21915"; "1960.0"; "316.97"];
   ["MLO"; "1960"; "04"; "22006"; "1960.25"; "317.5"]].




Definition frame_mid_month : list Row :=
  [mkRow (binary64 1960.042) (Some (binary64 316.97)) (binary64 316.97)
         (Calendar.days_from_civil 1960 1 16);
   mkRow (binary64 1960.126) (Some (binary64 317.75)) (binary64 317.75)
         (Calendar.days_from_civil 1960 2 16);
   mkRow (binary64 1960.205) (Some (binary64 318.32)) (binary64 318.32)
         (Calendar.days_from_civil 1960 3 16)].

Definition series_mid_month : Series :=
  [(Calendar.days_from_civil 1960 2 1, None);
   (Calendar.days_from_civil 1960 3 1, None)].

(** A disk with the quarter table as the data file, and a fit that answers
    with the two-month model whatever the series. *)
Definition disk_quarter : Disk :=
  mkDisk {[ DATA_FILE := Samples.table_quarter ]} ∅.

Definition disk_mid_month : Disk :=
  mkDisk {[ DATA_FILE := Samples.table_mid_month ]} ∅.

Definition fit_two_months (_ : SARIMAX_args) (_ : Series) : string + FittedModel :=
  inr Samples.model_two_months.

(** A disk with the two-month model dumped at the model path, and one with
    a file there that is no pickle. *)
Definition disk_model : Disk :=
  mkDisk ∅ {[ SERVICE_MODEL_PATH := Dumped Samples.model_two_months ]}.

Definition disk_corrupt : Disk :=
  mkDisk ∅ {[ SERVICE_MODEL_PATH := Unreadable "invalid load key, 'x'." ]}.

End MoreSamples.

(** * Facts *)

(** ** The calendar *)

Module CalendarFacts.
Import Calendar.

(** Decide the conditions of a definition once its month is a literal. *)
Ltac eval_ifs :=
  repeat match goal with
  | |- context [if ?b then _ else _] =>
      let b' := eval vm_compute in b in
      progress change b with b'; cbv iota
  end.

Ltac div_lia := Z.div_mod_to_equations; lia.

Lemma year_of_era_spec yoe doy :
  0 <= yoe < 400 -> 0 <= doy <= 364 ->
  let doe := yoe * 365 + yoe / 4 - yoe / 100 + doy in
  (doe - doe / 1460 + doe / 36524 - doe / 146096) / 365 = yoe.
Proof. intros Hy Hd doe. subst doe. div_lia. Qed.

Lemma day_of_year_spec m d :
  1 <= m <= 12 -> 1 <= d <= 28 ->
  let mp := if m >? 2 then m - 3 else m + 9 in
  let doy := (153 * mp + 2) / 5 + d - 1 in
  0 <= mp <= 11 /\ 0 <= doy <= 364 /\ (5 * doy + 2) / 153 = mp /\
  doy - (153 * mp + 2) / 5 + 1 = d.
Proof.
  intros Hm Hd mp doy. subst doy mp.
  destruct (Z.gtb_spec m 2); div_lia.
Qed.

(** A date up to the 28th is recovered from its day number. *)
Lemma civil_from_days_from_civil y m d :
  1 <= m <= 12 -> 1 <= d <= 28 ->
  civil_from_days (days_from_civil y m d) = mkdate y m d.
Proof.
  intros Hm Hd. unfold civil_from_days, days_from_civil.
  set (y' := if m <=? 2 then y - 1 else y).
  set (era := y' / 400).
  set (yoe := y' - era * 400).
  set (mp := if m >? 2 then m - 3 else m + 9).
  set (doy := (153 * mp + 2) / 5 + d - 1).
  destruct (day_of_year_spec m d Hm Hd) as (Hmp & Hdoy & Hmp' & Hd').
  fold mp in Hmp, Hdoy, Hmp', Hd'. fold doy in Hdoy, Hmp', Hd'.
  assert (Hyoe : 0 <= yoe < 400) by (subst yoe era; div_lia).
  pose proof (year_of_era_spec yoe doy Hyoe Hdoy) as Hy. cbv zeta in Hy.
  set (doe := yoe * 365 + yoe / 4 - yoe / 100 + doy) in *.
  assert (Hdoe : 0 <= doe < 146097) by (subst doe; div_lia).
  cbv zeta.
  replace (era * 146097 + doe - 719468 + 719468) with (doe + era * 146097) by lia.
  rewrite Z.div_add, Z_mod_plus_full by lia.
  rewrite (Z.div_small doe), (Z.mod_small doe) by lia. cbn [Z.add].
  unfold civil_of_era. rewrite Hy.
  replace (doe - (365 * yoe + yoe / 4 - yoe / 100)) with doy by (subst doe; lia).
  rewrite Hmp', Hd'.
  assert (Hm' : (if mp <? 10 then mp + 3 else mp - 9) = m).
  { unfold mp. destruct (m >? 2) eqn:E1;
      [destruct (m - 3 <? 10) eqn:E2 | destruct (m + 9 <? 10) eqn:E2]; lia. }
  rewrite Hm'. f_equal.
  subst yoe era y'. destruct (Z.leb_spec m 2); lia.
Qed.

Lemma year_of_era_bounds doe :
  0 <= doe < 146097 ->
  let yoe := (doe - doe / 1460 + doe / 36524 - doe / 146096) / 365 in
  let doy := doe - (365 * yoe + yoe / 4 - yoe / 100) in
  0 <= yoe < 400 /\ 0 <= doy <= 365.
Proof. intros H yoe doy. subst doy yoe. div_lia. Qed.

Lemma month_of_day_bounds doy :
  0 <= doy <= 365 ->
  let mp := (5 * doy + 2) / 153 in
  let d := doy - (153 * mp + 2) / 5 + 1 in
  0 <= mp <= 11 /\ 1 <= d <= 31.
Proof. intros H mp d. subst d mp. div_lia. Qed.

(** Every day number is the day number of its civil date. *)
Lemma civil_from_days_spec z :
  let c := civil_from_days z in
  1 <= month c <= 12 /\ 1 <= day c <= 31 /\
  days_from_civil (year c) (month c) (day c) = z.
Proof.
  unfold civil_from_days. cbv zeta.
  set (z' := z + 719468).
  assert (Hdoe : 0 <= z' mod 146097 < 146097) by (apply Z.mod_pos_bound; lia).
  pose proof (Z.div_mod z' 146097 ltac:(lia)) as Hz.
  set (era := z' / 146097) in *. set (doe := z' mod 146097) in *.
  unfold civil_of_era.
  destruct (year_of_era_bounds doe Hdoe) as [Hyoe Hdoy]. cbv zeta in Hyoe, Hdoy.
  set (yoe := (doe - doe / 1460 + doe / 36524 - doe / 146096) / 365) in *.
  set (doy := doe - (365 * yoe + yoe / 4 - yoe / 100)) in *.
  destruct (month_of_day_bounds doy Hdoy) as [Hmp Hd]. cbv zeta in Hmp, Hd.
  set (mp := (5 * doy + 2) / 153) in *.
  set (d := doy - (153 * mp + 2) / 5 + 1) in *.
  set (m := if mp <? 10 then mp + 3 else mp - 9).
  cbn [year month day].
  assert (Hm : 1 <= m <= 12 /\ (if m >? 2 then m - 3 else m + 9) = mp).
  { unfold m. destruct (mp <? 10) eqn:E1;
      [destruct (mp + 3 >? 2) eqn:E2 | destruct (mp - 9 >? 2) eqn:E2]; lia. }
  destruct Hm as [Hm Hmp'].
  split; [exact Hm|]. split; [exact Hd|].
  unfold days_from_civil. fold m. rewrite Hmp'.
  assert (Hy : (if m <=? 2
                then (if m <=? 2 then yoe + era * 400 + 1 else yoe + era * 400) - 1
                else (if m <=? 2 then yoe + era * 400 + 1 else yoe + era * 400))
               = yoe + era * 400)
    by (destruct (m <=? 2); lia).
  rewrite Hy.
  rewrite Z.div_add, (Z.div_small yoe) by lia. rewrite Z.add_0_l.
  replace (yoe + era * 400 - era * 400) with yoe by lia.
  replace ((153 * mp + 2) / 5 + d - 1) with doy by (unfold d; lia).
  unfold doy, z' in *. lia.
Qed.

Lemma days_from_civil_day y m d :
  days_from_civil y m d = days_from_civil y m 1 + (d - 1).
Proof. unfold days_from_civil. lia. Qed.

Lemma days_from_civil_next_month y m :
  1 <= m <= 11 ->
  28 <= days_from_civil y (m + 1) 1 - days_from_civil y m 1 <= 31.
Proof.
  intros Hm. unfold days_from_civil.
  assert (m = 1 \/ m = 2 \/ m = 3 \/ m = 4 \/ m = 5 \/ m = 6 \/ m = 7 \/
          m = 8 \/ m = 9 \/ m = 10 \/ m = 11) as Hc by lia.
  destruct Hc as [->|[->|[->|[->|[->|[->|[->|[->|[->|[->| ->]]]]]]]]]];
    eval_ifs; div_lia.
Qed.

Lemma days_from_civil_december y :
  days_from_civil (y + 1) 1 1 - days_from_civil y 12 1 = 31.
Proof.
  unfold days_from_civil. eval_ifs. replace (y + 1 - 1) with y by lia. div_lia.
Qed.

(** A year has 365 or 366 days. *)
Lemma days_from_civil_next_year y :
  365 <= days_from_civil (y + 1) 1 1 - days_from_civil y 1 1 <= 366.
Proof.
  unfold days_from_civil. eval_ifs. replace (y + 1 - 1) with y by lia. div_lia.
Qed.

Lemma january_first_bounds (y : Z) :
  1678 <= y <= 2262 -> -106650 <= days_from_civil y 1 1 <= 106651.
Proof.
  intros Hy. unfold days_from_civil. eval_ifs.
  change ((153 * (1 + 9) + 2) / 5 + 1 - 1) with 306. div_lia.
Qed.

Lemma month_parts k : 1 <= k mod 12 + 1 <= 12 /\ k = 12 * (k / 12) + k mod 12.
Proof. div_lia. Qed.

Lemma civil_month_start k :
  civil_from_days (month_start k) = mkdate (k / 12) (k mod 12 + 1) 1.
Proof.
  unfold month_start. apply civil_from_days_from_civil; [|lia].
  apply month_parts.
Qed.

Lemma month_index_month_start k :
  month_index (civil_from_days (month_start k)) = k.
Proof.
  rewrite civil_month_start. unfold month_index. cbn [year month]. div_lia.
Qed.

Lemma is_month_start_month_start k : is_month_start (month_start k) = true.
Proof. unfold is_month_start. now rewrite civil_month_start. Qed.

Lemma month_start_step k : 28 <= month_start (k + 1) - month_start k <= 31.
Proof.
  unfold month_start.
  assert (Hc : k mod 12 = 11 \/ k mod 12 < 11) by div_lia.
  destruct Hc as [Hc|Hc].
  - assert ((k + 1) mod 12 = 0 /\ (k + 1) / 12 = k / 12 + 1) as [-> ->] by div_lia.
    rewrite Hc. pose proof (days_from_civil_december (k / 12)).
    change (0 + 1) with 1. change (11 + 1) with 12. lia.
  - assert ((k + 1) mod 12 = k mod 12 + 1 /\ (k + 1) / 12 = k / 12) as [-> ->] by div_lia.
    apply days_from_civil_next_month. div_lia.
Qed.

Lemma month_start_add k (n : nat) :
  month_start k + 28 * Z.of_nat n <= month_start (k + Z.of_nat n).
Proof.
  induction n as [|n IH].
  - replace (k + Z.of_nat 0) with k by lia. lia.
  - replace (k + Z.of_nat (S n)) with (k + Z.of_nat n + 1) by lia.
    pose proof (month_start_step (k + Z.of_nat n)). lia.
Qed.

Lemma month_start_lt j k : j < k -> month_start j < month_start k.
Proof.
  intros H. pose proof (month_start_add j (Z.to_nat (k - j))) as Ha.
  rewrite Z2Nat.id in Ha by lia. replace (j + (k - j)) with k in Ha by lia. lia.
Qed.

Lemma month_start_le j k : j <= k -> month_start j <= month_start k.
Proof.
  intros H. destruct (Z.eq_dec j k) as [->|Hne]; [lia|].
  pose proof (month_start_lt j k). lia.
Qed.

(** A day number is its month's first day plus the day of the month. *)
Lemma month_start_of_day d :
  let c := civil_from_days d in
  d = month_start (month_index c) + (day c - 1).
Proof.
  cbv zeta. destruct (civil_from_days_spec d) as (Hm & Hd & Hz). cbv zeta in *.
  set (c := civil_from_days d) in *.
  unfold month_start, month_index.
  assert ((12 * year c + (month c - 1)) / 12 = year c /\
          (12 * year c + (month c - 1)) mod 12 + 1 = month c) as [-> ->] by div_lia.
  rewrite <- days_from_civil_day. now rewrite Hz.
Qed.

Lemma is_month_start_spec d :
  is_month_start d = true <-> d = month_start (month_index (civil_from_days d)).
Proof.
  pose proof (month_start_of_day d) as H. cbv zeta in H.
  unfold is_month_start. split.
  - intros E. apply Z.eqb_eq in E. lia.
  - intros E. apply Z.eqb_eq. lia.
Qed.

(** A day lies in its own month. *)
Lemma day_in_its_month d :
  let k := month_index (civil_from_days d) in
  month_start k <= d < month_start (k + 1).
Proof.
  cbv zeta. pose proof (month_start_of_day d) as H. cbv zeta in H.
  destruct (civil_from_days_spec d) as (Hm & Hd & _). cbv zeta in *.
  set (k := month_index (civil_from_days d)) in *.
  set (e := day (civil_from_days d)) in *.
  split; [lia|].
  destruct (Z_lt_le_dec d (month_start (k + 1))) as [Hlt|Hge]; [exact Hlt|exfalso].
  pose proof (month_start_step k) as Hs.
  set (x := d - month_start (k + 1)).
  assert (Hx : 0 <= x <= 2) by (unfold x; lia).
  assert (Hd' : d = days_from_civil ((k + 1) / 12) ((k + 1) mod 12 + 1) (1 + x)).
  { rewrite days_from_civil_day. fold (month_start (k + 1)). unfold x. lia. }
  assert (Hk : month_index (civil_from_days d) = k + 1).
  { rewrite Hd'. rewrite civil_from_days_from_civil; [|apply month_parts | lia].
    unfold month_index. cbn [year month]. div_lia. }
  fold k in Hk. lia.
Qed.

Lemma month_start_le_iff k d :
  month_start k <= d <-> k <= month_index (civil_from_days d).
Proof.
  pose proof (day_in_its_month d) as H. cbv zeta in H.
  set (j := month_index (civil_from_days d)) in *. split.
  - intros Hle. destruct (Z_le_gt_dec k j) as [?|Hgt]; [assumption|exfalso].
    pose proof (month_start_le (j + 1) k ltac:(lia)). lia.
  - intros Hle. pose proof (month_start_le k j Hle). lia.
Qed.

End CalendarFacts.

(** ** The date normalizer *)

Module NormalizerFacts.
Import Calendar CalendarFacts DataPrep.

Lemma Qtrunc_nonneg q : (0 <= q)%Q -> Qtrunc q = Qfloor q.
Proof.
  destruct q as [n d]. unfold Qle, Qtrunc, Qfloor. cbn. intros H.
  apply Z.quot_div_nonneg; lia.
Qed.

Lemma Qfloor_bounds q (a b : Z) :
  (inject_Z a <= q)%Q -> (q < inject_Z b + 1)%Q -> a <= Qfloor q <= b.
Proof.
  intros Ha Hb. split.
  - rewrite <- (Qfloor_Z a). now apply Qfloor_resp_le.
  - pose proof (Qfloor_le q) as H.
    assert (Hlt : (inject_Z (Qfloor q) < inject_Z (b + 1))%Q).
    { rewrite inject_Z_plus. eapply Qle_lt_trans; eauto. }
    rewrite <- Zlt_Qlt in Hlt. lia.
Qed.

Lemma Qround_half_even_bounds q (a b : Z) :
  (inject_Z a <= q <= inject_Z b)%Q -> a <= Qround_half_even q <= b.
Proof.
  intros [Ha Hb]. unfold Qround_half_even.
  pose proof (Qfloor_le q) as Hf. pose proof (Qlt_floor q) as Hc.
  assert (Hfa : a <= Qfloor q).
  { rewrite <- (Qfloor_Z a). now apply Qfloor_resp_le. }
  assert (Hfb : Qfloor q <= b).
  { rewrite <- (Qfloor_Z b). now apply Qfloor_resp_le. }
  set (f := Qfloor q) in *.
  assert (Hcase : f < b \/ q == inject_Z f).
  { destruct (Z.eq_dec f b) as [E|E]; [right|left; lia].
    apply Qle_antisym; [rewrite E; exact Hb | exact Hf]. }
  destruct (Qcompare_spec (q - inject_Z f) (1 # 2)) as [E|E|E].
  - destruct (Z.even f); [lia|].
    destruct Hcase as [?|Hq]; [lia|]. rewrite Hq in E. exfalso. revert E.
    unfold Qeq, Qminus, Qplus, Qopp, inject_Z; cbn. lia.
  - lia.
  - destruct Hcase as [?|Hq]; [lia|]. rewrite Hq in E. exfalso. revert E.
    unfold Qlt, Qminus, Qplus, Qopp, inject_Z; cbn. lia.
Qed.

(** *** Rounding to binary64 *)

Lemma two_neq_0 : ~ (2 == 0)%Q.
Proof. discriminate. Qed.

Lemma pow2_pos (s : Z) : (0 < 2 ^ s)%Q.
Proof. apply Qpower_0_lt. reflexivity. Qed.

Lemma pow2_add (a b : Z) : (2 ^ (a + b) == 2 ^ a * 2 ^ b)%Q.
Proof. apply Qpower_plus, two_neq_0. Qed.

Lemma pow2_le (a b : Z) : a <= b -> (2 ^ a <= 2 ^ b)%Q.
Proof. intros H. apply Qpower_le_compat_l; [exact H | discriminate]. Qed.

Lemma pow2_lt_inv (a b : Z) : (2 ^ a < 2 ^ b)%Q -> a < b.
Proof. intros H. apply (Qpower_lt_compat_l_inv 2); [exact H | reflexivity]. Qed.

Lemma pow2_inject (n : Z) : 0 <= n -> (inject_Z (2 ^ n) == 2 ^ n)%Q.
Proof. intros H. now rewrite Zpower_Qpower. Qed.

Lemma pow2_cancel (s : Z) : (2 ^ (- s) * 2 ^ s == 1)%Q.
Proof. rewrite <- pow2_add. replace (- s + s) with 0 by lia. reflexivity. Qed.

(** [ilog2 q] is the binary exponent of a positive [q]. *)
Lemma ilog2_spec (q : Q) :
  (0 < q)%Q -> (2 ^ ilog2 q <= q < 2 ^ (ilog2 q + 1))%Q.
Proof.
  intros Hq. destruct q as [n d]. unfold ilog2. cbn [Qnum Qden].
  assert (Hn : 0 < n) by (unfold Qlt in Hq; cbn in Hq; lia).
  pose proof (Z.log2_spec n Hn) as [Hn1 Hn2].
  pose proof (Z.log2_spec (Z.pos d) ltac:(lia)) as [Hd1 Hd2].
  pose proof (Z.log2_nonneg n) as Hln. pose proof (Z.log2_nonneg (Z.pos d)) as Hld.
  set (ln := Z.log2 n) in *. set (ld := Z.log2 (Z.pos d)) in *.
  assert (Hq' : (n # d) * inject_Z (Z.pos d) == inject_Z n).
  { unfold Qeq, Qmult, inject_Z. cbn. lia. }
  assert (Hdpos : (0 < inject_Z (Z.pos d))%Q) by reflexivity.
  rewrite Zle_Qle in Hn1, Hd1. rewrite Zlt_Qlt in Hn2, Hd2.
  rewrite pow2_inject in Hn1, Hd1 by lia.
  rewrite pow2_inject in Hn2, Hd2 by lia.
  destruct (Qle_bool (2 ^ (ln - ld)) (n # d)) eqn:E.
  - apply Qle_bool_iff in E. split; [exact E|].
    apply (Qmult_lt_r _ _ _ Hdpos). rewrite Hq'.
    eapply Qlt_le_trans; [exact Hn2|].
    replace (Z.succ ln) with (ln - ld + 1 + ld) by lia. rewrite pow2_add.
    apply Qmult_le_l; [apply pow2_pos | exact Hd1].
  - assert (E' : (n # d < 2 ^ (ln - ld))%Q).
    { apply Qnot_le_lt. intros H. apply Qle_bool_iff in H. congruence. }
    split; [|now replace (ln - ld - 1 + 1) with (ln - ld) by lia].
    apply Qlt_le_weak. apply (Qmult_lt_r _ _ _ Hdpos). rewrite Hq'.
    eapply Qlt_le_trans; [|exact Hn1].
    replace ln with (ln - ld - 1 + Z.succ ld) at 2 by lia. rewrite pow2_add.
    apply Qmult_lt_l; [apply pow2_pos | exact Hd2].
Qed.

Lemma ilog2_mono (a b : Q) : (0 < a)%Q -> (a <= b)%Q -> ilog2 a <= ilog2 b.
Proof.
  intros Ha Hab.
  assert (Hb : (0 < b)%Q) by (eapply Qlt_le_trans; eauto).
  destruct (ilog2_spec a Ha) as [Ha1 _]. destruct (ilog2_spec b Hb) as [_ Hb2].
  destruct (Z_le_gt_dec (ilog2 a) (ilog2 b)) as [?|Hgt]; [assumption|exfalso].
  pose proof (pow2_le (ilog2 b + 1) (ilog2 a) ltac:(lia)) as H.
  lra.
Qed.

Lemma Qround_half_even_ge (q : Q) (z : Z) :
  (inject_Z z <= q)%Q -> z <= Qround_half_even q.
Proof.
  intros H. assert (Hf : z <= Qfloor q).
  { rewrite <- (Qfloor_Z z). now apply Qfloor_resp_le. }
  unfold Qround_half_even. destruct (Qcompare _ _); [destruct (Z.even _)| |]; lia.
Qed.

Lemma Qround_half_even_le (q : Q) (z : Z) :
  (q <= inject_Z z)%Q -> Qround_half_even q <= z.
Proof.
  intros H. apply (Qround_half_even_bounds q (Qfloor q) z).
  split; [apply Qfloor_le | exact H].
Qed.

Lemma Qround_half_even_mono (x y : Q) :
  (x <= y)%Q -> Qround_half_even x <= Qround_half_even y.
Proof.
  intros H. pose proof (Qfloor_resp_le x y H) as Hf.
  destruct (Z.eq_dec (Qfloor x) (Qfloor y)) as [E|E].
  - unfold Qround_half_even. rewrite <- E.
    destruct (Qcompare_spec (x - inject_Z (Qfloor x)) (1 # 2)) as [Ex|Ex|Ex];
      destruct (Qcompare_spec (y - inject_Z (Qfloor x)) (1 # 2)) as [Ey|Ey|Ey];
      try destruct (Z.even (Qfloor x)); try lia; exfalso; lra.
  - transitivity (Qfloor y).
    + apply Qround_half_even_le.
      apply Qle_trans with (inject_Z (Qfloor x + 1)).
      * apply Qlt_le_weak, Qlt_floor.
      * rewrite <- Zle_Qle. lia.
    + apply Qround_half_even_ge, Qfloor_le.
Qed.

Lemma Qround_half_even_inject (z : Z) : Qround_half_even (inject_Z z) = z.
Proof.
  apply Z.le_antisymm.
  - apply Qround_half_even_le. apply Qle_refl.
  - apply Qround_half_even_ge. apply Qle_refl.
Qed.

Lemma Qround_half_even_comp (x y : Q) :
  (x == y)%Q -> Qround_half_even x = Qround_half_even y.
Proof.
  intros H. apply Z.le_antisymm; apply Qround_half_even_mono; rewrite H; apply Qle_refl.
Qed.

Lemma round_to_precision_nonneg (q : Q) : (0 <= q)%Q -> (0 <= round_to_precision q)%Q.
Proof.
  intros Hq. unfold round_to_precision. cbv zeta.
  set (s := Z.max (ilog2 q) (-1022) - 52).
  apply Qmult_le_0_compat; [|apply Qlt_le_weak, pow2_pos].
  change 0%Q with (inject_Z 0). rewrite <- Zle_Qle.
  apply Qround_half_even_ge. change (inject_Z 0) with 0%Q.
  apply Qmult_le_0_compat; [exact Hq | apply Qlt_le_weak, pow2_pos].
Qed.

(** With exponent [e], the rounded value stays between [2^e] and [2^(e+1)]. *)
Lemma round_to_precision_upper (q : Q) (e : Z) :
  (q <= 2 ^ (e + 1))%Q -> Z.max (ilog2 q) (-1022) <= e ->
  (round_to_precision q <= 2 ^ (e + 1))%Q.
Proof.
  intros Hq He. unfold round_to_precision. cbv zeta.
  set (e' := Z.max (ilog2 q) (-1022)) in *. set (s := e' - 52).
  assert (Hm : Qround_half_even (q * 2 ^ (- s)) <= 2 ^ (e - e' + 53)).
  { apply Qround_half_even_le. rewrite pow2_inject by lia.
    replace (e - e' + 53) with (e + 1 + - s) by (unfold s; lia).
    rewrite pow2_add. apply Qmult_le_compat_r; [exact Hq|].
    apply Qlt_le_weak, pow2_pos. }
  rewrite Zle_Qle, pow2_inject in Hm by lia.
  replace (e + 1) with (e - e' + 53 + s) by (unfold s; lia).
  rewrite pow2_add. apply Qmult_le_compat_r; [exact Hm|].
  apply Qlt_le_weak, pow2_pos.
Qed.

Lemma round_to_precision_lower (q : Q) :
  (0 < q)%Q -> -1022 <= ilog2 q ->
  (2 ^ ilog2 q <= round_to_precision q)%Q.
Proof.
  intros Hq He. unfold round_to_precision. cbv zeta.
  rewrite Z.max_l by lia. set (e := ilog2 q) in *. set (s := e - 52).
  destruct (ilog2_spec q Hq) as [H1 _]. fold e in H1.
  assert (Hm : 2 ^ 52 <= Qround_half_even (q * 2 ^ (- s))).
  { apply Qround_half_even_ge. rewrite pow2_inject by lia.
    replace 52 with (e + - s) by (unfold s; lia).
    rewrite pow2_add. apply Qmult_le_compat_r; [exact H1|].
    apply Qlt_le_weak, pow2_pos. }
  rewrite Zle_Qle, pow2_inject in Hm by lia.
  replace e with (52 + s) at 1 by (unfold s; lia).
  rewrite pow2_add. apply Qmult_le_compat_r; [exact Hm|].
  apply Qlt_le_weak, pow2_pos.
Qed.

Lemma round_to_precision_mono (a b : Q) :
  (0 < a)%Q -> (a <= b)%Q -> (round_to_precision a <= round_to_precision b)%Q.
Proof.
  intros Ha Hab.
  assert (Hb : (0 < b)%Q) by (eapply Qlt_le_trans; eauto).
  pose proof (ilog2_mono a b Ha Hab) as He.
  destruct (Z.eq_dec (Z.max (ilog2 a) (-1022)) (Z.max (ilog2 b) (-1022))) as [E|E].
  - unfold round_to_precision. cbv zeta. rewrite E.
    apply Qmult_le_compat_r; [|apply Qlt_le_weak, pow2_pos].
    rewrite <- Zle_Qle. apply Qround_half_even_mono.
    apply Qmult_le_compat_r; [exact Hab | apply Qlt_le_weak, pow2_pos].
  - assert (Hlt : Z.max (ilog2 a) (-1022) < ilog2 b) by lia.
    set (e := Z.max (ilog2 a) (-1022)) in *.
    apply Qle_trans with (2 ^ (e + 1))%Q.
    + apply round_to_precision_upper; [|fold e; lia].
      destruct (ilog2_spec a Ha) as [_ H2].
      apply Qlt_le_weak. eapply Qlt_le_trans; [exact H2|].
      apply pow2_le. lia.
    + apply Qle_trans with (2 ^ ilog2 b)%Q; [apply pow2_le; lia|].
      apply round_to_precision_lower; [exact Hb | lia].
Qed.

Lemma round_to_precision_comp (a b : Q) :
  (0 < a)%Q -> (a == b)%Q -> (round_to_precision a == round_to_precision b)%Q.
Proof.
  intros Ha E. assert (Hb : (0 < b)%Q) by now rewrite <- E.
  apply Qle_antisym; apply round_to_precision_mono; try assumption;
    rewrite E; apply Qle_refl.
Qed.

Lemma binary64_sign (q : Q) :
  ((q == 0 /\ binary64 q == 0) \/
   (0 < q /\ binary64 q = round_to_precision q) \/
   (q < 0 /\ binary64 q = - round_to_precision (- q)))%Q.
Proof.
  unfold binary64. destruct q as [[|p|p] d]; cbn [Qnum].
  - left. split; reflexivity.
  - right. left. split; reflexivity.
  - right. right. split; reflexivity.
Qed.

Lemma binary64_mono (a b : Q) : (a <= b)%Q -> (binary64 a <= binary64 b)%Q.
Proof.
  intros Hab.
  destruct (binary64_sign a) as [[Ha ->]|[[Ha ->]|[Ha ->]]];
    destruct (binary64_sign b) as [[Hb ->]|[[Hb ->]|[Hb ->]]];
    try (exfalso; lra).
  - apply Qle_refl.
  - apply round_to_precision_nonneg. lra.
  - now apply round_to_precision_mono.
  - pose proof (round_to_precision_nonneg (- a) ltac:(lra)). lra.
  - pose proof (round_to_precision_nonneg (- a) ltac:(lra)).
    pose proof (round_to_precision_nonneg b ltac:(lra)). lra.
  - pose proof (round_to_precision_mono (- b) (- a) ltac:(lra) ltac:(lra)). lra.
Qed.

Lemma pow2_le_inv (a b : Z) : (2 ^ a <= 2 ^ b)%Q -> a <= b.
Proof. intros H. apply (Qpower_le_compat_l_inv 2); [exact H | reflexivity]. Qed.

(** A value that is a whole number of units in the last place is kept. *)
Lemma round_to_precision_exact (q : Q) (z : Z) :
  (q * 2 ^ (- (Z.max (ilog2 q) (-1022) - 52)) == inject_Z z)%Q ->
  (round_to_precision q == q)%Q.
Proof.
  intros H. unfold round_to_precision. cbv zeta.
  set (s := Z.max (ilog2 q) (-1022) - 52) in *.
  rewrite (Qround_half_even_comp _ _ H), Qround_half_even_inject, <- H.
  rewrite <- Qmult_assoc, pow2_cancel. apply Qmult_1_r.
Qed.

Lemma round_to_precision_quarters (k : Z) :
  0 < k <= 2 ^ 53 -> (round_to_precision (k # 4) == k # 4)%Q.
Proof.
  intros Hk.
  assert (Hq : (0 < k # 4)%Q) by (unfold Qlt; cbn; lia).
  destruct (ilog2_spec _ Hq) as [H1 H2].
  set (e := ilog2 (k # 4)) in *.
  assert (Hlo : -2 <= e).
  { assert (H : (2 ^ (-2) < 2 ^ (e + 1))%Q).
    { eapply Qle_lt_trans; [|exact H2]. change (2 ^ (-2))%Q with (1 # 4)%Q.
      unfold Qle; cbn. lia. }
    apply pow2_lt_inv in H. lia. }
  assert (Hhi : e <= 51).
  { apply pow2_le_inv. eapply Qle_trans; [exact H1|].
    rewrite <- pow2_inject by lia. unfold Qle; cbn. lia. }
  assert (Hk4 : ((k # 4) * 2 ^ 2 == inject_Z k)%Q).
  { unfold Qeq, Qmult, inject_Z; cbn. lia. }
  destruct (Z_le_gt_dec e 50) as [He|He].
  - apply (round_to_precision_exact _ (k * 2 ^ (50 - e))). fold e.
    rewrite Z.max_l by lia.
    replace (- (e - 52)) with (2 + (50 - e)) by lia.
    rewrite pow2_add, Qmult_assoc, Hk4, inject_Z_mult, pow2_inject by lia.
    reflexivity.
  - assert (He' : e = 51) by lia.
    assert (Hk' : k = 2 ^ 53).
    { rewrite He', <- pow2_inject in H1 by lia. unfold Qle in H1; cbn in H1. lia. }
    apply (round_to_precision_exact _ (2 ^ 52)). fold e.
    rewrite Z.max_l, He', Hk' by lia. reflexivity.
Qed.

Lemma binary64_quarters (k : Z) :
  Z.abs k <= 2 ^ 53 -> (binary64 (k # 4) == k # 4)%Q.
Proof.
  intros Hk. unfold binary64. cbn [Qnum]. destruct k as [|p|p].
  - reflexivity.
  - apply round_to_precision_quarters. lia.
  - change (- (Z.neg p # 4))%Q with (Z.pos p # 4)%Q.
    rewrite round_to_precision_quarters by lia. reflexivity.
Qed.

(** *** The conversion *)

Lemma binary64_between (ka kb : Z) (q : Q) :
  Z.abs ka <= 2 ^ 53 -> Z.abs kb <= 2 ^ 53 ->
  (ka # 4 <= q <= kb # 4)%Q -> (ka # 4 <= binary64 q <= kb # 4)%Q.
Proof.
  intros Ha Hb [H1 H2]. split.
  - rewrite <- (binary64_quarters ka Ha). now apply binary64_mono.
  - rewrite <- (binary64_quarters kb Hb). now apply binary64_mono.
Qed.

Lemma Qmake_4 (k : Z) : (k # 4 == inject_Z k * (1 # 4))%Q.
Proof. unfold Qeq, Qmult, inject_Z; cbn. lia. Qed.

Lemma binary64_comp (a b : Q) : (a == b)%Q -> (binary64 a == binary64 b)%Q.
Proof.
  intros E. apply Qle_antisym; apply binary64_mono; rewrite E; apply Qle_refl.
Qed.

(** A multiple of [2^-j] with at most 53 bits is a float. *)
Lemma round_to_precision_dyadic (k j : Z) :
  0 < k <= 2 ^ 53 -> 0 <= j <= 1022 ->
  (round_to_precision (inject_Z k * 2 ^ (- j)) == inject_Z k * 2 ^ (- j))%Q.
Proof.
  intros Hk Hj. set (q := (inject_Z k * 2 ^ (- j))%Q).
  assert (Hq : (0 < q)%Q).
  { apply Qmult_lt_0_compat; [|apply pow2_pos]. rewrite <- (Zlt_Qlt 0). lia. }
  destruct (ilog2_spec _ Hq) as [H1 H2].
  set (e := ilog2 q) in *.
  assert (Hqk : (q * 2 ^ j == inject_Z k)%Q).
  { unfold q. rewrite <- Qmult_assoc, pow2_cancel. apply Qmult_1_r. }
  assert (Hlo : - j <= e).
  { assert (H : (2 ^ (- j) < 2 ^ (e + 1))%Q).
    { eapply Qle_lt_trans; [|exact H2]. unfold q.
      rewrite <- (Qmult_1_l (2 ^ (- j))) at 1.
      apply Qmult_le_compat_r; [|apply Qlt_le_weak, pow2_pos].
      change 1%Q with (inject_Z 1). rewrite <- Zle_Qle. lia. }
    apply pow2_lt_inv in H. lia. }
  assert (Hhi : e + j <= 53).
  { apply pow2_le_inv. rewrite pow2_add.
    apply Qle_trans with (q * 2 ^ j)%Q.
    - apply Qmult_le_compat_r; [exact H1 | apply Qlt_le_weak, pow2_pos].
    - rewrite Hqk, <- pow2_inject, <- Zle_Qle by lia. lia. }
  destruct (Z_le_gt_dec (e + j) 52) as [He|He].
  - apply (round_to_precision_exact _ (k * 2 ^ (52 - (e + j)))). fold e.
    rewrite Z.max_l by lia.
    replace (- (e - 52)) with (j + (52 - (e + j))) by lia.
    rewrite pow2_add, Qmult_assoc, Hqk, inject_Z_mult, pow2_inject by lia.
    reflexivity.
  - assert (He' : e + j = 53) by lia.
    assert (Hk' : k = 2 ^ 53).
    { assert (H : (2 ^ 53 <= inject_Z k)%Q).
      { rewrite <- Hqk. replace 53 with (e + j) by lia. rewrite pow2_add.
        apply Qmult_le_compat_r; [exact H1 | apply Qlt_le_weak, pow2_pos]. }
      rewrite <- pow2_inject, <- Zle_Qle in H by lia. lia. }
    apply (round_to_precision_exact _ (2 ^ 52)). fold e.
    rewrite Z.max_l by lia.
    replace (- (e - 52)) with (j + (-1)) by lia.
    rewrite pow2_add, Qmult_assoc, Hqk, Hk'. reflexivity.
Qed.

Lemma binary64_dyadic (k j : Z) :
  Z.abs k <= 2 ^ 53 -> 0 <= j <= 1022 ->
  (binary64 (inject_Z k * 2 ^ (- j)) == inject_Z k * 2 ^ (- j))%Q.
Proof.
  intros Hk Hj.
  destruct (binary64_sign (inject_Z k * 2 ^ (- j))) as [[E ->]|[[Hpos ->]|[Hneg ->]]].
  - now rewrite E.
  - apply round_to_precision_dyadic; [|exact Hj].
    assert (0 < k); [|lia].
    destruct (Z_lt_le_dec 0 k) as [?|Hle]; [assumption|exfalso].
    assert (H : (inject_Z k * 2 ^ (- j) <= 0)%Q).
    { rewrite <- (Qmult_0_l (2 ^ (- j))). apply Qmult_le_compat_r; [|apply Qlt_le_weak, pow2_pos].
      change 0%Q with (inject_Z 0). rewrite <- Zle_Qle. exact Hle. }
    lra.
  - assert (Hk' : 0 < - k).
    { destruct (Z_lt_le_dec k 0) as [?|Hle]; [lia|exfalso].
      assert (H : (0 <= inject_Z k * 2 ^ (- j))%Q).
      { apply Qmult_le_0_compat; [|apply Qlt_le_weak, pow2_pos].
        change 0%Q with (inject_Z 0). rewrite <- Zle_Qle. exact Hle. }
      lra. }
    assert (E : (- (inject_Z k * 2 ^ (- j)) == inject_Z (- k) * 2 ^ (- j))%Q).
    { rewrite inject_Z_opp. ring. }
    assert (Hpos : (0 < - (inject_Z k * 2 ^ (- j)))%Q) by lra.
    rewrite (round_to_precision_comp _ _ Hpos E).
    rewrite round_to_precision_dyadic by lia. rewrite inject_Z_opp. ring.
Qed.

(** Rounding a value below [2^(53-j)] moves it by at most [2^-j]. *)
Lemma binary64_error (j : Z) (q : Q) :
  0 <= j <= 1022 -> (0 <= q)%Q -> (q * 2 ^ j + 1 <= 2 ^ 53)%Q ->
  (q - 2 ^ (- j) <= binary64 q <= q + 2 ^ (- j))%Q.
Proof.
  intros Hj Hq Hb.
  set (k := Qfloor (q * 2 ^ j)).
  pose proof (Qfloor_le (q * 2 ^ j)) as Hf. pose proof (Qlt_floor (q * 2 ^ j)) as Hc.
  fold k in Hf, Hc. rewrite inject_Z_plus in Hc. change (inject_Z 1) with 1%Q in Hc.
  pose proof (pow2_pos j) as Hp. pose proof (pow2_pos (- j)) as Hp'.
  assert (Hk0 : 0 <= k).
  { apply (Qfloor_bounds _ 0 k); [|lra].
    change (inject_Z 0) with 0%Q. apply Qmult_le_0_compat; lra. }
  assert (Hk1 : k + 1 <= 2 ^ 53).
  { rewrite Zle_Qle, inject_Z_plus, pow2_inject by lia. change (inject_Z 1) with 1%Q. lra. }
  assert (Hcancel : (2 ^ j * 2 ^ (- j) == 1)%Q).
  { rewrite <- pow2_add. replace (j + - j) with 0 by lia. reflexivity. }
  assert (Hlo : (inject_Z k * 2 ^ (- j) <= q)%Q).
  { apply Qle_trans with (q * 2 ^ j * 2 ^ (- j))%Q.
    - apply Qmult_le_compat_r; lra.
    - rewrite <- Qmult_assoc, Hcancel, Qmult_1_r. apply Qle_refl. }
  assert (Hhi : (q <= inject_Z (k + 1) * 2 ^ (- j))%Q).
  { apply Qle_trans with (q * 2 ^ j * 2 ^ (- j))%Q.
    - rewrite <- Qmult_assoc, Hcancel, Qmult_1_r. apply Qle_refl.
    - apply Qmult_le_compat_r; [|lra].
      rewrite inject_Z_plus. change (inject_Z 1) with 1%Q. lra. }
  pose proof (binary64_mono _ _ Hlo) as M1. pose proof (binary64_mono _ _ Hhi) as M2.
  rewrite binary64_dyadic in M1 by lia. rewrite binary64_dyadic in M2 by lia.
  rewrite inject_Z_plus in M2, Hhi. change (inject_Z 1) with 1%Q in M2, Hhi.
  split; lra.
Qed.

Lemma Qround_half_even_error (q : Q) :
  (q - (1 # 2) <= inject_Z (Qround_half_even q) <= q + (1 # 2))%Q.
Proof.
  unfold Qround_half_even.
  pose proof (Qfloor_le q) as Hf. pose proof (Qlt_floor q) as Hc.
  rewrite inject_Z_plus in Hc. change (inject_Z 1) with 1%Q in Hc.
  destruct (Qcompare_spec (q - inject_Z (Qfloor q)) (1 # 2)) as [E|E|E].
  - destruct (Z.even (Qfloor q)).
    + split; lra.
    + rewrite inject_Z_plus. change (inject_Z 1) with 1%Q. split; lra.
  - split; lra.
  - rewrite inject_Z_plus. change (inject_Z 1) with 1%Q. split; lra.
Qed.

Lemma binary64_nonneg (q : Q) : (0 <= q)%Q -> (0 <= binary64 q)%Q.
Proof. intros H. exact (binary64_mono 0 q H). Qed.

Lemma binary64_unit (q : Q) : (0 <= q <= 1)%Q -> (0 <= binary64 q <= 1)%Q.
Proof.
  intros H. pose proof (binary64_between 0 4 q ltac:(cbn; lia) ltac:(cbn; lia)) as Hb.
  assert (H' : (0 # 4 <= q <= 4 # 4)%Q) by (split; lra).
  specialize (Hb H'). lra.
Qed.

Lemma binary64_unit_error (q : Q) :
  (0 <= q <= 1)%Q ->
  (q - (1 # 4503599627370496) <= binary64 q <= q + (1 # 4503599627370496))%Q.
Proof.
  intros H. apply (binary64_error 52); [lia | lra |].
  change (2 ^ 52)%Q with 4503599627370496%Q. change (2 ^ 53)%Q with 9007199254740992%Q. lra.
Qed.

Lemma round_13_unit (x : Q) :
  (0 <= x <= 1)%Q ->
  (0 <= round_13 x <= 1 /\
   x - (1 # 19000000000000) <= round_13 x <= x + (1 # 19000000000000))%Q.
Proof.
  intros Hx. unfold round_13.
  change (inject_Z FRAC_DIGITS) with 10000000000000%Q.
  pose proof (Qround_half_even_error (x * 10000000000000)) as He.
  assert (Hb : 0 <= Qround_half_even (x * 10000000000000) <= 10000000000000).
  { apply Qround_half_even_bounds.
    change (inject_Z 0) with 0%Q. change (inject_Z 10000000000000) with 10000000000000%Q. lra. }
  set (t := Qround_half_even (x * 10000000000000)) in *.
  destruct Hb as [Hb1 Hb2]. rewrite Zle_Qle in Hb1, Hb2.
  change (inject_Z 0) with 0%Q in Hb1.
  change (inject_Z 10000000000000) with 10000000000000%Q in Hb2.
  assert (Hu : (0 <= inject_Z t / 10000000000000 <= 1)%Q).
  { unfold Qdiv. change (/ 10000000000000)%Q with (1 # 10000000000000)%Q. lra. }
  pose proof (binary64_unit _ Hu) as H1. pose proof (binary64_unit_error _ Hu) as H2.
  split; [exact H1|].
  set (u := binary64 (inject_Z t / 10000000000000)) in *.
  unfold Qdiv in H2. change (/ 10000000000000)%Q with (1 # 10000000000000)%Q in H2.
  split; lra.
Qed.

(** The nanoseconds of a fraction of a day: at most five (and a bit) away
    from the exact product. *)
Lemma frac_part_error (x : Q) :
  (0 <= x <= 1)%Q ->
  (x * inject_Z DAY_NS - 6
   <= inject_Z (Qtrunc (binary64 (round_13 (binary64 x) * inject_Z DAY_NS)))
   <= x * inject_Z DAY_NS + 6)%Q.
Proof.
  intros Hx.
  pose proof (binary64_unit _ Hx) as H1. pose proof (binary64_unit_error _ Hx) as H1e.
  set (x1 := binary64 x) in *.
  destruct (round_13_unit x1 H1) as [H2 H2e].
  set (x2 := round_13 x1) in *.
  change (inject_Z DAY_NS) with 86400000000000%Q.
  assert (H3 : (0 <= x2 * 86400000000000)%Q) by lra.
  pose proof (binary64_nonneg _ H3) as H4.
  pose proof (binary64_error 6 (x2 * 86400000000000) ltac:(lia) H3) as H5.
  change (2 ^ 6)%Q with 64%Q in H5. change (2 ^ 53)%Q with 9007199254740992%Q in H5.
  change (2 ^ Z.opp 6)%Q with (1 # 64)%Q in H5.
  specialize (H5 ltac:(lra)).
  set (x3 := binary64 (x2 * 86400000000000)) in *.
  rewrite Qtrunc_nonneg by exact H4.
  pose proof (Qfloor_le x3) as Hf. pose proof (Qlt_floor x3) as Hc.
  rewrite inject_Z_plus in Hc. change (inject_Z 1) with 1%Q in Hc.
  split; lra.
Qed.

Lemma frac_part_bounds (x : Q) (cap : Z) :
  0 <= cap <= 4 ->
  (0 <= x <= cap # 4)%Q ->
  0 <= Qtrunc (binary64 (round_13 (binary64 x) * inject_Z DAY_NS)) <= cap * (DAY_NS / 4).
Proof.
  intros Hcap Hx. unfold round_13.
  change (inject_Z FRAC_DIGITS) with 10000000000000%Q.
  assert (H0 : Z.abs 0 <= 2 ^ 53) by (cbn; lia).
  assert (Hc : Z.abs cap <= 2 ^ 53) by lia.
  assert (Hcd : Z.abs (cap * DAY_NS) <= 2 ^ 53) by (unfold DAY_NS; lia).
  assert (Hz : (0 # 4 == 0)%Q) by reflexivity.
  pose proof (Qmake_4 cap) as Hq.
  assert (Hcq : (0 <= inject_Z cap)%Q) by (rewrite <- (Zle_Qle 0); lia).
  pose proof (binary64_between 0 cap x H0 Hc) as H1.
  rewrite Hz, Hq in H1. rewrite Hq in Hx. specialize (H1 Hx).
  set (x1 := binary64 x) in *.
  assert (H2 : 0 <= Qround_half_even (x1 * 10000000000000) <= cap * 2500000000000).
  { apply Qround_half_even_bounds. rewrite inject_Z_mult.
    change (inject_Z 0) with 0%Q. change (inject_Z 2500000000000) with 2500000000000%Q. lra. }
  set (t := Qround_half_even (x1 * 10000000000000)) in *.
  pose proof (binary64_between 0 cap (inject_Z t / 10000000000000) H0 Hc) as H3.
  rewrite Hz, Hq in H3.
  assert (Ht : (0 <= inject_Z t <= inject_Z cap * 2500000000000)%Q).
  { split.
    - rewrite <- (Zle_Qle 0). lia.
    - change 2500000000000%Q with (inject_Z 2500000000000).
      rewrite <- inject_Z_mult, <- Zle_Qle. lia. }
  assert (H3b : (0 <= inject_Z t / 10000000000000 <= inject_Z cap * (1 # 4))%Q).
  { unfold Qdiv. change (/ 10000000000000)%Q with (1 # 10000000000000)%Q. lra. }
  specialize (H3 H3b).
  set (x2 := binary64 (inject_Z t / 10000000000000)) in *.
  pose proof (binary64_between 0 (cap * DAY_NS) (x2 * inject_Z DAY_NS) H0 Hcd) as H4.
  rewrite Hz, (Qmake_4 (cap * DAY_NS)), inject_Z_mult in H4.
  change (inject_Z DAY_NS) with 86400000000000%Q in *.
  assert (H4b : (0 <= x2 * 86400000000000 <= inject_Z cap * 86400000000000 * (1 # 4))%Q) by lra.
  specialize (H4 H4b).
  set (x3 := binary64 (x2 * 86400000000000)) in *.
  rewrite Qtrunc_nonneg by tauto.
  apply Qfloor_bounds.
  - change (inject_Z 0) with 0%Q. tauto.
  - rewrite inject_Z_mult. change (inject_Z (DAY_NS / 4)) with 21600000000000%Q. lra.
Qed.

Lemma cast_from_unit_D_bounds (x : Q) :
  (0 <= x <= 365.25)%Q ->
  0 <= cast_from_unit_D x <= 365 * DAY_NS + DAY_NS / 4.
Proof.
  intros Hx. unfold cast_from_unit_D.
  rewrite (Qtrunc_nonneg x) by tauto.
  assert (Hb : 0 <= Qfloor x <= 365).
  { apply Qfloor_bounds; [tauto|]. change (inject_Z 365) with 365%Q. lra. }
  pose proof (Qfloor_le x) as Hf. pose proof (Qlt_floor x) as Hc.
  rewrite inject_Z_plus in Hc. change (inject_Z 1) with 1%Q in Hc.
  set (b := Qfloor x) in *.
  assert (Hcase : b <= 364 \/ b = 365) by lia.
  destruct Hcase as [Hlt|Heq].
  - pose proof (frac_part_bounds (x - inject_Z b) 4 ltac:(lia)) as H.
    assert (Hfr : (0 <= x - inject_Z b <= 4 # 4)%Q) by (split; lra).
    specialize (H Hfr). unfold DAY_NS in *. set (p := Qtrunc _) in *. clearbody p b. Z.div_mod_to_equations; lia.
  - pose proof (frac_part_bounds (x - inject_Z b) 1 ltac:(lia)) as H.
    assert (Hfr : (0 <= x - inject_Z b <= 1 # 4)%Q).
    { rewrite Heq. change (inject_Z 365) with 365%Q. split; [|lra].
      rewrite Heq in Hf. change (inject_Z 365) with 365%Q in Hf. lra. }
    specialize (H Hfr). unfold DAY_NS in *. set (p := Qtrunc _) in *. clearbody p. Z.div_mod_to_equations; lia.
Qed.

(** The nanoseconds of a count of days are at most six away from the exact
    product. *)
Lemma cast_from_unit_D_error (x : Q) :
  (0 <= x)%Q ->
  (x * inject_Z DAY_NS - 6 <= inject_Z (cast_from_unit_D x) <= x * inject_Z DAY_NS + 6)%Q.
Proof.
  intros Hx. unfold cast_from_unit_D. rewrite (Qtrunc_nonneg x Hx).
  pose proof (Qfloor_le x) as Hf. pose proof (Qlt_floor x) as Hc.
  rewrite inject_Z_plus in Hc. change (inject_Z 1) with 1%Q in Hc.
  set (b := Qfloor x) in *.
  pose proof (frac_part_error (x - inject_Z b) ltac:(split; lra)) as H.
  rewrite inject_Z_plus, inject_Z_mult.
  set (p := inject_Z (Qtrunc _)) in *.
  change (inject_Z DAY_NS) with 86400000000000%Q in *.
  split; lra.
Qed.

(** The days counted for the fraction of a year. *)
Lemma year_part_error (y : Q) :
  (0 <= y)%Q ->
  let x := binary64 (binary64 (y - inject_Z (Qfloor y)) * 365.25) in
  (0 <= x <= 365.25 /\
   (y - inject_Z (Qfloor y)) * 365.25 - (1 # 7000000000000)
   <= x <= (y - inject_Z (Qfloor y)) * 365.25 + (1 # 7000000000000))%Q.
Proof.
  intros Hy0. cbv zeta.
  pose proof (Qfloor_le y) as Hf. pose proof (Qlt_floor y) as Hc.
  rewrite inject_Z_plus in Hc. change (inject_Z 1) with 1%Q in Hc.
  assert (Hr : (0 <= y - inject_Z (Qfloor y) <= 1)%Q) by (split; lra).
  pose proof (binary64_unit _ Hr) as H1. pose proof (binary64_unit_error _ Hr) as H1e.
  set (r := binary64 (y - inject_Z (Qfloor y))) in *.
  pose proof (binary64_between 0 1461 (r * 365.25) ltac:(cbn; lia) ltac:(cbn; lia)) as H2.
  assert (H2b : (0 # 4 <= r * 365.25 <= 1461 # 4)%Q) by (split; lra).
  specialize (H2 H2b).
  pose proof (binary64_error 44 (r * 365.25) ltac:(lia) ltac:(lra)) as H3.
  change (2 ^ 44)%Q with 17592186044416%Q in H3.
  change (2 ^ 53)%Q with 9007199254740992%Q in H3.
  change (2 ^ Z.opp 44)%Q with (1 # 17592186044416)%Q in H3.
  specialize (H3 ltac:(lra)).
  set (x := binary64 (r * 365.25)) in *.
  split; [lra|]. split; lra.
Qed.

Lemma round_half_even_day_bounds (j n : Z) :
  0 <= n <= 365 * DAY_NS + DAY_NS / 4 ->
  let d := round_nearest_half_even (j * DAY_NS + n) DAY_NS in
  j <= d <= j + 365 /\ Z.abs (d * DAY_NS - (j * DAY_NS + n)) <= DAY_NS / 2.
Proof.
  intros Hn. unfold round_nearest_half_even.
  rewrite (Z.add_comm (j * DAY_NS) n), Z.div_add, Z_mod_plus_full by (unfold DAY_NS; lia).
  assert (Hq : 0 <= n / DAY_NS <= 365 /\ 0 <= n mod DAY_NS < DAY_NS /\
               n = DAY_NS * (n / DAY_NS) + n mod DAY_NS /\
               (n / DAY_NS = 365 -> n mod DAY_NS <= DAY_NS / 4)).
  { unfold DAY_NS in *. Z.div_mod_to_equations. lia. }
  destruct Hq as (Hq & Hr & Hdiv & H365).
  set (q := n / DAY_NS) in *. set (r := n mod DAY_NS) in *.
  clearbody q r. cbv zeta.
  destruct ((DAY_NS / 2 <? r) || (r =? DAY_NS / 2) && Z.odd (q + j)) eqn:E.
  - assert (Hr' : DAY_NS / 2 <= r).
    { apply orb_true_iff in E. destruct E as [E|E]; [lia|].
      apply andb_true_iff in E. lia. }
    unfold DAY_NS in *. Z.div_mod_to_equations. lia.
  - apply orb_false_iff in E. destruct E as [E _].
    unfold DAY_NS in *. Z.div_mod_to_equations. lia.
Qed.

Lemma Qfloor_year_nonneg (y : Q) : 0 <= Qfloor y -> (0 <= y)%Q.
Proof.
  intros H. pose proof (Qfloor_le y) as Hf.
  rewrite Zle_Qle in H. change (inject_Z 0) with 0%Q in H. lra.
Qed.

(** Inside 1678..2261 every step fits the nanosecond range. *)
Lemma nanosecond_date_within_year (y : Q) :
  1678 <= Qfloor y <= 2261 ->
  let jan1 := days_from_civil (Qfloor y) 1 1 in
  let delta := cast_from_unit_D (binary64 (binary64 (y - inject_Z (Qfloor y)) * 365.25)) in
  let d := round_nearest_half_even (jan1 * DAY_NS + delta) DAY_NS in
  nanosecond_date y = Some d /\
  jan1 <= d <= days_from_civil (Qfloor y + 1) 1 1 /\
  Z.abs (d * DAY_NS - (jan1 * DAY_NS + delta)) <= DAY_NS / 2.
Proof.
  intros HY jan1 delta d.
  assert (Hy0 : (0 <= y)%Q) by (apply Qfloor_year_nonneg; lia).
  destruct (year_part_error y Hy0) as [Hx _]. cbv zeta in Hx.
  pose proof (cast_from_unit_D_bounds _ Hx) as Hdelta. fold delta in Hdelta.
  pose proof (round_half_even_day_bounds jan1 delta Hdelta) as Hd.
  cbv zeta in Hd. fold d in Hd. destruct Hd as [Hd Habs].
  pose proof (january_first_bounds (Qfloor y) ltac:(lia)) as Hj. fold jan1 in Hj.
  pose proof (january_first_bounds (Qfloor y + 1) ltac:(lia)) as Hj'.
  pose proof (days_from_civil_next_year (Qfloor y)) as Hyr. fold jan1 in Hyr.
  split; [|split; [lia | exact Habs]].
  unfold nanosecond_date. rewrite (Qtrunc_nonneg y Hy0).
  unfold to_datetime_jan1, to_timedelta_D. fold jan1. fold delta.
  assert (E1 : (1000 <=? Qfloor y) && (Qfloor y <=? 9999) = true) by lia.
  assert (E2 : in_bounds (jan1 * DAY_NS) = true) by (unfold in_bounds, TS_MIN, TS_MAX, DAY_NS; lia).
  assert (E3 : in_bounds delta = true).
  { unfold in_bounds, TS_MIN, TS_MAX, DAY_NS in *. Z.div_mod_to_equations. lia. }
  assert (E4 : in_bounds (jan1 * DAY_NS + delta) = true).
  { unfold in_bounds, TS_MIN, TS_MAX, DAY_NS in *. Z.div_mod_to_equations. lia. }
  rewrite E1, E2. cbn [mbind option_bind]. rewrite E3. cbn [mbind option_bind].
  rewrite E4. unfold round_D. fold d.
  assert (E5 : in_bounds (d * DAY_NS) = true).
  { unfold in_bounds, TS_MIN, TS_MAX, DAY_NS in *. lia. }
  now rewrite E5.
Qed.

(** A year of five digits or more has no nanosecond date. *)
Lemma nanosecond_date_five_digits (y : Q) :
  10000 <= Qtrunc y -> nanosecond_date y = None.
Proof.
  intros H. unfold nanosecond_date, to_datetime_jan1.
  replace ((1000 <=? Qtrunc y) && (Qtrunc y <=? 9999)) with false by lia.
  reflexivity.
Qed.

Section Normalizer.

Variable other_years : Q -> option Z.

Lemma decimal_year_to_date_nanosecond (y : Q) (d : Z) :
  nanosecond_date y = Some d -> decimal_year_to_date other_years y = Some d.
Proof. intros H. unfold decimal_year_to_date. now rewrite H. Qed.

Lemma decimal_year_to_date_five_digits (y : Q) :
  10000 <= Qtrunc y -> decimal_year_to_date other_years y = None.
Proof.
  intros H. unfold decimal_year_to_date.
  rewrite (nanosecond_date_five_digits y H).
  now replace (10000 <=? Qtrunc y) with true by lia.
Qed.

(** C4, as amended. For every fractional year [y] whose whole part lies in
    1678..2261 (the calendar years that fit a nanosecond [Timestamp] from
    their first day to the first day of the next year),
    [decimal_year_to_date] returns a date. The date is not before January 1
    of the year and not after January 1 of the next, and it is the whole
    day nearest to January 1 plus the fractional part of [y] times 365.25
    days: it differs from that instant by half a day at most, up to the
    rounding of the float operations (below [1e-12] day, a tenth of a
    microsecond). *)
Theorem decimal_year_to_date_within_year (y : Q) :
  1678 <= Qfloor y <= 2261 ->
  exists d : Z,
    decimal_year_to_date other_years y = Some d /\
    days_from_civil (Qfloor y) 1 1 <= d <= days_from_civil (Qfloor y + 1) 1 1 /\
    (- (1 # 2) - (1 # 1000000000000)
     <= inject_Z d
        - (inject_Z (days_from_civil (Qfloor y) 1 1)
           + (y - inject_Z (Qfloor y)) * 365.25)
     <= (1 # 2) + (1 # 1000000000000))%Q.
Proof.
  intros HY.
  destruct (nanosecond_date_within_year y HY) as (Hd & Hin & Habs). cbv zeta in *.
  assert (Hy0 : (0 <= y)%Q) by (apply Qfloor_year_nonneg; lia).
  destruct (year_part_error y Hy0) as [Hx Hxe]. cbv zeta in Hx, Hxe.
  pose proof (cast_from_unit_D_error _ (proj1 Hx)) as He.
  set (x := binary64 (binary64 (y - inject_Z (Qfloor y)) * 365.25)) in *.
  set (delta := cast_from_unit_D x) in *.
  set (jan1 := days_from_civil (Qfloor y) 1 1) in *.
  set (d := round_nearest_half_even (jan1 * DAY_NS + delta) DAY_NS) in *.
  exists d. split; [now apply decimal_year_to_date_nanosecond|]. split; [exact Hin|].
  assert (Hq : (- inject_Z (DAY_NS / 2)
                <= inject_Z d * inject_Z DAY_NS
                   - (inject_Z jan1 * inject_Z DAY_NS + inject_Z delta)
                <= inject_Z (DAY_NS / 2))%Q).
  { rewrite <- !inject_Z_mult, <- inject_Z_plus, <- inject_Z_opp.
    unfold Qminus. rewrite <- inject_Z_opp, <- inject_Z_plus, <- !Zle_Qle. lia. }
  change (inject_Z DAY_NS) with 86400000000000%Q in *.
  change (inject_Z (DAY_NS / 2)) with 43200000000000%Q in Hq.
  clearbody d jan1 delta x. split; lra.
Qed.

End Normalizer.

(** The theorem at the float 1960.042: the date is 1960-01-16. *)
Lemma decimal_year_to_date_within_year_witness :
  1678 <= Qfloor (binary64 1960.042) <= 2261 /\
  exists d : Z,
    decimal_year_to_date Samples.raises_elsewhere (binary64 1960.042) = Some d /\
    days_from_civil 1960 1 1 <= d <= days_from_civil 1961 1 1 /\
    (- (1 # 2) - (1 # 1000000000000)
     <= inject_Z d
        - (inject_Z (days_from_civil 1960 1 1)
           + (binary64 1960.042 - inject_Z 1960) * 365.25)
     <= (1 # 2) + (1 # 1000000000000))%Q.
Proof.
  assert (H : 1678 <= Qfloor (binary64 1960.042) <= 2261)
    by (vm_compute; split; discriminate).
  split; [exact H|].
  exact (decimal_year_to_date_within_year Samples.raises_elsewhere (binary64 1960.042) H).
Defined.

(** C4 as stated fails: 10000.5 is a finite positive float, and no date
    comes back, since ['10000-01-01'] is not a date that [pd.to_datetime]
    reads. This does not depend on what the function does with the years
    that the model leaves open: here it is given a date for each of them. *)
Lemma decimal_year_to_date_year_10000 :
  (0 < binary64 10000.5)%Q /\
  decimal_year_to_date (fun _ => Some 0) (binary64 10000.5) = None.
Proof. split; vm_compute; reflexivity. Qed.

(** The spec's own examples: 2023.0 is 2023-01-01, and 2023.5 is within a
    day of 2023-07-02. The day fraction of 2008.9295003422314 ends three
    microseconds after noon of December 5: the date is December 6. *)
Example decimal_year_to_date_2023 :
  decimal_year_to_date Samples.raises_elsewhere (binary64 2023.0)
  = Some (days_from_civil 2023 1 1) /\
  decimal_year_to_date Samples.raises_elsewhere (binary64 2023.5)
  = Some (days_from_civil 2023 7 3) /\
  decimal_year_to_date Samples.raises_elsewhere (binary64 2008.9295003422314)
  = Some (days_from_civil 2008 12 6).
Proof. repeat split; vm_compute; reflexivity. Qed.

End NormalizerFacts.

(** ** Missing-value repair *)

Module FillFacts.
Import DataPrep.

Section Fill.
Context {A : Type}.
Implicit Types (l r pre rest : list (option A)) (last : option A) (a : A).

Lemma length_ffill_from last l : length (ffill_from last l) = length l.
Proof. revert last. induction l as [|x r IH]; intros last; cbn; [reflexivity|]. now rewrite IH. Qed.

Lemma length_bfill l : length (bfill l) = length l.
Proof.
  induction l as [|x r IH]; cbn; [reflexivity|].
  destruct x; cbn; now rewrite IH.
Qed.

Lemma length_fill_co2 l : length (fill_co2 l) = length l.
Proof. unfold fill_co2, ffill. now rewrite length_bfill, length_ffill_from. Qed.

(** After a valid value, forward filling leaves nothing missing. *)
Lemma ffill_from_Some a l : Forall is_Some (ffill_from (Some a) l).
Proof.
  revert a. induction l as [|x r IH]; intros a; cbn; [constructor|].
  destruct x as [b|]; constructor; eauto.
Qed.

(** Backward filling changes nothing where nothing is missing. *)
Lemma bfill_all_valid l : Forall is_Some l -> bfill l = l.
Proof.
  induction 1 as [|x r [a ->] _ IH]; cbn; [reflexivity|]. now rewrite IH.
Qed.

(** Backward filling keeps every valid entry. *)
Lemma bfill_keeps_valid l (i : nat) a :
  l !! i = Some (Some a) -> bfill l !! i = Some (Some a).
Proof.
  revert i. induction l as [|x r IH]; intros i H; [discriminate|].
  destruct i as [|i]; cbn in *.
  - injection H as ->. reflexivity.
  - destruct x; cbn; now apply IH.
Qed.

(** The entry after a valid value [a] is [a] after forward filling when it
    was missing. *)
Lemma ffill_from_gap last pre a rest :
  ffill_from last (pre ++ Some a :: None :: rest) !! S (length pre)
  = Some (Some a).
Proof.
  revert last. induction pre as [|x pre IH]; intros last; cbn; [reflexivity|].
  apply IH.
Qed.

Lemma fill_co2_some_valid l :
  (exists v, In (Some v) l) -> Forall is_Some (fill_co2 l).
Proof.
  unfold fill_co2, ffill. induction l as [|x r IH]; intros [v Hv]; [destruct Hv|].
  destruct x as [a|]; cbn [ffill_from].
  - rewrite bfill_all_valid; constructor; eauto using ffill_from_Some.
  - destruct Hv as [Hv|Hv]; [discriminate|].
    specialize (IH (ex_intro _ v Hv)).
    cbn [bfill]. constructor; [|exact IH].
    destruct (bfill (ffill_from None r)) as [|y t] eqn:E.
    + apply (f_equal length) in E. rewrite length_bfill, length_ffill_from in E.
      destruct r; [destruct Hv | discriminate].
    + inversion IH as [|? ? Hy _]. destruct Hy as [b ->]. cbn. eauto.
Qed.

(** C5. In a concentration column with at least one valid value, forward
    fill followed by backward fill leaves no entry missing; and a missing
    entry that stands between two valid values takes the value before it,
    not the one after. *)
Theorem fill_co2_repairs (co2_raw : list (option A)) :
  (exists v, In (Some v) co2_raw) ->
  Forall is_Some (fill_co2 co2_raw) /\
  (forall pre a b post,
      co2_raw = pre ++ Some a :: None :: Some b :: post ->
      fill_co2 co2_raw !! S (length pre) = Some (Some a)).
Proof.
  intros H. split; [now apply fill_co2_some_valid|].
  intros pre a b post ->. unfold fill_co2, ffill.
  apply bfill_keeps_valid, ffill_from_gap.
Qed.
End Fill.

(** The theorem on a column with a gap between 1 and 2. *)
Lemma fill_co2_repairs_witness :
  Forall is_Some (fill_co2 [None; Some 1; None; Some 2; None]) /\
  fill_co2 [None; Some 1; None; Some 2; None] !! 2%nat = Some (Some 1).
Proof.
  destruct (fill_co2_repairs [None; Some 1; None; Some 2; None]
              (ex_intro _ 1 (or_intror (or_introl eq_refl)))) as [H1 H2].
  split; [exact H1|].
  exact (H2 [None] 1 2 [None] eq_refl).
Defined.

End FillFacts.

(** ** The monthly index *)

Module RangeFacts.
Import Calendar CalendarFacts DataPrep.

Lemma map_fmap {A B} (f : A -> B) (l : list A) : map f l = f <$> l.
Proof. reflexivity. Qed.

Lemma month_starts_cons k n :
  month_starts k (S n) = month_start k :: month_starts (k + 1) n.
Proof.
  unfold month_starts. cbn [seq map]. rewrite Z.add_0_r. f_equal.
  rewrite <- seq_shift, map_map. apply map_ext. intros i. f_equal. lia.
Qed.

Lemma next_month_start_month_start k :
  next_month_start (month_start k) = month_start (k + 1).
Proof. unfold next_month_start. now rewrite month_index_month_start. Qed.

(** With fuel for every month up to the one of [stop], the loop yields the
    month starts from [k] up to that month. *)
Lemma generate_range_fuel (fuel : nat) k stop :
  let last := month_index (civil_from_days stop) in
  last - k + 1 <= Z.of_nat fuel ->
  generate_range fuel (month_start k) stop = month_starts k (Z.to_nat (last - k + 1)).
Proof.
  cbv zeta. revert k. induction fuel as [|fuel IH]; intros k Hf.
  - replace (Z.to_nat _) with 0%nat by lia. reflexivity.
  - cbn [generate_range].
    destruct (Z.leb_spec (month_start k) stop) as [Hle|Hgt].
    + apply month_start_le_iff in Hle.
      replace (Z.to_nat (month_index (civil_from_days stop) - k + 1))
        with (S (Z.to_nat (month_index (civil_from_days stop) - (k + 1) + 1))) by lia.
      rewrite month_starts_cons, next_month_start_month_start, IH by lia. reflexivity.
    + assert (Hk : ~ k <= month_index (civil_from_days stop)).
      { intros Hk. apply month_start_le_iff in Hk. lia. }
      replace (Z.to_nat _) with 0%nat by lia. reflexivity.
Qed.

Lemma rollforward_spec d :
  rollforward d = month_start (month_index (civil_from_days (rollforward d))) /\
  d <= rollforward d /\
  (forall k, d <= month_start k <-> rollforward d <= month_start k).
Proof.
  unfold rollforward. destruct (is_month_start d) eqn:E.
  - apply is_month_start_spec in E. split; [exact E|]. split; [lia|]. tauto.
  - unfold next_month_start. rewrite month_index_month_start.
    pose proof (day_in_its_month d) as Hd. cbv zeta in Hd.
    set (j := month_index (civil_from_days d)) in *.
    split; [reflexivity|]. split; [lia|].
    intros k. split.
    + intros Hk. apply month_start_le.
      destruct (Z_le_gt_dec (j + 1) k) as [?|Hgt]; [assumption|exfalso].
      pose proof (month_start_le k j ltac:(lia)).
      assert (d = month_start j) by lia.
      assert (is_month_start d = true); [|congruence].
      apply is_month_start_spec. fold j. assumption.
    + lia.
Qed.

(** [date_range] in closed form. *)
Lemma date_range_MS_spec start stop :
  let first := month_index (civil_from_days (rollforward start)) in
  let last := month_index (civil_from_days stop) in
  date_range_MS start stop = month_starts first (Z.to_nat (last - first + 1)).
Proof.
  cbv zeta. unfold date_range_MS.
  destruct (rollforward_spec start) as (Hr & Hle & _).
  set (r := rollforward start) in *.
  set (first := month_index (civil_from_days r)) in *.
  set (last := month_index (civil_from_days stop)).
  rewrite Hr at 2. apply generate_range_fuel. fold last.
  destruct (Z_le_gt_dec first last) as [Hfl|Hfl]; [|lia].
  pose proof (month_start_add first (Z.to_nat (last - first))) as Ha.
  rewrite Z2Nat.id in Ha by lia. replace (first + (last - first)) with last in Ha by lia.
  pose proof (day_in_its_month stop) as Hs. cbv zeta in Hs. fold last in Hs.
  rewrite <- Hr in Ha. lia.
Qed.

Lemma in_month_starts k n d :
  In d (month_starts k n) <-> exists j, k <= j < k + Z.of_nat n /\ d = month_start j.
Proof.
  unfold month_starts. rewrite in_map_iff. split.
  - intros (i & <- & Hi). apply in_seq in Hi. exists (k + Z.of_nat i). split; [lia|reflexivity].
  - intros (j & Hj & ->). exists (Z.to_nat (j - k)). split.
    + f_equal. lia.
    + apply in_seq. lia.
Qed.

(** The range holds exactly the month starts from [start] to [stop]. *)
Lemma in_date_range_MS start stop d :
  In d (date_range_MS start stop) <->
  is_month_start d = true /\ start <= d <= stop.
Proof.
  rewrite date_range_MS_spec. cbv zeta. rewrite in_month_starts.
  destruct (rollforward_spec start) as (Hr & Hle & Hiff).
  set (first := month_index (civil_from_days (rollforward start))) in *.
  set (last := month_index (civil_from_days stop)) in *.
  split.
  - intros (j & Hj & ->). split; [apply is_month_start_month_start|].
    assert (first <= last) by lia.
    split.
    + apply Hiff. rewrite Hr. apply month_start_le. lia.
    + apply month_start_le_iff. fold last. lia.
  - intros (Hms & Hlo & Hhi). apply is_month_start_spec in Hms.
    exists (month_index (civil_from_days d)). split; [|exact Hms].
    rewrite Hms in Hlo, Hhi.
    apply Hiff in Hlo. rewrite Hr in Hlo.
    apply month_start_le_iff in Hhi. fold last in Hhi.
    set (j := month_index (civil_from_days d)) in *.
    assert (first <= j).
    { destruct (Z_le_gt_dec first j) as [?|Hgt]; [assumption|exfalso].
      pose proof (month_start_lt j first ltac:(lia)). lia. }
    lia.
Qed.

Lemma index_min_spec (l : list Z) :
  l <> [] -> In (index_min l) l /\ forall x, In x l -> index_min l <= x.
Proof.
  unfold index_min. destruct l as [|a l]; [congruence|intros _]. cbn [hd].
  assert (H : forall m, (In (foldr Z.min a m) m \/ foldr Z.min a m = a) /\
                        foldr Z.min a m <= a /\
                        forall x, In x m -> foldr Z.min a m <= x).
  { induction m as [|b m (IH1 & IH2 & IH3)]; cbn [foldr].
    - split; [now right|]. split; [lia|]. intros x [].
    - split; [|split].
      + destruct (Z.min_spec b (foldr Z.min a m)) as [[_ ->]|[_ ->]].
        * left. now left.
        * destruct IH1 as [?|?]; [left; now right | now right].
      + lia.
      + intros x [<-|Hx]; [lia|]. specialize (IH3 x Hx). lia. }
  destruct (H (a :: l)) as (H1 & H2 & H3). split; [|exact H3].
  destruct H1 as [?|E]; [assumption|]. rewrite E. now left.
Qed.

Lemma index_max_spec (l : list Z) :
  l <> [] -> In (index_max l) l /\ forall x, In x l -> x <= index_max l.
Proof.
  unfold index_max. destruct l as [|a l]; [congruence|intros _]. cbn [hd].
  assert (H : forall m, (In (foldr Z.max a m) m \/ foldr Z.max a m = a) /\
                        a <= foldr Z.max a m /\
                        forall x, In x m -> x <= foldr Z.max a m).
  { induction m as [|b m (IH1 & IH2 & IH3)]; cbn [foldr].
    - split; [now right|]. split; [lia|]. intros x [].
    - split; [|split].
      + destruct (Z.max_spec b (foldr Z.max a m)) as [[_ ->]|[_ ->]].
        * destruct IH1 as [?|?]; [left; now right | now right].
        * left. now left.
      + lia.
      + intros x [<-|Hx]; [lia|]. specialize (IH3 x Hx). lia. }
  destruct (H (a :: l)) as (H1 & H2 & H3). split; [|exact H3].
  destruct H1 as [?|E]; [assumption|]. rewrite E. now left.
Qed.

(** In a series with distinct labels, a label finds its own value. *)
Lemma series_get_unique (s : Series) d v :
  NoDup (map fst s) -> In (d, v) s -> series_get s d = v.
Proof.
  unfold series_get. induction s as [|[d' v'] s IH]; intros Hnd Hin; [destruct Hin|].
  cbn [map fst] in Hnd. apply NoDup_cons in Hnd as [Hd' Hnd].
  cbn [find fst]. destruct (Z.eqb_spec d' d) as [->|Hne].
  - destruct Hin as [E|Hin]; [now injection E|].
    exfalso. apply Hd'. apply list_elem_of_In. apply in_map_iff. now exists (d, v).
  - destruct Hin as [E|Hin]; [congruence|]. now apply IH.
Qed.

Lemma month_starts_length k n : length (month_starts k n) = n.
Proof. unfold month_starts. now rewrite length_map, length_seq. Qed.

Lemma month_starts_lookup k n (i : nat) d :
  month_starts k n !! i = Some d -> d = month_start (k + Z.of_nat i).
Proof.
  unfold month_starts. rewrite map_fmap, list_lookup_fmap.
  intros H. destruct (seq 0 n !! i) as [j|] eqn:E; [|discriminate].
  apply lookup_seq in E as [-> _]. cbn in H. now injection H as <-.
Qed.

Lemma asfreq_MS_spec (s ts : Series) :
  asfreq_MS s = Ok ts ->
  map fst s <> [] /\ NoDup (map fst s) /\
  ts = map (fun d => (d, series_get s d))
         (date_range_MS (index_min (map fst s)) (index_max (map fst s))).
Proof.
  unfold asfreq_MS. set (idx := map fst s).
  destruct idx as [|d0 idx'] eqn:E; [discriminate|]. rewrite <- E.
  destruct (bool_decide (NoDup idx)) eqn:End; [|discriminate].
  apply bool_decide_eq_true in End. intros H. injection H as <-.
  split; [rewrite E; discriminate|]. now split.
Qed.

End RangeFacts.

(** ** The loader *)

Module LoaderFacts.
Import Calendar CalendarFacts DataPrep FillFacts RangeFacts.

Section Order.
Variable to_numeric : string -> option Q.
Variable other_years : Q -> option Z.

Lemma filled_columns_lookup sel (i : nat) c :
  sel !! i = Some c ->
  filled_columns to_numeric sel !! i =
  Some (coerce to_numeric (fst c), coerce to_numeric (snd c),
        mjoin (fill_co2 (map (fun c => coerce to_numeric (snd c)) sel) !! i)).
Proof.
  intros H. unfold filled_columns. rewrite !lookup_zip_with, !map_fmap, !list_lookup_fmap, H.
  cbn.
  destruct (fill_co2 _ !! i) as [v|] eqn:E; [reflexivity|exfalso].
  apply lookup_ge_None in E. rewrite length_fill_co2, length_fmap in E.
  apply lookup_lt_Some in H. lia.
Qed.

Lemma length_filled_columns sel :
  length (filled_columns to_numeric sel) = length sel.
Proof.
  unfold filled_columns. rewrite !length_zip_with, length_fill_co2, !length_map. lia.
Qed.

Lemma filled_columns_elem sel x raw f :
  (x, raw, f) ∈ filled_columns to_numeric sel ->
  exists (i : nat) c,
    sel !! i = Some c /\ x = coerce to_numeric (fst c) /\
    raw = coerce to_numeric (snd c) /\
    fill_co2 (map (fun c => coerce to_numeric (snd c)) sel) !! i = Some f.
Proof.
  intros H. apply list_elem_of_lookup in H as [i Hi].
  assert (Hlt : (i < length sel)%nat).
  { apply lookup_lt_Some in Hi. now rewrite length_filled_columns in Hi. }
  destruct (lookup_lt_is_Some_2 sel i Hlt) as [c Hc].
  rewrite (filled_columns_lookup _ _ c Hc) in Hi. injection Hi as <- <- <-.
  exists i, c. repeat split; try assumption.
  destruct (fill_co2 _ !! i) as [v|] eqn:E; [reflexivity|exfalso].
  apply lookup_ge_None in E. rewrite length_fill_co2, length_map in E. lia.
Qed.

Lemma length_omap_le {X Y} (f : X -> option Y) (l : list X) :
  (length (omap f l) <= length l)%nat.
Proof. induction l as [|x l IH]; cbn; [lia|]. destruct (f x); cbn; lia. Qed.

Lemma length_omap_lt {X Y} (f : X -> option Y) (l : list X) (i : nat) x :
  l !! i = Some x -> f x = None -> (length (omap f l) < length l)%nat.
Proof.
  revert i. induction l as [|y l IH]; intros [|i] Hi Hx; try discriminate.
  - cbn in Hi. injection Hi as ->. cbn. rewrite Hx.
    pose proof (length_omap_le f l). lia.
  - cbn in Hi. specialize (IH i Hi Hx). cbn. destruct (f y); cbn; lia.
Qed.

(** A table whose records are no longer than its header has no index
    fields. *)
Lemma table_width_fit header data :
  forallb (fun r => (length r <=? length header)%nat) data = true ->
  table_width header data = length header.
Proof.
  destruct data as [|first rest]; [reflexivity|]. cbn [forallb table_width].
  intros H. apply andb_true_iff in H as [H _]. apply Nat.leb_le in H. lia.
Qed.

(** What a cleaned frame was built from. *)
Lemma cleaned_frame_Ok records df :
  cleaned_frame to_numeric other_years records = Ok df ->
  exists title header data,
    records = title :: header :: data /\ (5 <= length header)%nat /\
    add_dates other_years
      (dropna (filled_columns to_numeric
                 (map (fun r => (r !! (table_width header data - length header + 3)%nat,
                                 r !! (table_width header data - length header + 4)%nat))
                      data))) = Ok df.
Proof.
  unfold cleaned_frame, read_csv, iloc_3_4.
  destruct records as [|title [|header data]]; try discriminate.
  destruct (forallb _ data); [|discriminate]. cbn [columns leading_cols raw_records].
  destruct (5 <=? length header)%nat eqn:E; [|discriminate].
  intros H. exists title, header, data. split; [reflexivity|].
  split; [now apply Nat.leb_le | exact H].
Qed.

Lemma add_dates_Ok rows df :
  add_dates other_years rows = Ok df ->
  Forall2 (fun (x : Q * option Q * Q) r =>
             decimal_year_to_date other_years (fst (fst x)) = Some (Date r) /\
             r = mkRow (fst (fst x)) (snd (fst x)) (snd x) (Date r)) rows df.
Proof.
  unfold add_dates. destruct (mapM _ rows) as [df'|] eqn:E; [|discriminate].
  intros H. injection H as <-. apply mapM_Some in E.
  eapply Forall2_impl; [exact E|].
  intros [[d raw] c] r Hr. cbn in *.
  destruct (decimal_year_to_date other_years d) as [date|]; [|discriminate].
  cbn in Hr. injection Hr as <-. cbn. now split.
Qed.

(** What the load is once the frame is there. *)
Lemma load_and_prep_data_frame records df :
  cleaned_frame to_numeric other_years records = Ok df ->
  load_and_prep_data to_numeric other_years records
  = match asfreq_MS (map (fun r => (Date r, Some (CO2_ppm r))) df) with
    | Raise e => Raise e
    | Ok [] => Raise (ValueError "NaTType does not support strftime")
    | Ok ts => Ok (ts, df)
    end.
Proof.
  intros H. unfold load_and_prep_data. rewrite H.
  destruct (asfreq_MS _) as [[|p ts]|e]; reflexivity.
Qed.

(** A returned frame is the cleaned frame. *)
Lemma load_and_prep_data_returns_frame records ts df df' :
  cleaned_frame to_numeric other_years records = Ok df ->
  load_and_prep_data to_numeric other_years records = Ok (ts, df') -> df' = df.
Proof.
  intros H. rewrite (load_and_prep_data_frame _ _ H).
  destruct (asfreq_MS _) as [[|p ts']|e]; try discriminate.
  intros E. now injection E as _ <-.
Qed.

(** The filled column at a dated cell without a reading, next to a cell
    with a reading and no date. *)
Lemma fill_reaches_dated_cell (bad good : option string * option string) (d c : Q) :
  coerce to_numeric (fst bad) = None ->
  coerce to_numeric (snd bad) = Some c ->
  coerce to_numeric (fst good) = Some d ->
  coerce to_numeric (snd good) = None ->
  (forall pre post,
      In (d, None, c)
         (dropna (filled_columns to_numeric (pre ++ bad :: good :: post)))) /\
  (forall post,
      In (d, None, c) (dropna (filled_columns to_numeric (good :: bad :: post)))).
Proof.
  intros Hbd Hbc Hgd Hgc. split.
  - intros pre post. apply list_elem_of_In, list_elem_of_omap.
    exists (Some d, None, Some c). split; [|reflexivity].
    apply list_elem_of_lookup. exists (S (length pre)).
    rewrite (filled_columns_lookup _ _ good).
    + rewrite Hgd, Hgc. do 3 f_equal.
      rewrite map_app. cbn [map]. rewrite Hbc, Hgc.
      unfold fill_co2, ffill.
      erewrite bfill_keeps_valid; [reflexivity|].
      rewrite <- (length_map (fun c0 => coerce to_numeric (snd c0)) pre).
      apply ffill_from_gap.
    + rewrite lookup_app_r by lia.
      replace (S (length pre) - length pre)%nat with 1%nat by lia. reflexivity.
  - intros post. apply list_elem_of_In, list_elem_of_omap.
    exists (Some d, None, Some c). split; [|reflexivity].
    apply list_elem_of_lookup. exists 0%nat.
    rewrite (filled_columns_lookup _ _ good) by reflexivity.
    rewrite Hgd, Hgc. cbn [map]. rewrite Hbc, Hgc. reflexivity.
Qed.

(** A row of the frame for a kept cell, and a frame shorter than the table
    for a dropped one. *)
Lemma cleaned_frame_kept_and_dropped title header data df (i : nat) bad d c :
  cleaned_frame to_numeric other_years (title :: header :: data) = Ok df ->
  data !! i = Some bad ->
  coerce to_numeric
    (bad !! (table_width header data - length header + 3)%nat) = None ->
  In (d, None, c)
     (dropna (filled_columns to_numeric
                (map (fun r => (r !! (table_width header data - length header + 3)%nat,
                                r !! (table_width header data - length header + 4)%nat))
                     data))) ->
  (exists date, decimal_year_to_date other_years d = Some date /\
                In (mkRow d None c date) df) /\
  (length df < length data)%nat.
Proof.
  intros H Hbad Hnone Hin.
  apply cleaned_frame_Ok in H as (title' & header' & data' & E & _ & H).
  injection E as <- <- <-. apply add_dates_Ok in H. split.
  - apply list_elem_of_In, list_elem_of_lookup in Hin as [j Hj].
    destruct (Forall2_lookup_l _ _ _ _ _ H Hj) as (r & Hr & Hd & Hrow).
    cbn [fst snd] in Hd, Hrow. exists (Date r). split; [exact Hd|].
    rewrite <- Hrow. apply list_elem_of_In, list_elem_of_lookup. eauto.
  - rewrite <- (Forall2_length _ _ _ H).
    set (k := (table_width header data - length header)%nat) in *.
    set (sel := map (fun r => (r !! (k + 3)%nat, r !! (k + 4)%nat)) data) in *.
    assert (Hsel : sel !! i = Some (bad !! (k + 3)%nat, bad !! (k + 4)%nat)).
    { unfold sel. now rewrite map_fmap, list_lookup_fmap, Hbad. }
    pose proof (filled_columns_lookup sel i _ Hsel) as Hl. cbn [fst snd] in Hl.
    rewrite Hnone in Hl.
    unfold dropna.
    eapply Nat.lt_le_trans; [eapply length_omap_lt; [exact Hl | reflexivity]|].
    rewrite length_filled_columns. unfold sel. now rewrite length_map.
Qed.

(** C9. In the loader the concentration column is filled before the rows
    without a date are dropped. Take a table that the loader makes a frame
    of, with a record [bad] that has a valid reading [c] and an unreadable
    fractional year, next to a record [good] that has the fractional year
    [d] and no reading. Whether [good] follows [bad] anywhere in the table
    or comes before it at the top, the frame has a row for [good] with [c]
    as its concentration, and it has fewer rows than the table has records:
    the row of [bad] is dropped, and its reading has reached the next row
    all the same. A frame that [load_and_prep_data] returns is this
    frame. *)
Theorem fill_before_dropna title header (bad good : list string) (d c : Q) :
  (forall pre post df,
     let data := pre ++ bad :: good :: post in
     let k := (table_width header data - length header)%nat in
     coerce to_numeric (bad !! (k + 3)%nat) = None ->
     coerce to_numeric (bad !! (k + 4)%nat) = Some c ->
     coerce to_numeric (good !! (k + 3)%nat) = Some d ->
     coerce to_numeric (good !! (k + 4)%nat) = None ->
     cleaned_frame to_numeric other_years (title :: header :: data) = Ok df ->
     (exists date, decimal_year_to_date other_years d = Some date /\
                   In (mkRow d None c date) df) /\
     (length df < length data)%nat /\
     forall ts df',
       load_and_prep_data to_numeric other_years (title :: header :: data)
       = Ok (ts, df') -> df' = df) /\
  (forall post df,
     let data := good :: bad :: post in
     let k := (table_width header data - length header)%nat in
     coerce to_numeric (bad !! (k + 3)%nat) = None ->
     coerce to_numeric (bad !! (k + 4)%nat) = Some c ->
     coerce to_numeric (good !! (k + 3)%nat) = Some d ->
     coerce to_numeric (good !! (k + 4)%nat) = None ->
     cleaned_frame to_numeric other_years (title :: header :: data) = Ok df ->
     (exists date, decimal_year_to_date other_years d = Some date /\
                   In (mkRow d None c date) df) /\
     (length df < length data)%nat /\
     forall ts df',
       load_and_prep_data to_numeric other_years (title :: header :: data)
       = Ok (ts, df') -> df' = df).
Proof.
  split.
  - intros pre post df data k Hbd Hbc Hgd Hgc Hcf.
    destruct (fill_reaches_dated_cell
                (bad !! (k + 3)%nat, bad !! (k + 4)%nat)
                (good !! (k + 3)%nat, good !! (k + 4)%nat) d c Hbd Hbc Hgd Hgc)
      as [Hfwd _].
    specialize (Hfwd (map (fun r => (r !! (k + 3)%nat, r !! (k + 4)%nat)) pre)
                     (map (fun r => (r !! (k + 3)%nat, r !! (k + 4)%nat)) post)).
    assert (Hbad : data !! length pre = Some bad).
    { unfold data. rewrite lookup_app_r by lia.
      replace (length pre - length pre)%nat with 0%nat by lia. reflexivity. }
    destruct (cleaned_frame_kept_and_dropped title header data df (length pre) bad d c
                Hcf Hbad Hbd) as [Hrow Hlen].
    { fold k. unfold data. rewrite map_app. exact Hfwd. }
    split; [exact Hrow|]. split; [exact Hlen|].
    intros ts df'. now apply load_and_prep_data_returns_frame.
  - intros post df data k Hbd Hbc Hgd Hgc Hcf.
    destruct (fill_reaches_dated_cell
                (bad !! (k + 3)%nat, bad !! (k + 4)%nat)
                (good !! (k + 3)%nat, good !! (k + 4)%nat) d c Hbd Hbc Hgd Hgc)
      as [_ Hbwd].
    specialize (Hbwd (map (fun r => (r !! (k + 3)%nat, r !! (k + 4)%nat)) post)).
    assert (Hbad : data !! 1%nat = Some bad) by reflexivity.
    destruct (cleaned_frame_kept_and_dropped title header data df 1 bad d c
                Hcf Hbad Hbd) as [Hrow Hlen].
    { fold k. exact Hbwd. }
    split; [exact Hrow|]. split; [exact Hlen|].
    intros ts df'. now apply load_and_prep_data_returns_frame.
Qed.
End Order.

(** The theorem on [table_bad_date]: the reading 316.97 of the undated
    record is the concentration of the one row of the frame, dated by
    1960.125, and the frame has one row for two records. *)
Lemma fill_before_dropna_witness :
  cleaned_frame to_numeric_decimal Samples.raises_elsewhere MoreSamples.table_bad_date
  = Ok MoreSamples.frame_bad_date /\
  (exists date,
     decimal_year_to_date Samples.raises_elsewhere (binary64 1960.125) = Some date /\
     In (mkRow (binary64 1960.125) None (binary64 316.97) date)
        MoreSamples.frame_bad_date) /\
  (length MoreSamples.frame_bad_date < 2)%nat.
Proof.
  assert (E : cleaned_frame to_numeric_decimal Samples.raises_elsewhere
                MoreSamples.table_bad_date = Ok MoreSamples.frame_bad_date)
    by (vm_compute; reflexivity).
  split; [exact E|].
  destruct (proj1 (fill_before_dropna to_numeric_decimal Samples.raises_elsewhere
                     Samples.title_row Samples.header_row
                     MoreSamples.record_bad_date MoreSamples.record_no_reading
                     (binary64 1960.125) (binary64 316.97))
                  [] [] MoreSamples.frame_bad_date
                  eq_refl eq_refl eq_refl eq_refl E) as (H1 & H2 & _).
  split; [exact H1 | exact H2].
Defined.

Section Index.
Variable to_numeric : string -> option Q.
Variable other_years : Q -> option Z.

(** C1, as amended. When [load_and_prep_data] returns, the series is not
    empty; its dates are exactly the month starts from the earliest to the
    latest normalised date of the frame, so they are strictly increasing,
    each the first day of the calendar month after the previous one, with
    no month start of that range left out; its length is the number of
    those month starts; and at a date that is the normalised date of a row
    of the frame the value is that row's filled concentration, not NaN. *)
Theorem load_and_prep_data_monthly_index records ts df :
  load_and_prep_data to_numeric other_years records = Ok (ts, df) ->
  let idx := map fst ts in
  let lo := index_min (map Date df) in
  let hi := index_max (map Date df) in
  let first := month_index (civil_from_days (rollforward lo)) in
  ts <> [] /\
  (In lo (map Date df) /\ In hi (map Date df) /\
   forall r, In r df -> lo <= Date r <= hi) /\
  (forall d, In d idx <-> is_month_start d = true /\ lo <= d <= hi) /\
  (forall (i : nat) a b, idx !! i = Some a -> idx !! S i = Some b ->
     a < b /\
     month_index (civil_from_days b) = month_index (civil_from_days a) + 1) /\
  idx = month_starts first (length ts) /\
  Z.of_nat (length ts) = month_index (civil_from_days hi) - first + 1 /\
  (forall r v, In r df -> In (Date r, v) ts -> v = Some (CO2_ppm r)).
Proof.
  unfold load_and_prep_data.
  destruct (cleaned_frame to_numeric other_years records) as [df'|e]; [|discriminate].
  set (s := map (fun r => (Date r, Some (CO2_ppm r))) df').
  destruct (asfreq_MS s) as [ts'|e] eqn:Eas; [|discriminate].
  apply asfreq_MS_spec in Eas as (Hne & End & Ets).
  assert (Hs : map fst s = map Date df') by (unfold s; now rewrite map_map).
  rewrite Hs in Hne, End, Ets.
  destruct ts' as [|p ts'']; [discriminate|].
  intros H. injection H as <- <-.
  assert (Hts : p :: ts'' <> []) by discriminate.
  rewrite Ets in Hts |- *. clear p ts'' Ets.
  cbv zeta. rewrite map_map. cbn [fst]. rewrite map_id, length_map.
  destruct (index_min_spec _ Hne) as [Hlo1 Hlo2].
  destruct (index_max_spec _ Hne) as [Hhi1 Hhi2].
  set (lo := index_min (map Date df')) in *.
  set (hi := index_max (map Date df')) in *.
  pose proof (date_range_MS_spec lo hi) as Hspec. cbv zeta in Hspec.
  set (range := date_range_MS lo hi) in *.
  set (first := month_index (civil_from_days (rollforward lo))) in *.
  set (n := Z.to_nat (month_index (civil_from_days hi) - first + 1)) in *.
  assert (Hn : n <> 0%nat).
  { intros Hn. rewrite Hn in Hspec. rewrite Hspec in Hts. now apply Hts. }
  split; [exact Hts|]. split; [|split; [|split; [|split; [|split]]]].
  - split; [exact Hlo1|]. split; [exact Hhi1|].
    intros r Hr. assert (In (Date r) (map Date df')) by now apply in_map.
    split; [now apply Hlo2 | now apply Hhi2].
  - intros d. apply in_date_range_MS.
  - intros i a b Ha Hb. rewrite Hspec in Ha, Hb.
    apply month_starts_lookup in Ha, Hb. subst a b.
    rewrite !month_index_month_start. split; [|lia].
    apply month_start_lt. lia.
  - rewrite Hspec at 1. now rewrite Hspec, month_starts_length.
  - rewrite Hspec, month_starts_length. unfold n in *. lia.
  - intros r v Hr Hv. apply in_map_iff in Hv as (d & E & _).
    injection E as -> <-. apply series_get_unique.
    + now rewrite Hs.
    + unfold s. apply in_map_iff. now exists r.
Qed.
End Index.

Lemma load_quarter :
  load_and_prep_data to_numeric_decimal Samples.raises_elsewhere Samples.table_quarter
  = Ok (Samples.series_quarter, Samples.frame_quarter).
Proof. vm_compute. reflexivity. Qed.

(** The theorem on [table_quarter]: four month starts from January 1960. *)
Lemma load_and_prep_data_monthly_index_witness :
  load_and_prep_data to_numeric_decimal Samples.raises_elsewhere Samples.table_quarter
  = Ok (Samples.series_quarter, Samples.frame_quarter) /\
  map fst Samples.series_quarter
  = month_starts
      (month_index (civil_from_days
         (rollforward (index_min (map Date Samples.frame_quarter)))))
      (length Samples.series_quarter).
Proof.
  split; [exact load_quarter|].
  exact (proj1 (proj2 (proj2 (proj2 (proj2
    (load_and_prep_data_monthly_index to_numeric_decimal Samples.raises_elsewhere
       Samples.table_quarter _ _ load_quarter)))))).
Defined.

(** C1 as stated fails on a table the loader accepts: with rows dated
    1960-01-01 and 1960-04-01 the series has four entries for two distinct
    months of the source, and the entries of February and March are NaN. *)
Lemma load_and_prep_data_gap_month :
  load_and_prep_data to_numeric_decimal Samples.raises_elsewhere Samples.table_quarter
  = Ok (Samples.series_quarter, Samples.frame_quarter) /\
  In (days_from_civil 1960 2 1, None) Samples.series_quarter /\
  length Samples.series_quarter = 4%nat /\
  distinct_months Samples.frame_quarter = 2%nat.
Proof.
  split; [vm_compute; reflexivity|].
  split; [right; left; reflexivity|].
  split; vm_compute; reflexivity.
Qed.

(** With every row dated mid-month no label of the frame is a month start,
    and every value of the series is NaN. *)
Example load_and_prep_data_mid_month :
  fst <$> (match load_and_prep_data to_numeric_decimal Samples.raises_elsewhere
                   Samples.table_mid_month with
           | Ok r => Some r
           | Raise _ => None
           end)
  = Some [(days_from_civil 1960 2 1, None); (days_from_civil 1960 3 1, None)].
Proof. vm_compute. reflexivity. Qed.

(** C2 on the code. The cleaned frame of the one-row table holds the one
    observation of the claim, dated 1960-01-16 with 316.97 ppm; but no month
    start lies between 1960-01-16 and 1960-01-16, the series is empty, and
    the message of line 52 raises on its empty index: the load fails. The
    year 1960 is inside the nanosecond range, so that this holds whatever
    [decimal_year_to_date] does outside it. *)
Theorem load_and_prep_data_single_row :
  forall other_years : Q -> option Z,
  cleaned_frame to_numeric_decimal other_years Samples.table_single
  = Ok [mkRow (binary64 1960.042) (Some (binary64 316.97)) (binary64 316.97)
             (days_from_civil 1960 1 16)] /\
  days_from_civil 1960 1 15 <= days_from_civil 1960 1 16 <= days_from_civil 1960 2 15 /\
  date_range_MS (days_from_civil 1960 1 16) (days_from_civil 1960 1 16) = [] /\
  load_and_prep_data to_numeric_decimal other_years Samples.table_single
  = Raise (ValueError "NaTType does not support strftime").
Proof.
  intros other_years.
  split; [vm_compute; reflexivity|]. split; [vm_compute; split; discriminate|].
  split; vm_compute; reflexivity.
Qed.

End LoaderFacts.

(** ** The prediction service *)

Module ServiceFacts.
Import Calendar CalendarFacts DataPrep NormalizerFacts RangeFacts Service.

Lemma digit_inj a b : digit a = digit b -> a mod 10 = b mod 10.
Proof.
  unfold digit. intros H. apply (f_equal nat_of_ascii) in H.
  rewrite !nat_ascii_embedding in H by (apply Nat2Z.inj_lt; rewrite Z2Nat.id; div_lia).
  apply Z2Nat.inj in H; div_lia.
Qed.

Lemma digit_not_dash a : digit a <> "-"%char.
Proof.
  unfold digit. intros H. apply (f_equal nat_of_ascii) in H.
  rewrite nat_ascii_embedding in H by (apply Nat2Z.inj_lt; rewrite Z2Nat.id; div_lia).
  change (nat_of_ascii "-") with 45%nat in H.
  assert (0 <= a mod 10) by div_lia. lia.
Qed.

Lemma pad2_inj a b : 0 <= a < 100 -> 0 <= b < 100 -> pad2 a = pad2 b -> a = b.
Proof.
  unfold pad2. intros Ha Hb H. injection H as H1 H2.
  pose proof (digit_inj _ _ H1). pose proof (digit_inj _ _ H2).
  cbv [digit] in *. clear H1 H2. div_lia.
Qed.

Lemma pad4_inj a b : 0 <= a < 10000 -> 0 <= b < 10000 -> pad4 a = pad4 b -> a = b.
Proof.
  unfold pad4, pad2. intros Ha Hb H. injection H as H1 H2 H3 H4.
  pose proof (digit_inj _ _ H1). pose proof (digit_inj _ _ H2).
  pose proof (digit_inj _ _ H3). pose proof (digit_inj _ _ H4).
  clear H1 H2 H3 H4. div_lia.
Qed.

(** *** The digits of a year *)

Lemma digits_before_last (fuel : nat) (n : Z) (acc : string) :
  n < 10 -> digits_before fuel n acc = String (digit n) acc.
Proof.
  intros H. destruct fuel as [|f]; [reflexivity|]. cbn [digits_before].
  now replace (n <? 10) with true by lia.
Qed.

Lemma digits_before_more (fuel : nat) (n : Z) (acc : string) :
  10 <= n ->
  digits_before (S fuel) n acc = digits_before fuel (n / 10) (String (digit n) acc).
Proof.
  intros H. cbn [digits_before]. now replace (n <? 10) with false by lia.
Qed.

Lemma log2_ge (n : Z) (k : Z) : 0 <= k -> 2 ^ k <= n -> k <= Z.log2 n.
Proof. intros Hk H. apply Z.log2_le_pow2; lia. Qed.

(** The year as one to four digits. *)
Lemma format_year_digits (y : Z) :
  0 <= y < 10000 ->
  (y < 10 /\ format_year y = String (digit y) "") \/
  (10 <= y < 100 /\ format_year y = String (digit (y / 10)) (String (digit y) "")) \/
  (100 <= y < 1000 /\
   format_year y
   = String (digit (y / 100)) (String (digit (y / 10)) (String (digit y) ""))) \/
  (1000 <= y /\ format_year y = pad4 y).
Proof.
  intros Hy. unfold format_year. replace (y <? 0) with false by lia.
  destruct (Z_lt_le_dec y 10) as [H1|H1].
  { left. split; [exact H1|]. now apply digits_before_last. }
  right. destruct (Z_lt_le_dec y 100) as [H2|H2].
  { left. split; [lia|].
    pose proof (log2_ge y 3 ltac:(lia) ltac:(lia)) as Hl.
    destruct (Z.to_nat (Z.log2 y)) as [|f] eqn:E; [lia|].
    rewrite digits_before_more by lia. apply digits_before_last. div_lia. }
  right. destruct (Z_lt_le_dec y 1000) as [H3|H3].
  { left. split; [lia|].
    pose proof (log2_ge y 6 ltac:(lia) ltac:(lia)) as Hl.
    destruct (Z.to_nat (Z.log2 y)) as [|[|f]] eqn:E; [lia..|].
    rewrite !digits_before_more by div_lia. rewrite digits_before_last by div_lia.
    replace (y / 10 / 10) with (y / 100) by div_lia. reflexivity. }
  right. split; [lia|].
  pose proof (log2_ge y 9 ltac:(lia) ltac:(lia)) as Hl.
  destruct (Z.to_nat (Z.log2 y)) as [|[|[|f]]] eqn:E; [lia..|].
  rewrite !digits_before_more by div_lia. rewrite digits_before_last by div_lia.
  replace (y / 10 / 10 / 10) with (y / 1000) by div_lia.
  replace (y / 10 / 10) with (y / 100) by div_lia. reflexivity.
Qed.

Lemma format_year_four_digits (y : Z) :
  1000 <= y <= 9999 -> format_year y = pad4 y.
Proof.
  intros Hy. destruct (format_year_digits y ltac:(lia)) as [[H _]|[[H _]|[[H _]|[_ H]]]];
    try lia. exact H.
Qed.

(** A year of up to four digits is read back from the text before the
    first dash. *)
Lemma format_year_inj (y1 y2 : Z) (s1 s2 : string) :
  0 <= y1 < 10000 -> 0 <= y2 < 10000 ->
  (format_year y1 ++ String "-" s1 = format_year y2 ++ String "-" s2)%string ->
  y1 = y2 /\ s1 = s2.
Proof.
  intros H1 H2.
  destruct (format_year_digits y1 H1) as [[B1 ->]|[[B1 ->]|[[B1 ->]|[B1 ->]]]];
    destruct (format_year_digits y2 H2) as [[B2 ->]|[[B2 ->]|[[B2 ->]|[B2 ->]]]];
    unfold pad4, pad2; cbn [String.append]; intros E; injection E; intros;
    repeat match goal with
      | H : digit _ = "-"%char |- _ => exfalso; exact (digit_not_dash _ H)
      | H : "-"%char = digit _ |- _ => exfalso; exact (digit_not_dash _ (eq_sym H))
      | H : digit _ = digit _ |- _ => apply digit_inj in H
      end;
    (split; [div_lia | congruence]).
Qed.

(** Dates with years of up to four digits print differently. *)
Lemma strftime_ymd_inj d1 d2 :
  0 <= year (civil_from_days d1) < 10000 ->
  0 <= year (civil_from_days d2) < 10000 ->
  strftime_ymd d1 = strftime_ymd d2 -> d1 = d2.
Proof.
  intros Hy1 Hy2. unfold strftime_ymd.
  destruct (civil_from_days_spec d1) as (Hm1 & Hd1 & E1).
  destruct (civil_from_days_spec d2) as (Hm2 & Hd2 & E2).
  cbv zeta in *.
  destruct (civil_from_days d1) as [y1 m1 e1], (civil_from_days d2) as [y2 m2 e2].
  cbn [year month day] in *. intros H.
  apply format_year_inj in H as [Hy H]; [|lia..].
  assert (Hmd : pad2 m1 = pad2 m2 /\ pad2 e1 = pad2 e2).
  { unfold pad2 in *. cbn [String.append] in H.
    injection H as -> -> -> ->. split; reflexivity. }
  destruct Hmd as (Hm & Hd).
  apply pad2_inj in Hm; [|lia..]. apply pad2_inj in Hd; [|lia..]. subst. lia.
Qed.

Lemma digit_of_digit (n : Z) : digit_of (digit n) = Some (n mod 10).
Proof.
  unfold digit_of, digit.
  rewrite nat_ascii_embedding by (apply Nat2Z.inj_lt; rewrite Z2Nat.id; div_lia).
  rewrite Z2Nat.id by div_lia.
  assert (H : 0 <= n mod 10 < 10) by div_lia.
  replace ((48 <=? 48 + n mod 10) && (48 + n mod 10 <=? 57)) with true by lia.
  f_equal. lia.
Qed.

Lemma read_digits_pad2 (n acc : Z) :
  0 <= n < 100 -> read_digits (pad2 n) acc = Some (100 * acc + n).
Proof.
  intros H. unfold pad2. cbn [read_digits]. rewrite !digit_of_digit. cbn [mbind option_bind].
  f_equal. div_lia.
Qed.

Lemma read_digits_pad4 (n : Z) :
  0 <= n < 10000 -> read_digits (pad4 n) 0 = Some n.
Proof.
  intros H. unfold pad4, pad2. cbn [read_digits]. rewrite !digit_of_digit. cbn [mbind option_bind].
  f_equal. div_lia.
Qed.

(** With a four-digit year the text is [YYYY-MM-DD]. *)
Lemma strftime_ymd_shape (d : Z) :
  1000 <= year (civil_from_days d) <= 9999 ->
  String.length (strftime_ymd d) = 10%nat /\
  String.get 4 (strftime_ymd d) = Some "-"%char /\
  String.get 7 (strftime_ymd d) = Some "-"%char /\
  read_digits (String.substring 0 4 (strftime_ymd d)) 0 = Some (year (civil_from_days d)) /\
  read_digits (String.substring 5 2 (strftime_ymd d)) 0 = Some (month (civil_from_days d)) /\
  read_digits (String.substring 8 2 (strftime_ymd d)) 0 = Some (day (civil_from_days d)).
Proof.
  intros Hy.
  destruct (civil_from_days_spec d) as (Hm & Hd & _). cbv zeta in Hm, Hd.
  unfold strftime_ymd. rewrite (format_year_four_digits _ Hy).
  set (c := civil_from_days d) in *.
  split; [reflexivity|]. split; [reflexivity|]. split; [reflexivity|].
  split; [|split].
  - change (String.substring 0 4 (pad4 (year c) ++ "-" ++ pad2 (month c) ++ "-" ++ pad2 (day c))%string)
      with (pad4 (year c)).
    apply read_digits_pad4. lia.
  - change (String.substring 5 2 (pad4 (year c) ++ "-" ++ pad2 (month c) ++ "-" ++ pad2 (day c))%string)
      with (pad2 (month c)).
    rewrite read_digits_pad2 by lia. f_equal; lia.
  - change (String.substring 8 2 (pad4 (year c) ++ "-" ++ pad2 (month c) ++ "-" ++ pad2 (day c))%string)
      with (pad2 (day c)).
    rewrite read_digits_pad2 by lia. f_equal; lia.
Qed.

(** *** Rounding to two decimals *)



Lemma strftime_ymd_keys_distinct (items : list (Z * Q)) :
  NoDup (map fst items) ->
  Forall (fun p => 0 <= year (civil_from_days (fst p)) < 10000) items ->
  NoDup (map (fun p => strftime_ymd (fst p)) items).
Proof.
  induction items as [|q r IH]; intros Hnd Hy; [constructor|].
  cbn [map] in *. apply NoDup_cons in Hnd as [Hq Hnd].
  apply Forall_cons in Hy as [Hyq Hyr].
  apply NoDup_cons. split; [|now apply IH].
  intros Hin. apply Hq. apply list_elem_of_In in Hin. apply list_elem_of_In.
  apply in_map_iff in Hin as (p & Hk & Hp). apply in_map_iff. exists p.
  split; [|exact Hp].
  apply strftime_ymd_inj; [|exact Hyq|exact Hk].
  rewrite Forall_forall in Hyr. apply Hyr. now apply list_elem_of_In.
Qed.

Lemma foldl_put_other (items : list (Z * Q)) (acc : gmap string Q) k :
  ~ In k (map (fun p => strftime_ymd (fst p)) items) ->
  foldl put_prediction acc items !! k = acc !! k.
Proof.
  revert acc. induction items as [|q r IH]; intros acc Hk; [reflexivity|].
  cbn [foldl]. rewrite IH. unfold put_prediction.
  - apply lookup_insert_ne. intros E. apply Hk. now left.
  - intros Hin. apply Hk. now right.
Qed.

Lemma foldl_put_source (items : list (Z * Q)) (acc : gmap string Q) k v :
  foldl put_prediction acc items !! k = Some v ->
  acc !! k = Some v \/ exists p, In p items /\ k = strftime_ymd (fst p) /\ v = round2 (snd p).
Proof.
  revert acc. induction items as [|q r IH]; intros acc H; [now left|].
  cbn [foldl] in H. apply IH in H as [H|(p & Hp & Hk & Hv)].
  unfold put_prediction in H.
  - destruct (decide (strftime_ymd (fst q) = k)) as [E|E].
    + rewrite <- E, lookup_insert_eq in H. injection H as <-.
      right. exists q. split; [now left|]. now split.
    + rewrite lookup_insert_ne in H by exact E. now left.
  - right. exists p. split; [now right|]. now split.
Qed.

Lemma foldl_put_present (items : list (Z * Q)) (acc : gmap string Q) k :
  is_Some (acc !! k) \/ In k (map (fun p => strftime_ymd (fst p)) items) ->
  is_Some (foldl put_prediction acc items !! k).
Proof.
  revert acc. induction items as [|q r IH]; intros acc H.
  - destruct H as [H|[]]. exact H.
  - cbn [foldl]. apply IH. unfold put_prediction. destruct H as [H|[E|H]].
    + left. destruct (decide (strftime_ymd (fst q) = k)) as [<-|E].
      * rewrite lookup_insert_eq. eauto.
      * now rewrite lookup_insert_ne.
    + left. rewrite <- E, lookup_insert_eq. eauto.
    + now right.
Qed.


Lemma predictions_dict_keys (items : list (Z * Q)) k :
  is_Some (predictions_dict items !! k) <->
  exists d, In d (map fst items) /\ k = strftime_ymd d.
Proof.
  unfold predictions_dict. split.
  - intros [v H]. apply foldl_put_source in H as [H|(p & Hp & Hk & _)].
    + rewrite lookup_empty in H. discriminate.
    + exists (fst p). split; [now apply in_map|exact Hk].
  - intros (d & Hd & ->). apply foldl_put_present. right.
    apply in_map_iff in Hd as (p & <- & Hp). apply in_map_iff. now exists p.
Qed.

Lemma get_forecast_success a query calls r :
  get_forecast a query = (calls, Success r) ->
  exists m items,
    model_fit a = Some m /\ predicted_mean m (steps query) = inr items /\
    items <> [] /\ calls = [steps query] /\
    r = mkResult (strftime_ymd (index_min (map fst items)))
                 (strftime_ymd (index_max (map fst items)))
                 (predictions_dict items).
Proof.
  unfold get_forecast. destruct (model_fit a) as [m|]; [|discriminate].
  destruct (predicted_mean m (steps query)) as [e|items] eqn:E; [discriminate|].
  destruct items as [|p items]; [discriminate|].
  unfold format_forecast.
  destruct (forallb _ (p :: items)); [|discriminate].
  intros H. injection H as <- <-.
  exists m, (p :: items). repeat split; try reflexivity; try assumption. discriminate.
Qed.

(** Every date of a successful response is one that [strftime] supports. *)
Lemma get_forecast_supported a query calls r m items :
  get_forecast a query = (calls, Success r) ->
  model_fit a = Some m -> predicted_mean m (steps query) = inr items ->
  Forall (fun p => 1 <= year (civil_from_days (fst p)) <= 9999) items.
Proof.
  unfold get_forecast. intros H Hm Hp. rewrite Hm, Hp in H.
  destruct items as [|p items]; [discriminate|]. unfold format_forecast in H.
  destruct (forallb _ (p :: items)) eqn:E; [|discriminate].
  rewrite forallb_forall in E. apply Forall_forall. intros q Hq.
  apply list_elem_of_In, E in Hq. unfold strftime_supported in Hq. cbv zeta in Hq. lia.
Qed.


(** C10. In a successful response [forecast_start_date] is the formatted
    earliest date of the predicted series and [forecast_end_date] the
    formatted latest one, and the keys of [predictions] are exactly the
    formatted dates of that series. *)
Theorem get_forecast_date_range a query calls r :
  get_forecast a query = (calls, Success r) ->
  exists m items,
    model_fit a = Some m /\ predicted_mean m (steps query) = inr items /\
    let dates := map fst items in
    In (index_min dates) dates /\ In (index_max dates) dates /\
    (forall d, In d dates -> index_min dates <= d <= index_max dates) /\
    forecast_start_date r = strftime_ymd (index_min dates) /\
    forecast_end_date r = strftime_ymd (index_max dates) /\
    (forall k, is_Some (predictions r !! k) <->
               exists d, In d dates /\ k = strftime_ymd d).
Proof.
  intros H. apply get_forecast_success in H as (m & items & Hm & Hp & Hne & _ & ->).
  exists m, items. split; [exact Hm|]. split; [exact Hp|]. cbv zeta.
  assert (Hd : map fst items <> []) by (destruct items; [congruence|discriminate]).
  destruct (index_min_spec _ Hd) as [Hlo1 Hlo2].
  destruct (index_max_spec _ Hd) as [Hhi1 Hhi2].
  repeat split; try assumption; try reflexivity; eauto.
  - apply predictions_dict_keys.
  - apply predictions_dict_keys.
Qed.

(** C8. With the model set, a forecast call that raises makes the handler
    fail with status 500 and a detail that carries the raised message. *)
Theorem get_forecast_model_error a m query msg :
  model_fit a = Some m ->
  predicted_mean m (steps query) = inl msg ->
  get_forecast a query =
    ([steps query], HTTPException 500 ("Prediction error: " ++ msg)).
Proof. intros Hm Hp. unfold get_forecast. now rewrite Hm, Hp. Qed.

(** C6. While the model reference is unset, as it is before startup, the
    handler fails with status 503 and makes no call to a model; once it is
    set, as after a successful startup, the handler makes one call to the
    model, with the request's [steps], and answers from what that call
    yields. *)
Theorem get_forecast_requires_model (a : App) (query : ForecastQuery) :
  (model_fit a = None ->
   get_forecast a query = ([], HTTPException 503 "Model is not loaded or ready.")) /\
  (forall m,
     model_fit a = Some m ->
     get_forecast a query
     = ([steps query],
        match predicted_mean m (steps query) with
        | inl e => HTTPException 500 ("Prediction error: " ++ e)
        | inr items =>
            match format_forecast items with
            | inl e => HTTPException 500 ("Prediction error: " ++ e)
            | inr r => Success r
            end
        end)) /\
  get_forecast app_init query
  = ([], HTTPException 503 "Model is not loaded or ready.") /\
  (forall m a',
     load_model (inr m) a = inr a' ->
     fst (get_forecast a' query) = [steps query]).
Proof.
  unfold get_forecast. split; [|split; [|split]].
  - intros ->. reflexivity.
  - intros m ->. reflexivity.
  - reflexivity.
  - intros m a' H. injection H as <-. reflexivity.
Qed.

(** C3, as amended. [steps] is the integer of the request and 12 without
    one; no lower bound is checked, so any integer is accepted and handed
    to the model as it is. *)
Theorem ForecastQuery_steps :
  steps (ForecastQuery_validate (mkBody None)) = 12 /\
  forall n : Z,
    steps (ForecastQuery_validate (mkBody (Some n))) = n /\
    forall m,
      fst (get_forecast (mkApp (Some m)) (ForecastQuery_validate (mkBody (Some n))))
      = [n].
Proof. split; [reflexivity|]. intros n. split; [reflexivity|]. intros m. reflexivity. Qed.

(** C3 as stated fails: a request with [steps] 0 is accepted, and the model
    is called with 0. *)
Lemma ForecastQuery_accepts_zero :
  ~ (1 <= steps (ForecastQuery_validate (mkBody (Some 0)))) /\
  fst (get_forecast (mkApp (Some Samples.model_two_months))
         (ForecastQuery_validate (mkBody (Some 0)))) = [0].
Proof. split; [cbn; lia | reflexivity]. Qed.

(** C6 at startup and after loading the two-month model. *)
Lemma get_forecast_requires_model_witness :
  get_forecast app_init (mkQuery 2)
  = ([], HTTPException 503 "Model is not loaded or ready.") /\
  fst (get_forecast (mkApp (Some Samples.model_two_months)) (mkQuery 2)) = [2].
Proof.
  destruct (get_forecast_requires_model app_init (mkQuery 2)) as (H1 & _ & _ & H4).
  split; [exact (H1 eq_refl)|].
  exact (H4 Samples.model_two_months _ eq_refl).
Defined.

Lemma get_forecast_two_months :
  get_forecast (mkApp (Some Samples.model_two_months)) (mkQuery 2)
  = ([2], Success Samples.forecast_two_months).
Proof. vm_compute. reflexivity. Qed.


(** Python's [round] on floats that print as ties: 421.245 is a little
    above the tie and 2.675 a little below; 0.125 is a tie, and goes to the
    even hundredth. *)
Example round2_floats :
  round2 (binary64 421.245) = binary64 421.25 /\
  round2 (binary64 2.675) = binary64 2.67 /\
  round2 (binary64 0.125) = binary64 0.12.
Proof. repeat split; vm_compute; reflexivity. Qed.

(** A year below 1000 is not padded. *)
Example strftime_ymd_year_999 :
  strftime_ymd (days_from_civil 999 6 5) = "999-06-05"%string.
Proof. vm_compute. reflexivity. Qed.

(** C10 on the two-month model. *)
Lemma get_forecast_date_range_witness :
  get_forecast (mkApp (Some Samples.model_two_months)) (mkQuery 2)
  = ([2], Success Samples.forecast_two_months) /\
  forecast_start_date Samples.forecast_two_months
  = strftime_ymd (index_min (map fst Samples.items_two_months)) /\
  forecast_end_date Samples.forecast_two_months
  = strftime_ymd (index_max (map fst Samples.items_two_months)).
Proof.
  split; [exact get_forecast_two_months|].
  destruct (get_forecast_date_range _ _ _ _ get_forecast_two_months)
    as (m & items & Hm & Hp & _ & _ & _ & Hs & He & _).
  injection Hm as <-. injection Hp as <-.
  split; [exact Hs | exact He].
Defined.

(** C8 on the two-month model, asked for no month at all. *)
Lemma get_forecast_model_error_witness :
  get_forecast (mkApp (Some Samples.model_two_months)) (mkQuery 0)
  = ([0], HTTPException 500
            "Prediction error: Prediction must have `end` after `start`.").
Proof.
  exact (get_forecast_model_error (mkApp (Some Samples.model_two_months))
           Samples.model_two_months (mkQuery 0) _ eq_refl eq_refl).
Defined.

End ServiceFacts.

(** ** More on the date normalizer *)

Module NormalizerMore.
Import Calendar CalendarFacts DataPrep NormalizerFacts.

Lemma binary64_zero (q : Q) : (q == 0)%Q -> (binary64 q == 0)%Q.
Proof.
  intros E. rewrite (binary64_comp _ _ E). reflexivity.
Qed.

Lemma cast_from_unit_D_zero (x : Q) : (x == 0)%Q -> cast_from_unit_D x = 0.
Proof.
  intros E. unfold cast_from_unit_D.
  assert (Hx : (0 <= x)%Q) by (rewrite E; apply Qle_refl).
  rewrite (Qtrunc_nonneg x Hx).
  assert (Hb : Qfloor x = 0) by (rewrite (Qfloor_comp _ _ E); reflexivity).
  rewrite Hb.
  pose proof (frac_part_bounds (x - inject_Z 0) 0 ltac:(lia)) as H.
  assert (Hfr : (0 <= x - inject_Z 0 <= 0 # 4)%Q).
  { rewrite E. split; unfold Qle; cbn; lia. }
  specialize (H Hfr). lia.
Qed.

Lemma round_nearest_half_even_multiple (j : Z) :
  round_nearest_half_even (j * DAY_NS) DAY_NS = j.
Proof.
  unfold round_nearest_half_even.
  rewrite Z.div_mul, Z.mod_mul by (unfold DAY_NS; lia). reflexivity.
Qed.

Lemma nanosecond_date_whole_year (Y : Z) :
  1678 <= Y <= 2262 ->
  nanosecond_date (inject_Z Y) = Some (days_from_civil Y 1 1).
Proof.
  intros HY. unfold nanosecond_date.
  assert (Hy0 : (0 <= inject_Z Y)%Q) by (rewrite <- (Zle_Qle 0); lia).
  rewrite (Qtrunc_nonneg _ Hy0), Qfloor_Z.
  assert (Hrem : (binary64 (inject_Z Y - inject_Z Y) == 0)%Q).
  { apply binary64_zero. unfold Qeq, Qminus, Qplus, Qopp, inject_Z; cbn. lia. }
  assert (Hx : (binary64 (binary64 (inject_Z Y - inject_Z Y) * 365.25) == 0)%Q).
  { apply binary64_zero. rewrite Hrem. reflexivity. }
  unfold to_timedelta_D. rewrite (cast_from_unit_D_zero _ Hx).
  pose proof (january_first_bounds Y HY) as Hj.
  unfold to_datetime_jan1.
  assert (E1 : (1000 <=? Y) && (Y <=? 9999) = true) by lia.
  assert (E2 : in_bounds (days_from_civil Y 1 1 * DAY_NS) = true)
    by (unfold in_bounds, TS_MIN, TS_MAX, DAY_NS; lia).
  rewrite E1, E2. cbn [mbind option_bind]. change (in_bounds 0) with true. cbn [mbind option_bind].
  rewrite Z.add_0_r, E2. unfold round_D.
  rewrite round_nearest_half_even_multiple, E2. reflexivity.
Qed.

Lemma Qtrunc_mono (a b : Q) : (0 <= a)%Q -> (a <= b)%Q -> Qtrunc a <= Qtrunc b.
Proof.
  intros Ha Hab. rewrite (Qtrunc_nonneg a Ha), (Qtrunc_nonneg b) by lra.
  now apply Qfloor_resp_le.
Qed.

Lemma round_13_mono (f g : Q) : (f <= g)%Q -> (round_13 f <= round_13 g)%Q.
Proof.
  intros H. unfold round_13. apply binary64_mono.
  change (inject_Z FRAC_DIGITS) with 10000000000000%Q.
  assert (Hr : Qround_half_even (f * 10000000000000)
               <= Qround_half_even (g * 10000000000000))
    by (apply Qround_half_even_mono; lra).
  rewrite Zle_Qle in Hr.
  unfold Qdiv. change (/ 10000000000000)%Q with (1 # 10000000000000)%Q. lra.
Qed.

Lemma round_13_nonneg (f : Q) : (0 <= f)%Q -> (0 <= round_13 f)%Q.
Proof.
  intros H. unfold round_13. apply binary64_nonneg.
  change (inject_Z FRAC_DIGITS) with 10000000000000%Q.
  assert (Hr : 0 <= Qround_half_even (f * 10000000000000)).
  { apply Qround_half_even_ge. change (inject_Z 0) with 0%Q. lra. }
  rewrite Zle_Qle in Hr. change (inject_Z 0) with 0%Q in Hr.
  unfold Qdiv. change (/ 10000000000000)%Q with (1 # 10000000000000)%Q. lra.
Qed.

(** The nanoseconds of the fraction of a day grow with the fraction. *)
Lemma frac_part_mono (f g : Q) :
  (0 <= f)%Q -> (f <= g)%Q ->
  Qtrunc (binary64 (round_13 (binary64 f) * inject_Z DAY_NS))
  <= Qtrunc (binary64 (round_13 (binary64 g) * inject_Z DAY_NS)).
Proof.
  intros Hf Hfg.
  pose proof (binary64_nonneg f Hf) as H1.
  pose proof (binary64_mono f g Hfg) as H2.
  pose proof (round_13_nonneg _ H1) as H3.
  pose proof (round_13_mono _ _ H2) as H4.
  set (f2 := round_13 (binary64 f)) in *. set (g2 := round_13 (binary64 g)) in *.
  change (inject_Z DAY_NS) with 86400000000000%Q.
  apply Qtrunc_mono.
  - apply binary64_nonneg. lra.
  - apply binary64_mono. lra.
Qed.

Lemma frac_part_nonneg (f : Q) :
  (0 <= f)%Q ->
  0 <= Qtrunc (binary64 (round_13 (binary64 f) * inject_Z DAY_NS)).
Proof.
  intros Hf.
  pose proof (round_13_nonneg _ (binary64_nonneg f Hf)) as H.
  set (f2 := round_13 (binary64 f)) in *.
  change (inject_Z DAY_NS) with 86400000000000%Q.
  rewrite Qtrunc_nonneg by (apply binary64_nonneg; lra).
  apply (Qfloor_resp_le 0). apply binary64_nonneg. lra.
Qed.

Lemma cast_from_unit_D_mono (a b : Q) :
  (0 <= a)%Q -> (a <= b)%Q -> cast_from_unit_D a <= cast_from_unit_D b.
Proof.
  intros Ha Hab. assert (Hb : (0 <= b)%Q) by lra.
  pose proof (Qfloor_resp_le a b Hab) as Hf.
  pose proof (Qfloor_le a) as Ha1. pose proof (Qlt_floor a) as Ha2.
  pose proof (Qfloor_le b) as Hb1. pose proof (Qlt_floor b) as Hb2.
  rewrite inject_Z_plus in Ha2, Hb2. change (inject_Z 1) with 1%Q in Ha2, Hb2.
  unfold cast_from_unit_D. rewrite (Qtrunc_nonneg a Ha), (Qtrunc_nonneg b Hb).
  destruct (Z.eq_dec (Qfloor a) (Qfloor b)) as [E|E].
  - rewrite <- E in *. apply Z.add_le_mono_l. apply frac_part_mono; lra.
  - pose proof (frac_part_bounds (a - inject_Z (Qfloor a)) 4 ltac:(lia)
                  ltac:(split; lra)) as Hfa.
    pose proof (frac_part_nonneg (b - inject_Z (Qfloor b)) ltac:(lra)) as Hfb.
    set (pa := Qtrunc _) in *. set (pb := Qtrunc _) in *.
    clearbody pa pb. unfold DAY_NS in *. div_lia.
Qed.

Lemma round_nearest_half_even_mono (u v : Z) :
  u <= v -> round_nearest_half_even u DAY_NS <= round_nearest_half_even v DAY_NS.
Proof.
  intros H. unfold round_nearest_half_even.
  assert (Hq : u / DAY_NS <= v / DAY_NS) by (apply Z.div_le_mono; unfold DAY_NS; lia).
  pose proof (Z.div_mod u DAY_NS ltac:(unfold DAY_NS; lia)) as Hu.
  pose proof (Z.div_mod v DAY_NS ltac:(unfold DAY_NS; lia)) as Hv.
  pose proof (Z.mod_pos_bound u DAY_NS ltac:(unfold DAY_NS; lia)) as Hru.
  pose proof (Z.mod_pos_bound v DAY_NS ltac:(unfold DAY_NS; lia)) as Hrv.
  set (qu := u / DAY_NS) in *. set (qv := v / DAY_NS) in *.
  set (ru := u mod DAY_NS) in *. set (rv := v mod DAY_NS) in *.
  change (DAY_NS / 2) with 43200000000000.
  destruct ((43200000000000 <? ru) || (ru =? 43200000000000) && Z.odd qu) eqn:Eu;
    destruct ((43200000000000 <? rv) || (rv =? 43200000000000) && Z.odd qv) eqn:Ev;
    try lia.
  destruct (Z.eq_dec qu qv) as [E|E]; [|lia]. exfalso.
  rewrite <- E in *. unfold DAY_NS in *.
  apply orb_false_iff in Ev as [Ev1 Ev2].
  apply orb_true_iff in Eu as [Eu|Eu].
  - assert (rv = 43200000000000) by lia. assert (ru <= rv) by lia. lia.
  - apply andb_true_iff in Eu as [Eu1 Eu2]. rewrite Eu2, andb_true_r in Ev2. lia.
Qed.

Lemma january_first_month_start (Y : Z) : days_from_civil Y 1 1 = month_start (12 * Y).
Proof.
  unfold month_start.
  replace (12 * Y / 12) with Y by div_lia. replace (12 * Y mod 12) with 0 by div_lia.
  reflexivity.
Qed.

Section Normalizer.

Variable other_years : Q -> option Z.

(** X1. A fractional year without a fraction, from 1678 to 2262, is
    normalised to January 1 of that year. *)
Theorem decimal_year_to_date_whole_year (Y : Z) :
  1678 <= Y <= 2262 ->
  decimal_year_to_date other_years (inject_Z Y) = Some (days_from_civil Y 1 1).
Proof.
  intros HY. apply decimal_year_to_date_nanosecond.
  now apply nanosecond_date_whole_year.
Qed.

(** X3. From 1678 to the end of 2261 [decimal_year_to_date] keeps the
    order of its inputs: of two fractional years in that range, both get a
    date, and the later one gets the later date, or the same. *)
Theorem decimal_year_to_date_mono (y1 y2 : Q) :
  1678 <= Qfloor y1 -> Qfloor y2 <= 2261 -> (y1 <= y2)%Q ->
  exists d1 d2,
    decimal_year_to_date other_years y1 = Some d1 /\
    decimal_year_to_date other_years y2 = Some d2 /\
    d1 <= d2.
Proof.
  intros H1 H2 Hle.
  pose proof (Qfloor_resp_le _ _ Hle) as Hf.
  destruct (nanosecond_date_within_year y1 ltac:(lia)) as (E1 & B1 & _).
  destruct (nanosecond_date_within_year y2 ltac:(lia)) as (E2 & B2 & _).
  cbv zeta in *.
  eexists. eexists.
  split; [apply decimal_year_to_date_nanosecond; exact E1|].
  split; [apply decimal_year_to_date_nanosecond; exact E2|].
  assert (Hy1 : (0 <= y1)%Q) by (apply Qfloor_year_nonneg; lia).
  assert (Hy2 : (0 <= y2)%Q) by (apply Qfloor_year_nonneg; lia).
  destruct (year_part_error y1 Hy1) as [Hx1 _].
  destruct (year_part_error y2 Hy2) as [Hx2 _]. cbv zeta in Hx1, Hx2.
  destruct (Z.eq_dec (Qfloor y1) (Qfloor y2)) as [E|E].
  - rewrite <- E in *. apply round_nearest_half_even_mono.
    apply Z.add_le_mono_l. apply cast_from_unit_D_mono; [tauto|].
    apply binary64_mono.
    assert (Hr : (binary64 (y1 - inject_Z (Qfloor y1)) <= binary64 (y2 - inject_Z (Qfloor y1)))%Q)
      by (apply binary64_mono; lra).
    lra.
  - pose proof (days_from_civil_next_year (Qfloor y1)) as Hn.
    assert (Hm : days_from_civil (Qfloor y1 + 1) 1 1 <= days_from_civil (Qfloor y2) 1 1).
    { rewrite !january_first_month_start. apply month_start_le. lia. }
    lia.
Qed.

End Normalizer.

Lemma decimal_year_to_date_whole_year_witness :
  decimal_year_to_date Samples.raises_elsewhere (inject_Z 2023)
  = Some (days_from_civil 2023 1 1).
Proof.
  exact (decimal_year_to_date_whole_year Samples.raises_elsewhere 2023 ltac:(lia)).
Defined.

Lemma decimal_year_to_date_mono_witness :
  exists d1 d2,
    decimal_year_to_date Samples.raises_elsewhere (binary64 1960.042) = Some d1 /\
    decimal_year_to_date Samples.raises_elsewhere (binary64 1960.125) = Some d2 /\
    d1 <= d2.
Proof.
  apply (decimal_year_to_date_mono Samples.raises_elsewhere
           (binary64 1960.042) (binary64 1960.125)).
  - vm_compute. discriminate.
  - vm_compute. discriminate.
  - vm_compute. discriminate.
Defined.

End NormalizerMore.

(** ** More on the repair of missing values *)

Module FillMore.
Import DataPrep FillFacts.

Section Columns.
Context {A : Type}.
Implicit Types (l r pre rest : list (option A)) (last : option A) (a v : A).

Lemma ffill_from_keeps_valid last l (i : nat) v :
  l !! i = Some (Some v) -> ffill_from last l !! i = Some (Some v).
Proof.
  revert last i. induction l as [|x r IH]; intros last i H; [discriminate|].
  destruct i as [|i]; cbn in *.
  - injection H as ->. reflexivity.
  - now apply IH.
Qed.

Lemma ffill_from_source last l v :
  In (Some v) (ffill_from last l) -> last = Some v \/ In (Some v) l.
Proof.
  revert last. induction l as [|x r IH]; intros last H; [destruct H|].
  cbn in H. destruct H as [H|H].
  - destruct x as [a|]; [right; left; exact H | now left].
  - apply IH in H as [H|H]; [|right; now right].
    destruct x as [a|]; [right; left; exact H | now left].
Qed.

Lemma bfill_source l v : In (Some v) (bfill l) -> In (Some v) l.
Proof.
  induction l as [|x r IH]; intros H; [destruct H|].
  cbn in H. destruct x as [a|].
  - destruct H as [H|H]; [now left | right; now apply IH].
  - destruct H as [H|H]; [|right; now apply IH].
    right. apply IH. destruct (bfill r) as [|y t]; [discriminate|].
    cbn in H. left. exact H.
Qed.

Lemma ffill_from_all_valid last l : Forall is_Some l -> ffill_from last l = l.
Proof.
  intros H. revert last. induction H as [|x r [a ->] _ IH]; intros last; cbn; [reflexivity|].
  now rewrite IH.
Qed.

Lemma fill_co2_all_missing l : Forall (fun x => x = None) l -> fill_co2 l = l.
Proof.
  unfold fill_co2, ffill. induction 1 as [|x r -> Hr IH]; [reflexivity|].
  cbn [ffill_from bfill]. rewrite IH. destruct Hr as [|y t ->]; reflexivity.
Qed.

Lemma all_missing_or_some_valid l :
  Forall (fun x => x = None) l \/ exists v, In (Some v) l.
Proof.
  induction l as [|[a|] r [IH|[v IH]]].
  - left. constructor.
  - right. exists a. now left.
  - right. exists a. now left.
  - left. now constructor.
  - right. exists v. now right.
Qed.

Lemma fill_co2_keeps l (i : nat) v :
  l !! i = Some (Some v) -> fill_co2 l !! i = Some (Some v).
Proof.
  intros H. unfold fill_co2, ffill.
  now apply bfill_keeps_valid, ffill_from_keeps_valid.
Qed.

Lemma fill_co2_source l v : In (Some v) (fill_co2 l) -> In (Some v) l.
Proof.
  intros H. unfold fill_co2, ffill in H.
  apply bfill_source, ffill_from_source in H as [H|H]; [discriminate | exact H].
Qed.

(** X4. Filling keeps the length of the column and every valid reading in
    its place, and every filled value is a valid reading of the column. *)
Theorem fill_co2_conservative l :
  length (fill_co2 l) = length l /\
  (forall (i : nat) v, l !! i = Some (Some v) -> fill_co2 l !! i = Some (Some v)) /\
  (forall v, In (Some v) (fill_co2 l) -> In (Some v) l).
Proof.
  split; [apply length_fill_co2|]. split.
  - apply fill_co2_keeps.
  - apply fill_co2_source.
Qed.

(** X5. Filling a filled column changes nothing; a column without a gap,
    and a column without any valid reading, come back as they are. *)
Theorem fill_co2_idempotent l :
  fill_co2 (fill_co2 l) = fill_co2 l /\
  (Forall is_Some l -> fill_co2 l = l) /\
  (Forall (fun x => x = None) l -> fill_co2 l = l).
Proof.
  assert (Hv : forall k : list (option A), Forall is_Some k -> fill_co2 k = k).
  { intros k Hk. unfold fill_co2, ffill.
    rewrite ffill_from_all_valid by exact Hk. now apply bfill_all_valid. }
  split; [|split; [apply Hv | apply fill_co2_all_missing]].
  destruct (all_missing_or_some_valid l) as [H|H].
  - rewrite (fill_co2_all_missing l H). exact (fill_co2_all_missing l H).
  - apply Hv. now apply fill_co2_some_valid.
Qed.

Lemma ffill_from_leading_gap (n : nat) a rest :
  ffill_from None (replicate n None ++ Some a :: rest)
  = replicate n None ++ Some a :: ffill_from (Some a) rest.
Proof. induction n as [|n IH]; cbn; [reflexivity|]. now rewrite IH. Qed.

Lemma bfill_leading_gap (n : nat) a rest :
  bfill (replicate n None ++ Some a :: rest)
  = replicate n (Some a) ++ Some a :: bfill rest.
Proof.
  induction n as [|n IH]; cbn [replicate app bfill]; [reflexivity|].
  rewrite IH. destruct n; reflexivity.
Qed.

Lemma ffill_from_app last pre a rest :
  ffill_from last (pre ++ Some a :: rest)
  = ffill_from last pre ++ Some a :: ffill_from (Some a) rest.
Proof.
  revert last. induction pre as [|x pre IH]; intros last; cbn; [reflexivity|].
  now rewrite IH.
Qed.

Lemma ffill_from_trailing_gap a (n : nat) :
  ffill_from (Some a) (replicate n None) = replicate n (Some a).
Proof. induction n as [|n IH]; cbn; [reflexivity|]. now rewrite IH. Qed.

(** X6. A gap that opens the column takes the first valid reading, and a
    gap that closes it takes the last one. *)
Theorem fill_co2_edges (n : nat) a :
  (forall rest (i : nat),
      (i <= n)%nat ->
      fill_co2 (replicate n None ++ Some a :: rest) !! i = Some (Some a)) /\
  (forall pre (i : nat),
      (length pre <= i <= length pre + n)%nat ->
      fill_co2 (pre ++ Some a :: replicate n None) !! i = Some (Some a)).
Proof.
  split.
  - intros rest i Hi. unfold fill_co2, ffill.
    rewrite ffill_from_leading_gap, bfill_leading_gap.
    destruct (decide (i < n)%nat) as [Hlt|Hge].
    + rewrite lookup_app_l by (rewrite length_replicate; lia).
      apply lookup_replicate. split; [reflexivity | lia].
    + rewrite lookup_app_r by (rewrite length_replicate; lia).
      rewrite length_replicate. replace (i - n)%nat with 0%nat by lia. reflexivity.
  - intros pre i Hi. unfold fill_co2, ffill.
    apply bfill_keeps_valid.
    rewrite ffill_from_app, ffill_from_trailing_gap.
    rewrite lookup_app_r by (rewrite length_ffill_from; lia).
    rewrite length_ffill_from.
    change (Some a :: replicate n (Some a)) with (replicate (S n) (Some a)).
    apply lookup_replicate. split; [reflexivity | lia].
Qed.
End Columns.

Lemma fill_co2_conservative_witness :
  fill_co2 [None; Some 7; None] !! 1%nat = Some (Some 7) /\
  In (Some 7) [None; Some 7; None].
Proof.
  destruct (fill_co2_conservative [None; Some 7; None]) as (_ & H1 & H2).
  split; [exact (H1 1%nat 7 eq_refl)|].
  exact (H2 7 (or_introl eq_refl)).
Defined.

Lemma fill_co2_idempotent_witness :
  fill_co2 [Some 1; Some 2] = [Some 1; Some 2] /\
  fill_co2 [None; None] = [@None Z; None].
Proof.
  split.
  - refine (proj1 (proj2 (fill_co2_idempotent [Some 1; Some 2])) _).
    repeat constructor; eauto.
  - refine (proj2 (proj2 (fill_co2_idempotent [@None Z; None])) _).
    repeat constructor.
Defined.

Lemma fill_co2_edges_witness :
  fill_co2 [None; None; Some 5; Some 6] !! 1%nat = Some (Some 5) /\
  fill_co2 [Some 4; Some 5; None; None] !! 3%nat = Some (Some 5).
Proof.
  destruct (fill_co2_edges 2 5) as [H1 H2]. split.
  - exact (H1 [Some 6] 1%nat ltac:(lia)).
  - exact (H2 [Some 4] 3%nat ltac:(cbn; lia)).
Defined.

End FillMore.

(** ** More on the loader *)

Module LoaderMore.
Import Calendar CalendarFacts DataPrep NormalizerFacts FillFacts FillMore RangeFacts LoaderFacts.

Section Frame.
Variable to_numeric : string -> option Q.
Variable other_years : Q -> option Z.

(** X7. The cleaned frame has at most one row per data record. Each of its
    rows carries the date that [decimal_year_to_date] gives its fractional
    year, and comes from a data record that has that fractional year and
    that raw reading in the fields of the columns at positions 3 and 4,
    which follow the index fields of the record (none when no record is
    longer than the header); it keeps the raw reading as its concentration
    when the reading is valid, and otherwise carries a valid reading of
    some data record. *)
Theorem cleaned_frame_rows title header data df :
  cleaned_frame to_numeric other_years (title :: header :: data) = Ok df ->
  let k := (table_width header data - length header)%nat in
  (length df <= length data)%nat /\
  (forallb (fun r => (length r <=? length header)%nat) data = true -> k = 0%nat) /\
  forall r, In r df ->
    decimal_year_to_date other_years (Date_Decimal r) = Some (Date r) /\
    (forall v, CO2_Raw_ppm r = Some v -> CO2_ppm r = v) /\
    (exists row, In row data /\
                 coerce to_numeric (row !! (k + 3)%nat) = Some (Date_Decimal r) /\
                 coerce to_numeric (row !! (k + 4)%nat) = CO2_Raw_ppm r) /\
    (exists row, In row data /\
                 coerce to_numeric (row !! (k + 4)%nat) = Some (CO2_ppm r)).
Proof.
  intros H k.
  apply cleaned_frame_Ok in H as (title' & header' & data' & E & _ & H).
  injection E as <- <- <-. fold k in H.
  apply add_dates_Ok in H.
  split; [|split].
  - rewrite <- (Forall2_length _ _ _ H). unfold dropna.
    etransitivity; [apply length_omap_le|].
    rewrite length_filled_columns, length_map. lia.
  - intros Hfit. unfold k. rewrite (table_width_fit _ _ Hfit). lia.
  - intros r Hr. apply list_elem_of_In, list_elem_of_lookup in Hr as [j Hj].
    destruct (Forall2_lookup_r _ _ _ _ _ H Hj) as ([[d raw] c] & Hx & Hd & Hrow).
    cbn [fst snd] in Hd, Hrow.
    assert (Hin : (d, raw, c) ∈ dropna (filled_columns to_numeric
                     (map (fun r => (r !! (k + 3)%nat, r !! (k + 4)%nat)) data)))
      by (apply list_elem_of_lookup; eauto).
    apply list_elem_of_omap in Hin as ([[x raw'] f] & Hin & Hf).
    destruct x as [x|]; [|discriminate]. destruct f as [f|]; [|discriminate].
    injection Hf as -> -> ->.
    apply filled_columns_elem in Hin as (i & cell & Hcell & Hx' & Hraw & Hfill).
    rewrite map_fmap, list_lookup_fmap in Hcell.
    destruct (data !! i) as [row|] eqn:Erow; [|discriminate].
    cbn in Hcell. injection Hcell as <-. cbn [fst snd] in Hx', Hraw.
    set (col := map (fun c0 => coerce to_numeric (snd c0))
                    (map (fun r0 => (r0 !! (k + 3)%nat, r0 !! (k + 4)%nat)) data)) in *.
    assert (Hcol : col !! i = Some raw).
    { unfold col. rewrite map_map, map_fmap, list_lookup_fmap, Erow. cbn. now rewrite Hraw. }
    rewrite Hrow. cbn [Date_Decimal CO2_Raw_ppm CO2_ppm Date].
    split; [exact Hd|]. split; [|split].
    + intros v ->. pose proof (fill_co2_keeps col i v Hcol) as Hkeep.
      rewrite Hkeep in Hfill. now injection Hfill as <-.
    + exists row. split; [apply list_elem_of_In, list_elem_of_lookup; eauto|].
      now split.
    + assert (Hc : In (Some c) col).
      { apply fill_co2_source, list_elem_of_In, list_elem_of_lookup. eauto. }
      unfold col in Hc. rewrite map_map in Hc. apply in_map_iff in Hc as (row' & Hr' & Hin').
      exists row'. split; [exact Hin' | exact Hr'].
Qed.


Lemma cleaned_frame_read title header data :
  forallb (fun r => (length r <=? length header)%nat) data = true ->
  cleaned_frame to_numeric other_years (title :: header :: data)
  = if (5 <=? length header)%nat
    then add_dates other_years
           (dropna (filled_columns to_numeric
                      (map (fun r => (r !! 3%nat, r !! 4%nat)) data)))
    else Raise IndexError.
Proof.
  intros H. unfold cleaned_frame, read_csv, iloc_3_4.
  rewrite (table_width_fit _ _ H), H. cbn [columns leading_cols raw_records].
  rewrite Nat.sub_diag. cbn [Nat.add].
  destruct (5 <=? length header)%nat; reflexivity.
Qed.

(** X8. A table whose header has fewer than five columns is refused with
    an [IndexError], whatever its rows hold. *)
Theorem load_and_prep_data_too_few_columns title header data :
  forallb (fun r => (length r <=? length header)%nat) data = true ->
  (length header < 5)%nat ->
  load_and_prep_data to_numeric other_years (title :: header :: data) = Raise IndexError.
Proof.
  intros Hfit Hlen. unfold load_and_prep_data.
  rewrite (cleaned_frame_read _ _ _ Hfit).
  replace (5 <=? length header)%nat with false by (symmetry; apply Nat.leb_gt; lia).
  reflexivity.
Qed.


(** X10. One record whose fractional year has a whole part of five digits
    or more fails the whole load with the error of the date conversion, as
    soon as the table has a valid reading, also when the record has no
    reading of its own: the fill gives it one, and the record is not
    dropped. *)
Theorem load_and_prep_data_five_digit_year title header data row row' y :
  forallb (fun r => (length r <=? length header)%nat) data = true ->
  (5 <= length header)%nat ->
  In row data -> coerce to_numeric (row !! 3%nat) = Some y ->
  10000 <= Qtrunc y ->
  In row' data -> is_Some (coerce to_numeric (row' !! 4%nat)) ->
  load_and_prep_data to_numeric other_years (title :: header :: data) = Raise DateError.
Proof.
  intros Hfit Hlen Hrow Hy Hdigits Hrow' [v Hv].
  pose proof (decimal_year_to_date_five_digits other_years y Hdigits) as Hnone.
  unfold load_and_prep_data. rewrite (cleaned_frame_read _ _ _ Hfit).
  replace (5 <=? length header)%nat with true by (symmetry; apply Nat.leb_le; lia).
  unfold add_dates.
  set (sel := map (fun r => (r !! 3%nat, r !! 4%nat)) data).
  set (col := map (fun c => coerce to_numeric (snd c)) sel).
  assert (Hfilled : Forall is_Some (fill_co2 col)).
  { apply fill_co2_some_valid. exists v. unfold col, sel. rewrite map_map.
    apply in_map_iff. exists row'. split; [exact Hv | exact Hrow']. }
  apply list_elem_of_In, list_elem_of_lookup in Hrow as [i Hi].
  assert (Hsel : sel !! i = Some (row !! 3%nat, row !! 4%nat)).
  { unfold sel. now rewrite map_fmap, list_lookup_fmap, Hi. }
  pose proof (filled_columns_lookup to_numeric sel i _ Hsel) as Hl. cbn [fst snd] in Hl.
  fold col in Hl.
  destruct (fill_co2 col !! i) as [f|] eqn:Ef.
  2:{ exfalso. apply lookup_ge_None in Ef. apply lookup_lt_Some in Hsel.
      unfold col in Ef. rewrite length_fill_co2, length_map in Ef. lia. }
  assert (Hf : is_Some f).
  { rewrite Forall_forall in Hfilled. apply Hfilled, list_elem_of_lookup. eauto. }
  destruct Hf as [c ->]. cbn [mjoin] in Hl. rewrite Hy in Hl.
  assert (Hin : (y, coerce to_numeric (row !! 4%nat), c)
                ∈ dropna (filled_columns to_numeric sel)).
  { apply list_elem_of_omap. eexists. split; [apply list_elem_of_lookup; eauto|]. reflexivity. }
  destruct (mapM _ (dropna (filled_columns to_numeric sel))) as [df|] eqn:E; [|reflexivity].
  exfalso. apply mapM_Some in E.
  apply list_elem_of_lookup in Hin as [j Hj].
  destruct (Forall2_lookup_l _ _ _ _ _ E Hj) as (r & _ & Hr).
  cbn in Hr. rewrite Hnone in Hr. discriminate.
Qed.

Lemma frame_labels (df : list Row) :
  map fst (map (fun r => (Date r, Some (CO2_ppm r))) df) = map Date df.
Proof. now rewrite map_map. Qed.


Lemma load_and_prep_data_Ok records ts df :
  load_and_prep_data to_numeric other_years records = Ok (ts, df) ->
  cleaned_frame to_numeric other_years records = Ok df /\
  NoDup (map Date df) /\ map Date df <> [] /\
  ts = map (fun d => (d, series_get (map (fun r => (Date r, Some (CO2_ppm r))) df) d))
         (date_range_MS (index_min (map Date df)) (index_max (map Date df))).
Proof.
  unfold load_and_prep_data.
  destruct (cleaned_frame to_numeric other_years records) as [df'|e]; [|discriminate].
  destruct (asfreq_MS _) as [ts'|e] eqn:Eas; [|discriminate].
  apply asfreq_MS_spec in Eas as (Hne & Hnd & Ets). rewrite frame_labels in *.
  destruct ts' as [|p ts'']; [discriminate|].
  intros H. injection H as <- <-. now repeat split.
Qed.

Lemma series_get_Some (s : Series) d x :
  series_get s d = Some x -> In (d, Some x) s.
Proof.
  unfold series_get. destruct (find _ s) as [[d' v]|] eqn:E; [|discriminate].
  apply find_some in E as [Hin Hd]. cbn in *. intros ->.
  apply Z.eqb_eq in Hd. now subst d'.
Qed.

Lemma series_get_None_frame (df : list Row) d :
  series_get (map (fun r => (Date r, Some (CO2_ppm r))) df) d = None ->
  forall r, In r df -> Date r <> d.
Proof.
  unfold series_get. destruct (find _ _) as [[d' v]|] eqn:E.
  - apply find_some in E as [Hin _]. apply in_map_iff in Hin as (r & Hr & _).
    injection Hr as <- <-. discriminate.
  - intros _ r Hr Hd.
    pose proof (find_none _ _ E (Date r, Some (CO2_ppm r))
                  ltac:(apply in_map_iff; eauto)) as Hn.
    cbn in Hn. apply Z.eqb_neq in Hn. contradiction.
Qed.

(** X12. Every value of the returned series is the filled concentration of
    the frame row of that date, and it is NaN exactly at the dates that no
    row of the frame has. *)
Theorem load_and_prep_data_values records ts df :
  load_and_prep_data to_numeric other_years records = Ok (ts, df) ->
  forall d v, In (d, v) ts ->
    match v with
    | Some x => exists r, In r df /\ Date r = d /\ CO2_ppm r = x
    | None => forall r, In r df -> Date r <> d
    end.
Proof.
  intros H d v Hin. apply load_and_prep_data_Ok in H as (_ & _ & _ & ->).
  apply in_map_iff in Hin as (d' & E & _). injection E as -> <-.
  destruct (series_get _ d) as [x|] eqn:Eg.
  - apply series_get_Some in Eg. apply in_map_iff in Eg as (r & Hr & Hin).
    injection Hr as <- <-. now exists r.
  - now apply series_get_None_frame.
Qed.

Lemma series_all_nan records ts df :
  load_and_prep_data to_numeric other_years records = Ok (ts, df) ->
  (forall r, In r df -> is_month_start (Date r) = false) ->
  forall d v, In (d, v) ts -> v = None.
Proof.
  intros H Hmid d v Hin.
  pose proof (load_and_prep_data_Ok _ _ _ H) as (_ & _ & _ & Ets).
  assert (Hms : is_month_start d = true).
  { rewrite Ets in Hin. apply in_map_iff in Hin as (d' & E & Hr).
    injection E as -> _. now apply in_date_range_MS in Hr as [Hr _]. }
  rewrite Ets in Hin. apply in_map_iff in Hin as (d' & E & _). injection E as -> <-.
  destruct (series_get _ d) as [x|] eqn:Eg; [exfalso|reflexivity].
  apply series_get_Some in Eg. apply in_map_iff in Eg as (r & Hr & Hinr).
  injection Hr as <- _. rewrite (Hmid r Hinr) in Hms. discriminate.
Qed.

(** X13. When no row of the frame is dated on the first of a month, as with
    the mid-month dates of the data file, every value of the returned
    series is NaN. *)
Theorem load_and_prep_data_all_nan records ts df :
  load_and_prep_data to_numeric other_years records = Ok (ts, df) ->
  (forall r, In r df -> is_month_start (Date r) = false) ->
  Forall (fun p => snd p = None) ts.
Proof.
  intros H Hmid. apply Forall_forall. intros [d v] Hin. cbn [snd].
  apply (series_all_nan records ts df H Hmid d v), list_elem_of_In, Hin.
Qed.

End Frame.

Lemma cleaned_frame_indexed :
  cleaned_frame to_numeric_decimal Samples.raises_elsewhere MoreSamples.table_indexed
  = Ok Samples.frame_quarter.
Proof. vm_compute. reflexivity. Qed.

Lemma load_mid_month :
  load_and_prep_data to_numeric_decimal Samples.raises_elsewhere Samples.table_mid_month
  = Ok (MoreSamples.series_mid_month, MoreSamples.frame_mid_month).
Proof. vm_compute. reflexivity. Qed.

Lemma frame_mid_month_dates r :
  In r MoreSamples.frame_mid_month -> is_month_start (Date r) = false.
Proof. intros [<-|[<-|[<-|[]]]]; reflexivity. Qed.

(** X7 on a table with an index field before the named fields: the date of
    the second row is read from the fifth field of a record. *)
Lemma cleaned_frame_rows_witness :
  exists row,
    In row [["MLO"; "1960"; "01"; "21915"; "1960.0"; "316.97"];
            ["MLO"; "1960"; "04"; "22006"; "1960.25"; "317.5"]]%string /\
    coerce to_numeric_decimal (row !! 4%nat) = Some (binary64 1960.25) /\
    coerce to_numeric_decimal (row !! 5%nat) = Some (binary64 317.5).
Proof.
  destruct (cleaned_frame_rows to_numeric_decimal Samples.raises_elsewhere
              _ _ _ _ cleaned_frame_indexed) as (_ & _ & H).
  destruct (H (mkRow (binary64 1960.25) (Some (binary64 317.5)) (binary64 317.5)
                     (days_from_civil 1960 4 1)))
    as (_ & _ & Hrow & _).
  { right. left. reflexivity. }
  exact Hrow.
Defined.

Lemma load_and_prep_data_too_few_columns_witness :
  load_and_prep_data to_numeric_decimal Samples.raises_elsewhere MoreSamples.table_narrow
  = Raise IndexError.
Proof.
  apply (load_and_prep_data_too_few_columns to_numeric_decimal).
  - reflexivity.
  - cbn. lia.
Defined.


(** X10 on a table whose second record has the year 10000.5 and no reading,
    whatever the conversion does below 10000: here it has a date for every
    such year. *)
Lemma load_and_prep_data_five_digit_year_witness :
  load_and_prep_data to_numeric_decimal (fun _ => Some 0) MoreSamples.table_year_10000
  = Raise DateError.
Proof.
  apply (load_and_prep_data_five_digit_year to_numeric_decimal (fun _ => Some 0) _ _ _
           ["10000"; "07"; "0"; "10000.5"; ""]%string
           ["1960"; "01"; "21930"; "1960.042"; "316.97"]%string
           (binary64 10000.5)).
  - reflexivity.
  - cbn. lia.
  - right. left. reflexivity.
  - reflexivity.
  - vm_compute. discriminate.
  - left. reflexivity.
  - eexists. reflexivity.
Defined.


Lemma load_and_prep_data_values_witness :
  exists r, In r Samples.frame_quarter /\
            Date r = days_from_civil 1960 4 1 /\ CO2_ppm r = binary64 317.5.
Proof.
  apply (load_and_prep_data_values to_numeric_decimal _ _ _ _ load_quarter
           (days_from_civil 1960 4 1) (Some (binary64 317.5))).
  right. right. right. left. reflexivity.
Defined.

Lemma load_and_prep_data_all_nan_witness :
  Forall (fun p => snd p = None) MoreSamples.series_mid_month.
Proof.
  exact (load_and_prep_data_all_nan to_numeric_decimal _ _ _ _ load_mid_month
           frame_mid_month_dates).
Defined.


End LoaderMore.

(** ** More on the service *)

Module ServiceMore.
Import Calendar CalendarFacts DataPrep NormalizerFacts RangeFacts Service ServiceFacts.

Lemma foldl_put_app (pre post : list (Z * Q)) (acc : gmap string Q) :
  foldl put_prediction acc (pre ++ post) = foldl put_prediction (foldl put_prediction acc pre) post.
Proof. apply foldl_app. Qed.

(** X15. When the predicted series has several items under one formatted
    date, the response holds the value of the last of them, rounded. *)
Theorem predictions_dict_last_wins (pre post : list (Z * Q)) (d : Z) (x : Q) :
  ~ In (strftime_ymd d) (map (fun p => strftime_ymd (fst p)) post) ->
  predictions_dict (pre ++ (d, x) :: post) !! strftime_ymd d = Some (round2 x).
Proof.
  intros Hk. unfold predictions_dict. rewrite foldl_app. cbn [foldl].
  rewrite foldl_put_other by exact Hk. unfold put_prediction at 1. cbn [fst snd].
  apply lookup_insert_eq.
Qed.

Lemma foldl_put_size (items : list (Z * Q)) (acc : gmap string Q) :
  NoDup (map (fun p => strftime_ymd (fst p)) items) ->
  (forall p, In p items -> acc !! strftime_ymd (fst p) = None) ->
  size (foldl put_prediction acc items) = (size acc + length items)%nat.
Proof.
  revert acc. induction items as [|q r IH]; intros acc Hnd Hfresh; cbn [foldl length]; [lia|].
  cbn [map] in Hnd. apply NoDup_cons in Hnd as [Hq Hnd].
  rewrite IH.
  - unfold put_prediction. rewrite map_size_insert_None by (apply Hfresh; now left). lia.
  - exact Hnd.
  - intros p Hp. unfold put_prediction. rewrite lookup_insert_ne.
    + apply Hfresh. now right.
    + intros E. apply Hq. apply list_elem_of_In, in_map_iff. exists p. split; [now symmetry|exact Hp].
Qed.

Lemma foldl_put_size_le (items : list (Z * Q)) (acc : gmap string Q) :
  (size (foldl put_prediction acc items) <= size acc + length items)%nat.
Proof.
  revert acc. induction items as [|q r IH]; intros acc; cbn [foldl length]; [lia|].
  etransitivity; [apply IH|]. unfold put_prediction.
  destruct (acc !! strftime_ymd (fst q)) eqn:E.
  - rewrite map_size_insert_Some by eauto. lia.
  - rewrite map_size_insert_None by exact E. lia.
Qed.

(** X16. A successful response holds at least one prediction and never
    more predictions than the predicted series has items; it holds exactly
    one per item when the dates of the series differ and have four-digit
    years. *)
Theorem get_forecast_count a query calls r :
  get_forecast a query = (calls, Success r) ->
  exists m items,
    model_fit a = Some m /\ predicted_mean m (steps query) = inr items /\
    (1 <= size (predictions r) <= length items)%nat /\
    (NoDup (map fst items) ->
     Forall (fun p => 0 <= year (civil_from_days (fst p)) < 10000) items ->
     size (predictions r) = length items).
Proof.
  intros H. apply get_forecast_success in H as (m & items & Hm & Hp & Hne & _ & ->).
  exists m, items. split; [exact Hm|]. split; [exact Hp|]. cbn [predictions].
  split; [split|].
  - destruct items as [|[d x] items]; [congruence|].
    assert (Hk : is_Some (predictions_dict ((d, x) :: items) !! strftime_ymd d)).
    { apply predictions_dict_keys. exists d. split; [now left | reflexivity]. }
    destruct (decide (size (predictions_dict ((d, x) :: items)) = 0%nat)) as [E|E]; [|lia].
    apply map_size_empty_inv in E. rewrite E, lookup_empty in Hk. now destruct Hk.
  - pose proof (foldl_put_size_le items ∅) as H. rewrite map_size_empty in H. exact H.
  - intros Hnd Hy. unfold predictions_dict. rewrite foldl_put_size.
    + now rewrite map_size_empty.
    + now apply strftime_ymd_keys_distinct.
    + intros p _. apply lookup_empty.
Qed.

(** X17. The health check and the forecast agree: [model_loaded] is false
    exactly when a forecast is refused with 503 without a call to the
    model, and true exactly when a forecast calls the model once, with the
    requested [steps], and does not answer 503. A model that predicts an
    empty series is answered with 500. *)
Theorem read_root_agrees a query :
  (snd (read_root a) = false <->
   get_forecast a query = ([], HTTPException 503 "Model is not loaded or ready.")) /\
  (snd (read_root a) = true <->
   exists resp, get_forecast a query = ([steps query], resp) /\
                forall detail, resp <> HTTPException 503 detail) /\
  (forall m, model_fit a = Some m -> predicted_mean m (steps query) = inr [] ->
     snd (get_forecast a query)
     = HTTPException 500 "Prediction error: NaTType does not support strftime").
Proof.
  unfold read_root, get_forecast. cbn [snd]. destruct (model_fit a) as [m|] eqn:E.
  - rewrite bool_decide_eq_true_2 by eauto. split; [|split].
    + split; [discriminate|]. intros H. discriminate.
    + split; [|reflexivity]. intros _. eexists. split; [reflexivity|].
      intros detail. destruct (predicted_mean m (steps query)) as [e|items]; [discriminate|].
      destruct (format_forecast items); discriminate.
    + intros m' Hm Hp. injection Hm as <-. rewrite Hp. reflexivity.
  - rewrite bool_decide_eq_false_2 by (intros [? ?]; discriminate). split; [|split].
    + split; reflexivity.
    + split; [discriminate|]. intros (resp & H & _). discriminate.
    + intros m' Hm. discriminate.
Qed.

(** X18. For a date with a four-digit year, the formatted date has ten
    characters, [YYYY-MM-DD]: its three fields read back as the year, month
    and day of the date, and no other date with a year of up to four digits
    has the same text. *)
Theorem strftime_ymd_round_trip (d : Z) :
  let c := civil_from_days d in
  let s := strftime_ymd d in
  1000 <= year c <= 9999 ->
  String.length s = 10%nat /\
  String.get 4 s = Some "-"%char /\ String.get 7 s = Some "-"%char /\
  read_digits (String.substring 0 4 s) 0 = Some (year c) /\
  read_digits (String.substring 5 2 s) 0 = Some (month c) /\
  read_digits (String.substring 8 2 s) 0 = Some (day c) /\
  (forall d', 0 <= year (civil_from_days d') < 10000 ->
              strftime_ymd d' = s -> d' = d).
Proof.
  cbv zeta. intros Hy.
  destruct (strftime_ymd_shape d Hy) as (H1 & H2 & H3 & H4 & H5 & H6).
  repeat (split; [assumption|]).
  intros d' Hy' E. apply strftime_ymd_inj; [exact Hy' | lia | exact E].
Qed.

Lemma digit_compare (a b : Z) :
  Ascii.compare (digit a) (digit b) = (a mod 10 ?= b mod 10).
Proof.
  unfold Ascii.compare, digit, ascii_of_nat.
  assert (Ha : 0 <= a mod 10 < 10) by div_lia. assert (Hb : 0 <= b mod 10 < 10) by div_lia.
  rewrite !N_ascii_embedding by lia.
  rewrite <- N2Z.inj_compare, !nat_N_Z, !Z2Nat.id by lia.
  apply Z.add_compare_mono_l.
Qed.

Lemma compare_pad2 (a b : Z) (s t : string) :
  0 <= a < 100 -> 0 <= b < 100 ->
  String.compare (pad2 a ++ s) (pad2 b ++ t)
  = match a ?= b with Eq => String.compare s t | c => c end.
Proof.
  intros Ha Hb. unfold pad2. cbv [String.append]. cbn [String.compare].
  rewrite !digit_compare.
  destruct (Z.compare_spec (a / 10 mod 10) (b / 10 mod 10)) as [E1|E1|E1];
    destruct (Z.compare_spec (a mod 10) (b mod 10)) as [E2|E2|E2];
    destruct (Z.compare_spec a b) as [E|E|E]; try reflexivity; exfalso; div_lia.
Qed.

Lemma compare_pad4 (a b : Z) (s t : string) :
  0 <= a < 10000 -> 0 <= b < 10000 ->
  String.compare (pad4 a ++ s) (pad4 b ++ t)
  = match a ?= b with Eq => String.compare s t | c => c end.
Proof.
  intros Ha Hb. unfold pad4, pad2. cbv [String.append]. cbn [String.compare].
  rewrite !digit_compare.
  destruct (Z.compare_spec (a / 1000 mod 10) (b / 1000 mod 10)) as [E1|E1|E1];
    destruct (Z.compare_spec (a / 100 mod 10) (b / 100 mod 10)) as [E2|E2|E2];
    destruct (Z.compare_spec (a / 10 mod 10) (b / 10 mod 10)) as [E3|E3|E3];
    destruct (Z.compare_spec (a mod 10) (b mod 10)) as [E4|E4|E4];
    destruct (Z.compare_spec a b) as [E|E|E]; try reflexivity; exfalso; div_lia.
Qed.

Lemma strftime_ymd_compare (d1 d2 : Z) :
  1000 <= year (civil_from_days d1) <= 9999 ->
  1000 <= year (civil_from_days d2) <= 9999 ->
  String.compare (strftime_ymd d1) (strftime_ymd d2) = (d1 ?= d2).
Proof.
  intros Hy1 Hy2.
  pose proof (month_start_of_day d1) as H1. pose proof (month_start_of_day d2) as H2.
  destruct (civil_from_days_spec d1) as (Hm1 & He1 & _).
  destruct (civil_from_days_spec d2) as (Hm2 & He2 & _).
  pose proof (day_in_its_month d1) as B1. pose proof (day_in_its_month d2) as B2.
  cbv zeta in *. unfold strftime_ymd.
  rewrite (format_year_four_digits _ Hy1), (format_year_four_digits _ Hy2).
  unfold month_index in *.
  destruct (civil_from_days d1) as [y1 m1 e1], (civil_from_days d2) as [y2 m2 e2].
  cbn [year month day] in *.
  assert (Hdash : forall s t : string,
             String.compare (String.append "-" s) (String.append "-" t)
             = String.compare s t) by reflexivity.
  assert (Hlast : String.compare (pad2 e1) (pad2 e2) = (e1 ?= e2)).
  { pose proof (compare_pad2 e1 e2 "" "" ltac:(lia) ltac:(lia)) as H.
    unfold pad2 in *. cbv [String.append] in H. rewrite H.
    destruct (e1 ?= e2); reflexivity. }
  rewrite (compare_pad4 y1 y2 _ _ ltac:(lia) ltac:(lia)). rewrite Hdash.
  rewrite (compare_pad2 m1 m2) by (clear - Hm1 Hm2; lia). rewrite Hdash, Hlast.
  set (k1 := 12 * y1 + (m1 - 1)) in *. set (k2 := 12 * y2 + (m2 - 1)) in *.
  assert (Hk : k1 < k2 -> d1 < d2).
  { intros Hlt. pose proof (month_start_le (k1 + 1) k2 ltac:(lia)). lia. }
  assert (Hk' : k2 < k1 -> d2 < d1).
  { intros Hlt. pose proof (month_start_le (k2 + 1) k1 ltac:(lia)). lia. }
  destruct (Z.compare_spec y1 y2) as [Ey|Ey|Ey].
  - destruct (Z.compare_spec m1 m2) as [Em|Em|Em].
    + unfold k1, k2 in *. subst y2 m2.
      destruct (Z.compare_spec e1 e2); destruct (Z.compare_spec d1 d2);
        try reflexivity; exfalso; lia.
    + symmetry. apply Z.compare_lt_iff, Hk. unfold k1, k2. lia.
    + symmetry. apply Z.compare_gt_iff, Hk'. unfold k1, k2. lia.
  - symmetry. apply Z.compare_lt_iff, Hk. unfold k1, k2. lia.
  - symmetry. apply Z.compare_gt_iff, Hk'. unfold k1, k2. lia.
Qed.

(** X19. In a successful response over dates with four-digit years, the
    keys of [predictions] lie between [forecast_start_date] and
    [forecast_end_date] in the order of strings, and two keys are ordered as
    strings the way their dates are ordered. *)
Theorem get_forecast_keys_ordered a query calls r :
  get_forecast a query = (calls, Success r) ->
  exists m items,
    model_fit a = Some m /\ predicted_mean m (steps query) = inr items /\
    (Forall (fun p => 1000 <= year (civil_from_days (fst p)) <= 9999) items ->
     (forall k, is_Some (predictions r !! k) ->
        String.compare (forecast_start_date r) k <> Gt /\
        String.compare k (forecast_end_date r) <> Gt) /\
     (forall d1 d2, In d1 (map fst items) -> In d2 (map fst items) ->
        String.compare (strftime_ymd d1) (strftime_ymd d2) = (d1 ?= d2))).
Proof.
  intros H. apply get_forecast_success in H as (m & items & Hm & Hp & Hne & _ & ->).
  exists m, items. split; [exact Hm|]. split; [exact Hp|]. intros Hy.
  assert (Hyear : forall d, In d (map fst items) ->
                            1000 <= year (civil_from_days d) <= 9999).
  { intros d Hd. apply in_map_iff in Hd as (p & <- & Hp').
    rewrite Forall_forall in Hy. apply Hy, list_elem_of_In, Hp'. }
  assert (Hne' : map fst items <> []) by (destruct items; [congruence|discriminate]).
  destruct (index_min_spec _ Hne') as [Hmin Hle].
  destruct (index_max_spec _ Hne') as [Hmax Hge].
  cbn [forecast_start_date forecast_end_date predictions]. split.
  - intros k Hk. apply predictions_dict_keys in Hk as (d & Hd & ->).
    rewrite !strftime_ymd_compare by auto. split.
    + apply Z.compare_le_iff, Hle, Hd.
    + apply Z.compare_le_iff, Hge, Hd.
  - intros d1 d2 H1 H2. apply strftime_ymd_compare; auto.
Qed.

Lemma items_two_months_years :
  Forall (fun p => 0 <= year (civil_from_days (fst p)) < 10000) Samples.items_two_months.
Proof. repeat constructor; vm_compute; congruence. Qed.

Lemma items_two_months_four_digits :
  Forall (fun p => 1000 <= year (civil_from_days (fst p)) <= 9999) Samples.items_two_months.
Proof. repeat constructor; vm_compute; congruence. Qed.

(** X15 on three items, two of them dated 2023-01-01: the key holds the
    second, 421.245, which rounds to 421.25. *)
Lemma predictions_dict_last_wins_witness :
  predictions_dict ([(days_from_civil 2023 1 1, binary64 421.236)]
                    ++ (days_from_civil 2023 1 1, binary64 421.245)
                       :: [(days_from_civil 2023 2 1, binary64 422.004)])
  !! strftime_ymd (days_from_civil 2023 1 1) = Some (round2 (binary64 421.245)) /\
  round2 (binary64 421.245) = binary64 421.25.
Proof.
  split; [|vm_compute; reflexivity].
  apply predictions_dict_last_wins.
  intros [E|[]]. vm_compute in E. discriminate.
Defined.

Lemma get_forecast_count_witness :
  (1 <= size (predictions Samples.forecast_two_months)
   <= length Samples.items_two_months)%nat /\
  size (predictions Samples.forecast_two_months) = length Samples.items_two_months.
Proof.
  destruct (get_forecast_count _ _ _ _ get_forecast_two_months)
    as (m & items & Hm & Hp & H1 & H2).
  injection Hm as <-. injection Hp as <-.
  split; [exact H1|]. apply H2.
  - change (NoDup [days_from_civil 2023 1 1; days_from_civil 2023 2 1]).
    apply NoDup_cons. split; [|apply NoDup_singleton].
    intros Hin. apply list_elem_of_singleton in Hin. vm_compute in Hin. discriminate.
  - exact items_two_months_years.
Defined.

Lemma read_root_agrees_witness :
  get_forecast app_init (mkQuery 12)
  = ([], HTTPException 503 "Model is not loaded or ready.").
Proof.
  exact (proj1 (proj1 (read_root_agrees app_init (mkQuery 12))) eq_refl).
Defined.

Lemma strftime_ymd_round_trip_witness :
  read_digits (String.substring 0 4 (strftime_ymd (days_from_civil 2023 2 1))) 0
  = Some 2023.
Proof.
  refine (proj1 (proj2 (proj2 (proj2
            (strftime_ymd_round_trip (days_from_civil 2023 2 1) _))))).
  vm_compute. split; congruence.
Defined.

Lemma get_forecast_keys_ordered_witness :
  String.compare (forecast_start_date Samples.forecast_two_months) "2023-02-01" <> Gt /\
  String.compare "2023-02-01" (forecast_end_date Samples.forecast_two_months) <> Gt.
Proof.
  destruct (get_forecast_keys_ordered _ _ _ _ get_forecast_two_months)
    as (m & items & Hm & Hp & H).
  injection Hm as <-. injection Hp as <-.
  apply (proj1 (H items_two_months_four_digits)). vm_compute. eauto.
Defined.

End ServiceMore.

(** ** Training and startup *)

Module TrainingFacts.
Import Calendar CalendarFacts DataPrep LoaderFacts LoaderMore Service ServiceFacts Training.

Section Train.

Variable to_numeric : string -> option Q.
Variable other_years : Q -> option Z.
Variable sarimax_fit : SARIMAX_args -> Series -> string + FittedModel.

Lemma load_and_prep_data_nonempty records ts df :
  load_and_prep_data to_numeric other_years records = Ok (ts, df) -> ts <> [].
Proof.
  unfold load_and_prep_data.
  destruct (cleaned_frame to_numeric other_years records) as [df'|e]; [|discriminate].
  destruct (asfreq_MS _) as [[|p ts']|e]; try discriminate.
  intros H. injection H as <- _. discriminate.
Qed.

Lemma train_and_save_model_inr disk disk' :
  train_and_save_model to_numeric other_years sarimax_fit disk = inr disk' ->
  exists records ts df m,
    tables disk !! DATA_FILE = Some records /\
    load_and_prep_data to_numeric other_years records = Ok (ts, df) /\
    sarimax_fit sarimax_args ts = inr m /\
    disk' = mkDisk (tables disk) (<[MODEL_PATH := Dumped m]> (artifacts disk)).
Proof.
  unfold train_and_save_model.
  destruct (tables disk !! DATA_FILE) as [records|]; [|discriminate].
  destruct (load_and_prep_data to_numeric other_years records) as [[ts df]|e] eqn:El;
    [|discriminate].
  destruct (sarimax_fit sarimax_args ts) as [msg|m] eqn:Ef; [discriminate|].
  intros H. injection H as <-. now exists records, ts, df, m.
Qed.

(** X20. A training run that succeeds has found the data file, loaded it to
    a series that is not empty, and fitted the model on that series with
    the orders (0,1,1)x(0,1,1,12). It leaves the tables and every other
    artifact as they were, and a service started on the resulting files
    holds the fitted model: its health check reports the model, and a
    forecast is one call to that model with the requested [steps]. *)
Theorem train_then_serve disk disk' :
  train_and_save_model to_numeric other_years sarimax_fit disk = inr disk' ->
  exists records ts df m,
    tables disk !! DATA_FILE = Some records /\
    load_and_prep_data to_numeric other_years records = Ok (ts, df) /\ ts <> [] /\
    sarimax_fit (mkArgs (0, 1, 1) (0, 1, 1, 12) false false "approximate_diffuse") ts
    = inr m /\
    tables disk' = tables disk /\
    (forall p, p <> MODEL_PATH -> artifacts disk' !! p = artifacts disk !! p) /\
    (forall a, startup disk' a = inr (mkApp (Some m))) /\
    snd (read_root (mkApp (Some m))) = true /\
    (forall query, fst (get_forecast (mkApp (Some m)) query) = [steps query]).
Proof.
  intros H. apply train_and_save_model_inr in H as (records & ts & df & m & Ht & El & Ef & ->).
  exists records, ts, df, m. cbn [tables artifacts].
  split; [exact Ht|]. split; [exact El|].
  split; [exact (load_and_prep_data_nonempty _ _ _ El)|].
  split; [exact Ef|]. split; [reflexivity|]. split; [|split; [|split]].
  - intros p Hp. now apply lookup_insert_ne.
  - intros a. unfold startup, joblib_load. cbn [artifacts].
    change SERVICE_MODEL_PATH with MODEL_PATH. now rewrite lookup_insert_eq.
  - reflexivity.
  - intros query. reflexivity.
Qed.

(** X21. When the data file loads to a frame without any row on the first
    of a month, the model is fitted on a series that holds no observation
    at all, and the outcome of the run is the outcome of that fit. *)
Theorem train_on_mid_month_data disk records ts df :
  tables disk !! DATA_FILE = Some records ->
  load_and_prep_data to_numeric other_years records = Ok (ts, df) ->
  (forall r, In r df -> is_month_start (Date r) = false) ->
  ts <> [] /\ Forall (fun p => snd p = None) ts /\
  train_and_save_model to_numeric other_years sarimax_fit disk
  = match sarimax_fit sarimax_args ts with
    | inl msg => inl (FitError msg)
    | inr m => inr (mkDisk (tables disk) (<[MODEL_PATH := Dumped m]> (artifacts disk)))
    end.
Proof.
  intros Ht El Hmid. split; [exact (load_and_prep_data_nonempty _ _ _ El)|]. split.
  - apply Forall_forall. intros [d v] Hin. cbn [snd].
    apply (series_all_nan to_numeric other_years records ts df El Hmid d v),
      list_elem_of_In, Hin.
  - unfold train_and_save_model. now rewrite Ht, El.
Qed.

End Train.

(** X22. A startup that succeeds has found a dumped model at the model
    path and leaves a service that holds it: its health check reports the
    model and its forecasts never answer 503, each being one call to the
    loaded model. A startup fails exactly when [joblib.load] raises, for an
    artifact that is missing or for one that it cannot read, and always
    with the same message, whatever the cause. *)
Theorem startup_then_serving disk a :
  (forall a', startup disk a = inr a' ->
     exists m, artifacts disk !! SERVICE_MODEL_PATH = Some (Dumped m) /\
               model_fit a' = Some m /\
               snd (read_root a') = true /\
               forall query, exists resp,
                 get_forecast a' query = ([steps query], resp) /\
                 forall detail, resp <> HTTPException 503 detail) /\
  (forall e, startup disk a = inl e <->
     (artifacts disk !! SERVICE_MODEL_PATH = None \/
      exists msg, artifacts disk !! SERVICE_MODEL_PATH = Some (Unreadable msg)) /\
     e = "Failed to load model on startup."%string).
Proof.
  unfold startup, joblib_load, load_model.
  destruct (artifacts disk !! SERVICE_MODEL_PATH) as [[m|msg]|] eqn:E; split.
  - intros a' H. injection H as <-. exists m. cbn [model_fit].
    split; [reflexivity|]. split; [reflexivity|]. split; [reflexivity|].
    intros query. unfold get_forecast. cbn [model_fit]. eexists. split; [reflexivity|].
    intros detail. destruct (predicted_mean m (steps query)) as [e|items]; [discriminate|].
    destruct (format_forecast items); discriminate.
  - intros e. split; [discriminate|]. intros [[H|[msg H]] _]; discriminate.
  - intros a' H. discriminate.
  - intros e. split.
    + intros H. injection H as <-. split; [right; eauto | reflexivity].
    + intros [_ ->]. reflexivity.
  - intros a' H. discriminate.
  - intros e. split.
    + intros H. injection H as <-. split; [now left | reflexivity].
    + intros [_ ->]. reflexivity.
Qed.

Lemma train_quarter :
  train_and_save_model to_numeric_decimal Samples.raises_elsewhere
    MoreSamples.fit_two_months MoreSamples.disk_quarter
  = inr (mkDisk (tables MoreSamples.disk_quarter)
                (<[MODEL_PATH := Dumped Samples.model_two_months]> ∅)).
Proof.
  unfold train_and_save_model.
  change (tables MoreSamples.disk_quarter !! DATA_FILE) with
    (({[ DATA_FILE := Samples.table_quarter ]} : gmap string (list (list string))) !! DATA_FILE).
  rewrite lookup_singleton_eq, load_quarter. reflexivity.
Qed.

Lemma train_then_serve_witness :
  startup (mkDisk (tables MoreSamples.disk_quarter)
                  (<[MODEL_PATH := Dumped Samples.model_two_months]> ∅)) app_init
  = inr (mkApp (Some Samples.model_two_months)).
Proof.
  destruct (train_then_serve _ _ _ _ _ train_quarter)
    as (records & ts & df & m & _ & _ & _ & Ef & _ & _ & Hs & _).
  injection Ef as <-. exact (Hs app_init).
Defined.

Lemma train_on_mid_month_data_witness :
  Forall (fun p => snd p = None) MoreSamples.series_mid_month.
Proof.
  refine (proj1 (proj2 (train_on_mid_month_data to_numeric_decimal
                          Samples.raises_elsewhere
                          MoreSamples.fit_two_months MoreSamples.disk_mid_month
                          Samples.table_mid_month MoreSamples.series_mid_month
                          MoreSamples.frame_mid_month _ load_mid_month
                          frame_mid_month_dates))).
  apply lookup_singleton_eq.
Defined.

(** X22 on a disk whose model path holds a file that is no pickle: the
    startup fails with the message that a missing file gives. *)
Lemma startup_then_serving_witness :
  startup MoreSamples.disk_corrupt app_init = inl "Failed to load model on startup."%string /\
  exists m,
    artifacts MoreSamples.disk_model !! SERVICE_MODEL_PATH = Some (Dumped m) /\
    model_fit (mkApp (Some Samples.model_two_months)) = Some m /\
    snd (read_root (mkApp (Some Samples.model_two_months))) = true.
Proof.
  split.
  - apply (proj2 (startup_then_serving MoreSamples.disk_corrupt app_init)).
    split; [|reflexivity]. right. eexists.
    unfold MoreSamples.disk_corrupt. cbn [artifacts]. apply lookup_singleton_eq.
  - destruct (proj1 (startup_then_serving MoreSamples.disk_model app_init)
                    (mkApp (Some Samples.model_two_months)))
      as (m & H1 & H2 & H3 & _).
    { unfold startup, joblib_load, MoreSamples.disk_model. cbn [artifacts].
      now rewrite lookup_singleton_eq. }
    exists m. split; [exact H1|]. split; [exact H2 | exact H3].
Defined.

End TrainingFacts.
